(** * Product search widget: a shallow embedding of [ProductSearch]

  The development follows the class [ProductSearch] of the repository
  (the latest revision, the one with sorting and the detail modal, and the
  first revision [script.js] where it differs).  JavaScript strings are
  sequences of UTF-16 code units, numbers are IEEE-754 binary64 values
  ([SpecFloat] at precision 53), arrays live in a heap and are handed
  around by reference, and the DOM elements the controller touches are
  fields of one state record. *)

From Stdlib Require Import ZArith NArith List Bool Lia String Ascii.
From Stdlib Require Import Permutation Sorted SpecFloat.
From stdpp Require Import base option list gmap.

Local Open Scope Z_scope.

(** ** JavaScript strings *)

(** A string is its sequence of UTF-16 code units. *)
Definition jsstring := list N.

(** An ASCII literal of the source, as code units. *)
Definition lit (s : string) : jsstring :=
  List.map N_of_ascii (list_ascii_of_string s).

Definition dquote : jsstring := [34%N].
Definition squote : jsstring := [39%N].

(** [WhiteSpace] and [LineTerminator] of ECMAScript, the code points that
    [String.prototype.trim] strips: TAB, VT, FF, SP, NBSP, ZWNBSP, the
    category Zs, and LF, CR, LS, PS. *)
Definition isWhiteSpace (c : N) : bool :=
  ((c =? 9) || (c =? 10) || (c =? 11) || (c =? 12) || (c =? 13) || (c =? 32)
   || (c =? 160) || (c =? 5760) || ((8192 <=? c) && (c <=? 8202))
   || (c =? 8232) || (c =? 8233) || (c =? 8239) || (c =? 8287)
   || (c =? 12288) || (c =? 65279))%N.

Fixpoint trimStart (s : jsstring) : jsstring :=
  match s with
  | [] => []
  | c :: s' => if isWhiteSpace c then trimStart s' else s
  end.

Definition trimEnd (s : jsstring) : jsstring := rev (trimStart (rev s)).

Definition trim (s : jsstring) : jsstring := trimEnd (trimStart s).

(** Truthiness of a string: only the empty string is falsy. *)
Definition truthy (s : jsstring) : bool :=
  match s with [] => false | _ => true end.

(** [String.prototype.startsWith] and [String.prototype.includes]. *)
Fixpoint startsWith (s p : jsstring) {struct p} : bool :=
  match p, s with
  | [], _ => true
  | _ :: _, [] => false
  | a :: p', b :: s' => (a =? b)%N && startsWith s' p'
  end.

Fixpoint includes (s p : jsstring) : bool :=
  startsWith s p ||
  match s with
  | [] => false
  | _ :: s' => includes s' p
  end.

(** Decimal digits of a non-negative integer, as [ToString] prints it. *)
Definition digit (d : N) : N := (48 + d)%N.

Fixpoint decimal_fuel (fuel : nat) (n : N) (acc : jsstring) : jsstring :=
  match fuel with
  | O => acc
  | S fuel' =>
      let acc' := digit (n mod 10) :: acc in
      if (n <? 10)%N then acc' else decimal_fuel fuel' (n / 10) acc'
  end.

Definition decimal (n : N) : jsstring :=
  decimal_fuel (S (N.to_nat (N.log2 n))) n [].


(** [String.prototype.repeat]: a [RangeError] for a negative or infinite
    count, which the caller sees as [None]. *)
Definition String_repeat (s : jsstring) (count : option Z) : option jsstring :=
  match count with
  | Some n => if n <? 0 then None else Some (concat (replicate (Z.to_nat n) s))
  | None => None
  end.

(** *** [encodeURIComponent] *)

Definition inRange (lo hi c : N) : bool := ((lo <=? c) && (c <=? hi))%N.

(** The characters [encodeURIComponent] leaves alone: letters, digits and
    the marks [- _ . ! ~ * ' ( )]. *)
Definition uriUnescaped (c : N) : bool :=
  inRange 65 90 c || inRange 97 122 c || inRange 48 57 c
  || (c =? 45)%N || (c =? 95)%N || (c =? 46)%N || (c =? 33)%N
  || (c =? 126)%N || (c =? 42)%N || (c =? 39)%N || (c =? 40)%N || (c =? 41)%N.

Definition isLeadingSurrogate (c : N) : bool := inRange 55296 56319 c.
Definition isTrailingSurrogate (c : N) : bool := inRange 56320 57343 c.

Definition codePointOfPair (hi lo : N) : N :=
  ((hi - 55296) * 1024 + (lo - 56320) + 65536)%N.

Definition utf8 (cp : N) : list N :=
  (if cp <? 128 then [cp]
   else if cp <? 2048 then
     [N.lor 192 (N.shiftr cp 6); N.lor 128 (N.land cp 63)]
   else if cp <? 65536 then
     [N.lor 224 (N.shiftr cp 12); N.lor 128 (N.land (N.shiftr cp 6) 63);
      N.lor 128 (N.land cp 63)]
   else
     [N.lor 240 (N.shiftr cp 18); N.lor 128 (N.land (N.shiftr cp 12) 63);
      N.lor 128 (N.land (N.shiftr cp 6) 63); N.lor 128 (N.land cp 63)])%N.

Definition hexDigit (d : N) : N := (if d <? 10 then 48 + d else 55 + d)%N.

Definition percentEncode (octet : N) : jsstring :=
  [37%N; hexDigit (octet / 16); hexDigit (octet mod 16)].

Definition percentEncodeAll (octets : list N) : jsstring :=
  concat (List.map percentEncode octets).

(** [None] is the [URIError] thrown at an unpaired surrogate. *)
Fixpoint encodeURIComponent (s : jsstring) : option jsstring :=
  match s with
  | [] => Some []
  | c :: s' =>
      if uriUnescaped c then
        match encodeURIComponent s' with
        | Some r => Some (c :: r)
        | None => None
        end
      else if isLeadingSurrogate c then
        match s' with
        | d :: s'' =>
            if isTrailingSurrogate d then
              match encodeURIComponent s'' with
              | Some r => Some (percentEncodeAll (utf8 (codePointOfPair c d)) ++ r)
              | None => None
              end
            else None
        | [] => None
        end
      else if isTrailingSurrogate c then None
      else
        match encodeURIComponent s' with
        | Some r => Some (percentEncodeAll (utf8 c) ++ r)
        | None => None
        end
  end.

(** *** Text serialised as HTML

    [escapeHtml] stores the text as the [textContent] of a detached element
    and reads its [innerHTML] back: the HTML fragment serialisation of one
    text node, which replaces [&], U+00A0, [<] and [>] and nothing else. *)
Definition escapeChar (c : N) : jsstring :=
  if (c =? 38)%N then lit "&amp;"
  else if (c =? 160)%N then lit "&nbsp;"
  else if (c =? 60)%N then lit "&lt;"
  else if (c =? 62)%N then lit "&gt;"
  else [c].

Definition serializeText (text : jsstring) : jsstring :=
  concat (List.map escapeChar text).

(** ** JavaScript numbers *)

Definition number := spec_float.
Definition prec : Z := 53.
Definition emax : Z := 1024.

Definition ofZ (z : Z) : number := binary_normalize prec emax z 0 false.

Definition num_zero : number := S754_zero false.
Definition num_half : number :=
  Eval vm_compute in binary_normalize prec emax 1 (-1) false.
Definition num_one : number := Eval vm_compute in ofZ 1.
Definition num_five : number := Eval vm_compute in ofZ 5.
(** [83.5], that is 167/2 *)
Definition num_83_5 : number :=
  Eval vm_compute in binary_normalize prec emax 167 (-1) false.

Definition num_mul : number -> number -> number := SFmul prec emax.
Definition num_sub : number -> number -> number := SFsub prec emax.
Definition num_div : number -> number -> number := SFdiv prec emax.

(** [x < y], [x >= y]: false as soon as an operand is NaN. *)
Definition num_lt (x y : number) : bool := SFltb x y.
Definition num_ge (x y : number) : bool := SFleb y x.

(** Truthiness of a number: [0], [-0] and [NaN] are falsy. *)
Definition num_truthy (x : number) : bool :=
  match x with
  | S754_zero _ | S754_nan => false
  | _ => true
  end.

(** [Math.floor]. *)
Definition Math_floor (x : number) : number :=
  match x with
  | S754_finite s m e =>
      if 0 <=? e then x
      else binary_normalize prec emax (cond_Zopp s (Zpos m) / 2 ^ (- e)) 0 s
  | _ => x
  end.

(** The remainder operator [n % d]: the sign of the dividend, exact. *)
Definition num_rem (n d : number) : number :=
  match n, d with
  | S754_nan, _ | _, S754_nan => S754_nan
  | S754_infinity _, _ => S754_nan
  | _, S754_zero _ => S754_nan
  | S754_zero _, _ => n
  | S754_finite _ _ _, S754_infinity _ => n
  | S754_finite sn mn en, S754_finite _ md ed =>
      let e0 := Z.min en ed in
      let a := Zpos mn * 2 ^ (en - e0) in
      let b := Zpos md * 2 ^ (ed - e0) in
      binary_normalize prec emax (cond_Zopp sn (a mod b)) e0 sn
  end.

(** [ToIntegerOrInfinity], with [None] for the two infinities. *)
Definition toInteger (x : number) : option Z :=
  match x with
  | S754_nan | S754_zero _ => Some 0
  | S754_infinity _ => None
  | S754_finite s m e =>
      Some (cond_Zopp s (if 0 <=? e then Zpos m * 2 ^ e else Zpos m / 2 ^ (- e)))
  end.

(** ** The host environment

    Conversions of numbers to text and the messages of built-in errors are
    the engine's; the controller only passes their results on. *)

(** What a [throw] carries to a [catch]: the [message] of the error. *)
Definition exn := jsstring.

Class Host := {
  (** [Number.prototype.toFixed] *)
  Number_toFixed : number -> nat -> jsstring;
  (** [ToString] of a number, as a template literal applies it *)
  Number_toString : number -> jsstring;
  (** [Intl.NumberFormat('en-IN', {style: 'currency', currency: 'INR',
      minimumFractionDigits: 0, maximumFractionDigits: 0}).format] *)
  Intl_formatINR : number -> jsstring;
  (** message of the [URIError] of [encodeURIComponent] *)
  URIError_message : exn;
  (** message of the [RangeError] of [String.prototype.repeat] *)
  RangeError_message : number -> exn
}.

(** ** Products, cards and arrays *)

Record Product := {
  p_id : Z;
  p_title : jsstring;
  p_description : option jsstring;
  p_price : number;
  p_rating : option number;
  p_thumbnail : option jsstring;
  p_images : option (list jsstring)
}.

(** A card element: its class, its cursor style, the markup assigned to
    [innerHTML] and the product its click listener opens. *)
Record Card := {
  card_className : jsstring;
  card_cursor : jsstring;
  card_innerHTML : jsstring;
  card_click : Product
}.

(** Arrays are objects: a variable holds a location of the heap. *)
Definition loc := nat.
Definition heap := gmap loc (list Product).

Definition array_get (h : heap) (a : loc) : list Product :=
  default [] (h !! a).

Definition array_alloc (h : heap) (l : list Product) : heap * loc :=
  let a := fresh (dom h) in (<[a := l]> h, a).

(** The spread [[...a]]: a new array with the elements of [a]. *)
Definition array_spread (h : heap) (a : loc) : heap * loc :=
  array_alloc h (array_get h a).

(** [Array.prototype.sort]: [comparefn x y < 0] puts [x] before [y], a NaN
    result counts as [0], and the sort is stable.  The elements are inserted
    one by one, each one before the first element it sorts strictly before;
    every stable sort gives this order when [comparefn] is a consistent
    comparator.  When it is not (a NaN price makes it so) ECMAScript leaves
    the order to the engine: what is defined here is then a permutation of
    the elements, and its order is not the order of any particular
    engine. *)
Definition sortsBefore {A} (comparefn : A -> A -> number) (x y : A) : bool :=
  num_lt (comparefn x y) num_zero.

Fixpoint insertSorted {A} (comparefn : A -> A -> number) (x : A) (l : list A)
  : list A :=
  match l with
  | [] => [x]
  | y :: l' =>
      if sortsBefore comparefn x y then x :: l
      else y :: insertSorted comparefn x l'
  end.

Definition sortList {A} (comparefn : A -> A -> number) (l : list A) : list A :=
  fold_left (fun acc x => insertSorted comparefn x acc) l [].

(** The array is sorted in place and the same array is returned. *)
Definition Array_sort (comparefn : Product -> Product -> number)
  (h : heap) (a : loc) : heap * loc :=
  (<[a := sortList comparefn (array_get h a)]> h, a).

(** ** The controller object

    The fields of [this]: the state of each DOM element the constructor
    looks up (text, value, the classes [hidden], [show] and [error], the
    children of the grid) and the plain fields. *)
Record ProductSearch := {
  errorMessage_textContent : jsstring;
  errorMessage_show : bool;
  searchInput_value : jsstring;
  searchInput_error : bool;
  searchInput_focused : bool;
  loadingSpinner_hidden : bool;
  resultsHeader_hidden : bool;
  resultsTitle_textContent : jsstring;
  resultsCount_textContent : jsstring;
  productGrid : list Card;
  noResults_hidden : bool;
  errorContainer_hidden : bool;
  errorText_textContent : jsstring;
  sortSelect_value : jsstring;
  apiBaseUrl : jsstring;
  currentSearchTerm : jsstring;
  currentProducts : loc;
  usdToInrRate : number
}.

Definition set_errorMessage_textContent (v : jsstring) (this : ProductSearch) : ProductSearch :=
  {|
     errorMessage_textContent := v;
     errorMessage_show := errorMessage_show this;
     searchInput_value := searchInput_value this;
     searchInput_error := searchInput_error this;
     searchInput_focused := searchInput_focused this;
     loadingSpinner_hidden := loadingSpinner_hidden this;
     resultsHeader_hidden := resultsHeader_hidden this;
     resultsTitle_textContent := resultsTitle_textContent this;
     resultsCount_textContent := resultsCount_textContent this;
     productGrid := productGrid this;
     noResults_hidden := noResults_hidden this;
     errorContainer_hidden := errorContainer_hidden this;
     errorText_textContent := errorText_textContent this;
     sortSelect_value := sortSelect_value this;
     apiBaseUrl := apiBaseUrl this;
     currentSearchTerm := currentSearchTerm this;
     currentProducts := currentProducts this;
     usdToInrRate := usdToInrRate this
  |}.

Definition set_errorMessage_show (v : bool) (this : ProductSearch) : ProductSearch :=
  {|
     errorMessage_textContent := errorMessage_textContent this;
     errorMessage_show := v;
     searchInput_value := searchInput_value this;
     searchInput_error := searchInput_error this;
     searchInput_focused := searchInput_focused this;
     loadingSpinner_hidden := loadingSpinner_hidden this;
     resultsHeader_hidden := resultsHeader_hidden this;
     resultsTitle_textContent := resultsTitle_textContent this;
     resultsCount_textContent := resultsCount_textContent this;
     productGrid := productGrid this;
     noResults_hidden := noResults_hidden this;
     errorContainer_hidden := errorContainer_hidden this;
     errorText_textContent := errorText_textContent this;
     sortSelect_value := sortSelect_value this;
     apiBaseUrl := apiBaseUrl this;
     currentSearchTerm := currentSearchTerm this;
     currentProducts := currentProducts this;
     usdToInrRate := usdToInrRate this
  |}.

Definition set_searchInput_value (v : jsstring) (this : ProductSearch) : ProductSearch :=
  {|
     errorMessage_textContent := errorMessage_textContent this;
     errorMessage_show := errorMessage_show this;
     searchInput_value := v;
     searchInput_error := searchInput_error this;
     searchInput_focused := searchInput_focused this;
     loadingSpinner_hidden := loadingSpinner_hidden this;
     resultsHeader_hidden := resultsHeader_hidden this;
     resultsTitle_textContent := resultsTitle_textContent this;
     resultsCount_textContent := resultsCount_textContent this;
     productGrid := productGrid this;
     noResults_hidden := noResults_hidden this;
     errorContainer_hidden := errorContainer_hidden this;
     errorText_textContent := errorText_textContent this;
     sortSelect_value := sortSelect_value this;
     apiBaseUrl := apiBaseUrl this;
     currentSearchTerm := currentSearchTerm this;
     currentProducts := currentProducts this;
     usdToInrRate := usdToInrRate this
  |}.

Definition set_searchInput_error (v : bool) (this : ProductSearch) : ProductSearch :=
  {|
     errorMessage_textContent := errorMessage_textContent this;
     errorMessage_show := errorMessage_show this;
     searchInput_value := searchInput_value this;
     searchInput_error := v;
     searchInput_focused := searchInput_focused this;
     loadingSpinner_hidden := loadingSpinner_hidden this;
     resultsHeader_hidden := resultsHeader_hidden this;
     resultsTitle_textContent := resultsTitle_textContent this;
     resultsCount_textContent := resultsCount_textContent this;
     productGrid := productGrid this;
     noResults_hidden := noResults_hidden this;
     errorContainer_hidden := errorContainer_hidden this;
     errorText_textContent := errorText_textContent this;
     sortSelect_value := sortSelect_value this;
     apiBaseUrl := apiBaseUrl this;
     currentSearchTerm := currentSearchTerm this;
     currentProducts := currentProducts this;
     usdToInrRate := usdToInrRate this
  |}.

Definition set_searchInput_focused (v : bool) (this : ProductSearch) : ProductSearch :=
  {|
     errorMessage_textContent := errorMessage_textContent this;
     errorMessage_show := errorMessage_show this;
     searchInput_value := searchInput_value this;
     searchInput_error := searchInput_error this;
     searchInput_focused := v;
     loadingSpinner_hidden := loadingSpinner_hidden this;
     resultsHeader_hidden := resultsHeader_hidden this;
     resultsTitle_textContent := resultsTitle_textContent this;
     resultsCount_textContent := resultsCount_textContent this;
     productGrid := productGrid this;
     noResults_hidden := noResults_hidden this;
     errorContainer_hidden := errorContainer_hidden this;
     errorText_textContent := errorText_textContent this;
     sortSelect_value := sortSelect_value this;
     apiBaseUrl := apiBaseUrl this;
     currentSearchTerm := currentSearchTerm this;
     currentProducts := currentProducts this;
     usdToInrRate := usdToInrRate this
  |}.

Definition set_loadingSpinner_hidden (v : bool) (this : ProductSearch) : ProductSearch :=
  {|
     errorMessage_textContent := errorMessage_textContent this;
     errorMessage_show := errorMessage_show this;
     searchInput_value := searchInput_value this;
     searchInput_error := searchInput_error this;
     searchInput_focused := searchInput_focused this;
     loadingSpinner_hidden := v;
     resultsHeader_hidden := resultsHeader_hidden this;
     resultsTitle_textContent := resultsTitle_textContent this;
     resultsCount_textContent := resultsCount_textContent this;
     productGrid := productGrid this;
     noResults_hidden := noResults_hidden this;
     errorContainer_hidden := errorContainer_hidden this;
     errorText_textContent := errorText_textContent this;
     sortSelect_value := sortSelect_value this;
     apiBaseUrl := apiBaseUrl this;
     currentSearchTerm := currentSearchTerm this;
     currentProducts := currentProducts this;
     usdToInrRate := usdToInrRate this
  |}.

Definition set_resultsHeader_hidden (v : bool) (this : ProductSearch) : ProductSearch :=
  {|
     errorMessage_textContent := errorMessage_textContent this;
     errorMessage_show := errorMessage_show this;
     searchInput_value := searchInput_value this;
     searchInput_error := searchInput_error this;
     searchInput_focused := searchInput_focused this;
     loadingSpinner_hidden := loadingSpinner_hidden this;
     resultsHeader_hidden := v;
     resultsTitle_textContent := resultsTitle_textContent this;
     resultsCount_textContent := resultsCount_textContent this;
     productGrid := productGrid this;
     noResults_hidden := noResults_hidden this;
     errorContainer_hidden := errorContainer_hidden this;
     errorText_textContent := errorText_textContent this;
     sortSelect_value := sortSelect_value this;
     apiBaseUrl := apiBaseUrl this;
     currentSearchTerm := currentSearchTerm this;
     currentProducts := currentProducts this;
     usdToInrRate := usdToInrRate this
  |}.

Definition set_resultsTitle_textContent (v : jsstring) (this : ProductSearch) : ProductSearch :=
  {|
     errorMessage_textContent := errorMessage_textContent this;
     errorMessage_show := errorMessage_show this;
     searchInput_value := searchInput_value this;
     searchInput_error := searchInput_error this;
     searchInput_focused := searchInput_focused this;
     loadingSpinner_hidden := loadingSpinner_hidden this;
     resultsHeader_hidden := resultsHeader_hidden this;
     resultsTitle_textContent := v;
     resultsCount_textContent := resultsCount_textContent this;
     productGrid := productGrid this;
     noResults_hidden := noResults_hidden this;
     errorContainer_hidden := errorContainer_hidden this;
     errorText_textContent := errorText_textContent this;
     sortSelect_value := sortSelect_value this;
     apiBaseUrl := apiBaseUrl this;
     currentSearchTerm := currentSearchTerm this;
     currentProducts := currentProducts this;
     usdToInrRate := usdToInrRate this
  |}.

Definition set_resultsCount_textContent (v : jsstring) (this : ProductSearch) : ProductSearch :=
  {|
     errorMessage_textContent := errorMessage_textContent this;
     errorMessage_show := errorMessage_show this;
     searchInput_value := searchInput_value this;
     searchInput_error := searchInput_error this;
     searchInput_focused := searchInput_focused this;
     loadingSpinner_hidden := loadingSpinner_hidden this;
     resultsHeader_hidden := resultsHeader_hidden this;
     resultsTitle_textContent := resultsTitle_textContent this;
     resultsCount_textContent := v;
     productGrid := productGrid this;
     noResults_hidden := noResults_hidden this;
     errorContainer_hidden := errorContainer_hidden this;
     errorText_textContent := errorText_textContent this;
     sortSelect_value := sortSelect_value this;
     apiBaseUrl := apiBaseUrl this;
     currentSearchTerm := currentSearchTerm this;
     currentProducts := currentProducts this;
     usdToInrRate := usdToInrRate this
  |}.

Definition set_productGrid (v : list Card) (this : ProductSearch) : ProductSearch :=
  {|
     errorMessage_textContent := errorMessage_textContent this;
     errorMessage_show := errorMessage_show this;
     searchInput_value := searchInput_value this;
     searchInput_error := searchInput_error this;
     searchInput_focused := searchInput_focused this;
     loadingSpinner_hidden := loadingSpinner_hidden this;
     resultsHeader_hidden := resultsHeader_hidden this;
     resultsTitle_textContent := resultsTitle_textContent this;
     resultsCount_textContent := resultsCount_textContent this;
     productGrid := v;
     noResults_hidden := noResults_hidden this;
     errorContainer_hidden := errorContainer_hidden this;
     errorText_textContent := errorText_textContent this;
     sortSelect_value := sortSelect_value this;
     apiBaseUrl := apiBaseUrl this;
     currentSearchTerm := currentSearchTerm this;
     currentProducts := currentProducts this;
     usdToInrRate := usdToInrRate this
  |}.

Definition set_noResults_hidden (v : bool) (this : ProductSearch) : ProductSearch :=
  {|
     errorMessage_textContent := errorMessage_textContent this;
     errorMessage_show := errorMessage_show this;
     searchInput_value := searchInput_value this;
     searchInput_error := searchInput_error this;
     searchInput_focused := searchInput_focused this;
     loadingSpinner_hidden := loadingSpinner_hidden this;
     resultsHeader_hidden := resultsHeader_hidden this;
     resultsTitle_textContent := resultsTitle_textContent this;
     resultsCount_textContent := resultsCount_textContent this;
     productGrid := productGrid this;
     noResults_hidden := v;
     errorContainer_hidden := errorContainer_hidden this;
     errorText_textContent := errorText_textContent this;
     sortSelect_value := sortSelect_value this;
     apiBaseUrl := apiBaseUrl this;
     currentSearchTerm := currentSearchTerm this;
     currentProducts := currentProducts this;
     usdToInrRate := usdToInrRate this
  |}.

Definition set_errorContainer_hidden (v : bool) (this : ProductSearch) : ProductSearch :=
  {|
     errorMessage_textContent := errorMessage_textContent this;
     errorMessage_show := errorMessage_show this;
     searchInput_value := searchInput_value this;
     searchInput_error := searchInput_error this;
     searchInput_focused := searchInput_focused this;
     loadingSpinner_hidden := loadingSpinner_hidden this;
     resultsHeader_hidden := resultsHeader_hidden this;
     resultsTitle_textContent := resultsTitle_textContent this;
     resultsCount_textContent := resultsCount_textContent this;
     productGrid := productGrid this;
     noResults_hidden := noResults_hidden this;
     errorContainer_hidden := v;
     errorText_textContent := errorText_textContent this;
     sortSelect_value := sortSelect_value this;
     apiBaseUrl := apiBaseUrl this;
     currentSearchTerm := currentSearchTerm this;
     currentProducts := currentProducts this;
     usdToInrRate := usdToInrRate this
  |}.

Definition set_errorText_textContent (v : jsstring) (this : ProductSearch) : ProductSearch :=
  {|
     errorMessage_textContent := errorMessage_textContent this;
     errorMessage_show := errorMessage_show this;
     searchInput_value := searchInput_value this;
     searchInput_error := searchInput_error this;
     searchInput_focused := searchInput_focused this;
     loadingSpinner_hidden := loadingSpinner_hidden this;
     resultsHeader_hidden := resultsHeader_hidden this;
     resultsTitle_textContent := resultsTitle_textContent this;
     resultsCount_textContent := resultsCount_textContent this;
     productGrid := productGrid this;
     noResults_hidden := noResults_hidden this;
     errorContainer_hidden := errorContainer_hidden this;
     errorText_textContent := v;
     sortSelect_value := sortSelect_value this;
     apiBaseUrl := apiBaseUrl this;
     currentSearchTerm := currentSearchTerm this;
     currentProducts := currentProducts this;
     usdToInrRate := usdToInrRate this
  |}.

Definition set_sortSelect_value (v : jsstring) (this : ProductSearch) : ProductSearch :=
  {|
     errorMessage_textContent := errorMessage_textContent this;
     errorMessage_show := errorMessage_show this;
     searchInput_value := searchInput_value this;
     searchInput_error := searchInput_error this;
     searchInput_focused := searchInput_focused this;
     loadingSpinner_hidden := loadingSpinner_hidden this;
     resultsHeader_hidden := resultsHeader_hidden this;
     resultsTitle_textContent := resultsTitle_textContent this;
     resultsCount_textContent := resultsCount_textContent this;
     productGrid := productGrid this;
     noResults_hidden := noResults_hidden this;
     errorContainer_hidden := errorContainer_hidden this;
     errorText_textContent := errorText_textContent this;
     sortSelect_value := v;
     apiBaseUrl := apiBaseUrl this;
     currentSearchTerm := currentSearchTerm this;
     currentProducts := currentProducts this;
     usdToInrRate := usdToInrRate this
  |}.

Definition set_apiBaseUrl (v : jsstring) (this : ProductSearch) : ProductSearch :=
  {|
     errorMessage_textContent := errorMessage_textContent this;
     errorMessage_show := errorMessage_show this;
     searchInput_value := searchInput_value this;
     searchInput_error := searchInput_error this;
     searchInput_focused := searchInput_focused this;
     loadingSpinner_hidden := loadingSpinner_hidden this;
     resultsHeader_hidden := resultsHeader_hidden this;
     resultsTitle_textContent := resultsTitle_textContent this;
     resultsCount_textContent := resultsCount_textContent this;
     productGrid := productGrid this;
     noResults_hidden := noResults_hidden this;
     errorContainer_hidden := errorContainer_hidden this;
     errorText_textContent := errorText_textContent this;
     sortSelect_value := sortSelect_value this;
     apiBaseUrl := v;
     currentSearchTerm := currentSearchTerm this;
     currentProducts := currentProducts this;
     usdToInrRate := usdToInrRate this
  |}.

Definition set_currentSearchTerm (v : jsstring) (this : ProductSearch) : ProductSearch :=
  {|
     errorMessage_textContent := errorMessage_textContent this;
     errorMessage_show := errorMessage_show this;
     searchInput_value := searchInput_value this;
     searchInput_error := searchInput_error this;
     searchInput_focused := searchInput_focused this;
     loadingSpinner_hidden := loadingSpinner_hidden this;
     resultsHeader_hidden := resultsHeader_hidden this;
     resultsTitle_textContent := resultsTitle_textContent this;
     resultsCount_textContent := resultsCount_textContent this;
     productGrid := productGrid this;
     noResults_hidden := noResults_hidden this;
     errorContainer_hidden := errorContainer_hidden this;
     errorText_textContent := errorText_textContent this;
     sortSelect_value := sortSelect_value this;
     apiBaseUrl := apiBaseUrl this;
     currentSearchTerm := v;
     currentProducts := currentProducts this;
     usdToInrRate := usdToInrRate this
  |}.

Definition set_currentProducts (v : loc) (this : ProductSearch) : ProductSearch :=
  {|
     errorMessage_textContent := errorMessage_textContent this;
     errorMessage_show := errorMessage_show this;
     searchInput_value := searchInput_value this;
     searchInput_error := searchInput_error this;
     searchInput_focused := searchInput_focused this;
     loadingSpinner_hidden := loadingSpinner_hidden this;
     resultsHeader_hidden := resultsHeader_hidden this;
     resultsTitle_textContent := resultsTitle_textContent this;
     resultsCount_textContent := resultsCount_textContent this;
     productGrid := productGrid this;
     noResults_hidden := noResults_hidden this;
     errorContainer_hidden := errorContainer_hidden this;
     errorText_textContent := errorText_textContent this;
     sortSelect_value := sortSelect_value this;
     apiBaseUrl := apiBaseUrl this;
     currentSearchTerm := currentSearchTerm this;
     currentProducts := v;
     usdToInrRate := usdToInrRate this
  |}.

Definition set_usdToInrRate (v : number) (this : ProductSearch) : ProductSearch :=
  {|
     errorMessage_textContent := errorMessage_textContent this;
     errorMessage_show := errorMessage_show this;
     searchInput_value := searchInput_value this;
     searchInput_error := searchInput_error this;
     searchInput_focused := searchInput_focused this;
     loadingSpinner_hidden := loadingSpinner_hidden this;
     resultsHeader_hidden := resultsHeader_hidden this;
     resultsTitle_textContent := resultsTitle_textContent this;
     resultsCount_textContent := resultsCount_textContent this;
     productGrid := productGrid this;
     noResults_hidden := noResults_hidden this;
     errorContainer_hidden := errorContainer_hidden this;
     errorText_textContent := errorText_textContent this;
     sortSelect_value := sortSelect_value this;
     apiBaseUrl := apiBaseUrl this;
     currentSearchTerm := currentSearchTerm this;
     currentProducts := currentProducts this;
     usdToInrRate := v
  |}.

Definition world := (heap * ProductSearch)%type.

Inductive completion :=
| Normal
| Throw (e : exn).

(** The fields the constructor assigns; the elements are those of the
    page. *)
Definition constructor (page : world) : world :=
  let '(h, this) := page in
  let '(h1, a) := array_alloc h [] in
  (h1,
   set_usdToInrRate
     num_83_5
     (set_currentProducts a
        (set_currentSearchTerm []
           (set_apiBaseUrl (lit "https://dummyjson.com/products/search") this)))).

Definition showError (message : jsstring) (this : ProductSearch) : ProductSearch :=
  set_searchInput_focused true
    (set_searchInput_error true
       (set_errorMessage_show true
          (set_errorMessage_textContent message this))).

Definition validateSearchInput (this : ProductSearch) (searchTerm : jsstring)
  : ProductSearch * bool :=
  let trimmedTerm := trim searchTerm in
  if negb (truthy trimmedTerm) then
    (showError (lit "Please enter a product name to search") this, false)
  else if (Z.of_nat (length trimmedTerm) <? 2) then
    (showError (lit "Search term must be at least 2 characters long") this, false)
  else (this, true).

Definition clearError (this : ProductSearch) : ProductSearch :=
  set_searchInput_error false (set_errorMessage_show false this).

Definition hideAllSections (this : ProductSearch) : ProductSearch :=
  set_sortSelect_value (lit "relevance")
    (set_errorContainer_hidden true
       (set_noResults_hidden true
          (set_productGrid []
             (set_resultsHeader_hidden true
                (set_loadingSpinner_hidden true this))))).

Definition showLoading (this : ProductSearch) : ProductSearch :=
  set_loadingSpinner_hidden false (hideAllSections this).

Definition hideLoading (this : ProductSearch) : ProductSearch :=
  set_loadingSpinner_hidden true this.

Definition showNoResults (this : ProductSearch) : ProductSearch :=
  set_noResults_hidden false (hideLoading this).

Definition showErrorState (errorMessage : jsstring) (this : ProductSearch)
  : ProductSearch :=
  set_errorContainer_hidden false
    (set_errorText_textContent errorMessage (hideLoading this)).

Definition convertToRupees (this : ProductSearch) (usdPrice : number) : number :=
  num_mul usdPrice (usdToInrRate this).

Section WithHost.
Context `{Host}.

Definition formatRupeePrice (this : ProductSearch) (usdPrice : number)
  : jsstring :=
  let rupeePrice := convertToRupees this usdPrice in
  Intl_formatINR rupeePrice.

Definition escapeHtml (text : jsstring) : jsstring := serializeText text.

Definition STAR : N := 9733.
Definition WHITE_STAR : N := 9734.

(** ['s'.repeat(count)] for a numeric [count]. *)
Definition repeatString (s : jsstring) (count : number) : jsstring + exn :=
  match String_repeat s (toInteger count) with
  | Some r => inl r
  | None => inr (RangeError_message count)
  end.

Definition generateStars (rating : number) : jsstring + exn :=
  let fullStars := Math_floor rating in
  let hasHalfStar := num_ge (num_rem rating num_one) num_half in
  let emptyStars :=
    num_sub (num_sub num_five fullStars)
      (if hasHalfStar then num_one else num_zero) in
  match repeatString [STAR] fullStars with
  | inr e => inr e
  | inl full =>
      match repeatString [WHITE_STAR] emptyStars with
      | inr e => inr e
      | inl empty =>
          inl (full ++ (if hasHalfStar then [WHITE_STAR] else []) ++ empty)
      end
  end.

(** [product.rating || 0] *)
Definition ratingOrZero (rating : option number) : number :=
  match rating with
  | Some r => if num_truthy r then r else num_zero
  | None => num_zero
  end.

Definition truthyString (s : option jsstring) : bool :=
  match s with
  | Some t => truthy t
  | None => false
  end.

(** [product.thumbnail || product.images?.[0] || '...No+Image'] *)
Definition cardImage (product : Product) : jsstring :=
  if truthyString (p_thumbnail product) then default [] (p_thumbnail product)
  else
    let first :=
      match p_images product with
      | Some l => head l
      | None => None
      end in
    if truthyString first then default [] first
    else lit "https://via.placeholder.com/280x200?text=No+Image".

(** [product.description || 'No description available'] *)
Definition cardDescription (product : Product) : jsstring :=
  if truthyString (p_description product) then default [] (p_description product)
  else lit "No description available".

(** A line break of the template literal and the indentation after it. *)
Definition nl (indent : nat) : jsstring := 10%N :: replicate indent 32%N.

Definition cardMarkup (this : ProductSearch) (product : Product)
  (rating : number) (stars : jsstring) : jsstring :=
  nl 12 ++ lit "<img" ++ nl 16 ++ lit "src=" ++ dquote ++ cardImage product
  ++ dquote ++ nl 16 ++ lit "alt=" ++ dquote ++ p_title product ++ dquote
  ++ nl 16 ++ lit "class=" ++ dquote ++ lit "product-image" ++ dquote
  ++ nl 16 ++ lit "onerror=" ++ dquote
  ++ lit "this.src='https://via.placeholder.com/280x200?text=No+Image'"
  ++ dquote ++ nl 12 ++ lit ">" ++ nl 12 ++ lit "<div class=" ++ dquote
  ++ lit "product-info" ++ dquote ++ lit ">" ++ nl 16 ++ lit "<h3 class="
  ++ dquote ++ lit "product-title" ++ dquote ++ lit ">"
  ++ escapeHtml (p_title product) ++ lit "</h3>" ++ nl 16
  ++ lit "<div class=" ++ dquote ++ lit "product-rating" ++ dquote ++ lit ">"
  ++ nl 20 ++ lit "<span class=" ++ dquote ++ lit "stars" ++ dquote
  ++ lit ">" ++ stars ++ lit "</span>" ++ nl 20 ++ lit "<span class="
  ++ dquote ++ lit "rating-text" ++ dquote ++ lit ">("
  ++ Number_toFixed rating 1 ++ lit ")</span>" ++ nl 16 ++ lit "</div>"
  ++ nl 16 ++ lit "<p class=" ++ dquote ++ lit "product-description"
  ++ dquote ++ lit ">" ++ escapeHtml (cardDescription product) ++ lit "</p>"
  ++ nl 16 ++ lit "<div class=" ++ dquote ++ lit "product-price" ++ dquote
  ++ lit ">" ++ formatRupeePrice this (p_price product) ++ lit "</div>"
  ++ nl 12 ++ lit "</div>" ++ nl 8.

Definition createProductCard (this : ProductSearch) (product : Product)
  : Card + exn :=
  let rating := ratingOrZero (p_rating product) in
  match generateStars rating with
  | inr e => inr e
  | inl stars =>
      inl {| card_className := lit "product-card";
             card_cursor := lit "pointer";
             card_innerHTML := cardMarkup this product rating stars;
             card_click := product |}
  end.

(** [products.forEach]: a card per product, appended to the grid, until a
    card throws. *)
Fixpoint appendCards (this : ProductSearch) (products : list Product)
  : ProductSearch * completion :=
  match products with
  | [] => (this, Normal)
  | product :: rest =>
      match createProductCard this product with
      | inr e => (this, Throw e)
      | inl productCard =>
          appendCards (set_productGrid (productGrid this ++ [productCard]) this)
            rest
      end
  end.

Definition renderProducts (w : world) (products : loc) : world * completion :=
  let '(h, this) := w in
  let '(this', c) := appendCards (set_productGrid [] this) (array_get h products) in
  ((h, this'), c).

Definition showResults (w : world) (products : loc) (searchTerm : jsstring)
  (total : number) : world * completion :=
  let '(h, this) := w in
  let this1 := set_resultsHeader_hidden false this in
  let this2 :=
    set_resultsTitle_textContent
      (lit "Search Results for " ++ dquote ++ searchTerm ++ dquote) this1 in
  let this3 :=
    set_resultsCount_textContent
      (lit "Found " ++ Number_toString total ++ lit " product"
         ++ (if negb (SFeqb total num_one) then lit "s" else [])) this2 in
  renderProducts (h, this3) products.

(** The parsed body of a response: [products] is an array of the heap, or
    absent. *)
Record SearchData := {
  data_products : option loc;
  data_total : number
}.

Definition displayResults (w : world) (data : SearchData) (searchTerm : jsstring)
  : world * completion :=
  let '(h, this) := w in
  let this1 := hideLoading this in
  match data_products data with
  | None => ((h, showNoResults this1), Normal)
  | Some products =>
      if (length (array_get h products) =? 0)%nat then
        ((h, showNoResults this1), Normal)
      else
        let this2 := set_currentProducts products this1 in
        showResults (h, this2) (currentProducts this2) searchTerm (data_total data)
  end.

Definition sortProducts (this : ProductSearch) (h : heap) (products : loc)
  (sortType : jsstring) : heap * loc :=
  if bool_decide (sortType = lit "price-low") then
    Array_sort (fun a b => num_sub (convertToRupees this (p_price a))
                             (convertToRupees this (p_price b))) h products
  else if bool_decide (sortType = lit "price-high") then
    Array_sort (fun a b => num_sub (convertToRupees this (p_price b))
                             (convertToRupees this (p_price a))) h products
  else if bool_decide (sortType = lit "rating") then
    Array_sort (fun a b => num_sub (ratingOrZero (p_rating b))
                             (ratingOrZero (p_rating a))) h products
  else (h, products).

Definition handleSortChange (w : world) : world * completion :=
  let '(h, this) := w in
  if (length (array_get h (currentProducts this)) =? 0)%nat then (w, Normal)
  else
    let sortValue := sortSelect_value this in
    let '(h1, copy) := array_spread h (currentProducts this) in
    let '(h2, sortedProducts) := sortProducts this h1 copy sortValue in
    renderProducts (h2, this) sortedProducts.

(** *** The network *)

(** What [response.json()] resolves to: a syntax error, or the body with the
    fields the controller reads. *)
Record Body := {
  body_products : option (list Product);
  body_total : number
}.

Inductive BodyOutcome :=
| Malformed (message : exn)
| Json (body : Body).

(** What [fetch] settles to: a rejection, or a response. *)
Inductive FetchOutcome :=
| NetworkFailure (message : exn)
| Response (status : N) (statusText : jsstring) (body : BodyOutcome).

(** [response.ok]: the status is in the range 200-299. *)
Definition response_ok (status : N) : bool :=
  ((200 <=? status) && (status <=? 299))%N.

(** The URL [searchProducts] fetches; [None] when [encodeURIComponent]
    throws. *)
Definition searchProducts_url (this : ProductSearch) (searchTerm : jsstring)
  : option jsstring :=
  match encodeURIComponent searchTerm with
  | Some q => Some (apiBaseUrl this ++ lit "?q=" ++ q ++ lit "&limit=50")
  | None => None
  end.

(** The parsed body becomes objects of the heap. *)
Definition allocBody (h : heap) (body : Body) : heap * SearchData :=
  match body_products body with
  | Some l =>
      let '(h1, a) := array_alloc h l in
      (h1, {| data_products := Some a; data_total := body_total body |})
  | None => (h, {| data_products := None; data_total := body_total body |})
  end.

(** [searchProducts]: the value its promise resolves to, or the error it is
    rejected with, for a given behaviour of the network. *)
Definition searchProducts (this : ProductSearch) (h : heap)
  (net : jsstring -> FetchOutcome) (searchTerm : jsstring)
  : heap * (SearchData + exn) :=
  match searchProducts_url this searchTerm with
  | None => (h, inr URIError_message)
  | Some url =>
      match net url with
      | NetworkFailure message => (h, inr message)
      | Response status statusText body =>
          if negb (response_ok status) then
            (h, inr (lit "Failed to fetch products: " ++ decimal status
                       ++ lit " " ++ statusText))
          else
            match body with
            | Malformed message => (h, inr message)
            | Json b => let '(h1, data) := allocBody h b in (h1, inl data)
            end
      end
  end.

(** [handleSearch] up to its [await]: validation, then the loading view.
    The search term is returned when a request goes out. *)
Definition handleSearch_submit (this : ProductSearch)
  : ProductSearch * option jsstring :=
  let searchTerm := trim (searchInput_value this) in
  let '(this1, valid) := validateSearchInput this searchTerm in
  if negb valid then (this1, None)
  else
    let this2 := set_currentSearchTerm searchTerm this1 in
    (showLoading (clearError this2), Some searchTerm).

(** [handleSearch] after the [await]: the results, or the [catch]. *)
Definition handleSearch_settle (w : world) (searchTerm : jsstring)
  (result : SearchData + exn) : world :=
  match result with
  | inl products =>
      match displayResults w products searchTerm with
      | (w1, Normal) => w1
      | ((h1, this1), Throw error) => (h1, showErrorState error this1)
      end
  | inr error => let '(h, this) := w in (h, showErrorState error this)
  end.

(** One submission with no other event before its response. *)
Definition handleSearch (w : world) (net : jsstring -> FetchOutcome) : world :=
  let '(h, this) := w in
  match handleSearch_submit this with
  | (this1, None) => (h, this1)
  | (this1, Some searchTerm) =>
      let '(h1, result) := searchProducts this1 h net searchTerm in
      handleSearch_settle (h1, this1) searchTerm result
  end.

(** The user picks an entry of the sort control: its value changes and the
    [change] listener runs. *)
Definition sortChange (sortValue : jsstring) (w : world) : world * completion :=
  let '(h, this) := w in
  handleSortChange (h, set_sortSelect_value sortValue this).

End WithHost.

(** ** The first revision, [script.js]

    The same class without sorting: only what differs is repeated. *)

Module ScriptJs.
Section WithHost.
Context `{Host}.

Definition searchProducts_url (this : ProductSearch) (searchTerm : jsstring)
  : option jsstring :=
  match encodeURIComponent searchTerm with
  | Some q => Some (apiBaseUrl this ++ lit "?q=" ++ q)
  | None => None
  end.

Definition cardMarkup (product : Product) (rating : number) (stars : jsstring)
  : jsstring :=
  nl 12 ++ lit "<img " ++ nl 16 ++ lit "src=" ++ dquote ++ cardImage product
  ++ dquote ++ lit " " ++ nl 16 ++ lit "alt=" ++ dquote ++ p_title product
  ++ dquote ++ nl 16 ++ lit "class=" ++ dquote ++ lit "product-image"
  ++ dquote ++ nl 16 ++ lit "onerror=" ++ dquote
  ++ lit "this.src='https://via.placeholder.com/280x200?text=No+Image'"
  ++ dquote ++ nl 12 ++ lit ">" ++ nl 12 ++ lit "<div class=" ++ dquote
  ++ lit "product-info" ++ dquote ++ lit ">" ++ nl 16 ++ lit "<h3 class="
  ++ dquote ++ lit "product-title" ++ dquote ++ lit ">"
  ++ escapeHtml (p_title product) ++ lit "</h3>" ++ nl 16
  ++ lit "<div class=" ++ dquote ++ lit "product-rating" ++ dquote ++ lit ">"
  ++ nl 20 ++ lit "<span class=" ++ dquote ++ lit "stars" ++ dquote
  ++ lit ">" ++ stars ++ lit "</span>" ++ nl 20 ++ lit "<span class="
  ++ dquote ++ lit "rating-text" ++ dquote ++ lit ">("
  ++ Number_toFixed rating 1 ++ lit ")</span>" ++ nl 16 ++ lit "</div>"
  ++ nl 16 ++ lit "<p class=" ++ dquote ++ lit "product-description"
  ++ dquote ++ lit ">" ++ escapeHtml (cardDescription product) ++ lit "</p>"
  ++ nl 16 ++ lit "<div class=" ++ dquote ++ lit "product-price" ++ dquote
  ++ lit ">$" ++ Number_toFixed (p_price product) 2 ++ lit "</div>" ++ nl 12
  ++ lit "</div>" ++ nl 8.

Definition createProductCard (product : Product) : jsstring + exn :=
  let rating := ratingOrZero (p_rating product) in
  match generateStars rating with
  | inr e => inr e
  | inl stars => inl (cardMarkup product rating stars)
  end.

End WithHost.
End ScriptJs.

(** ** Notions of the specification *)

(** The two validation failures, told apart by the message shown. *)
Inductive ErrorKind :=
| EmptyQuery
| TooShort.

Definition errorText (k : ErrorKind) : jsstring :=
  match k with
  | EmptyQuery => lit "Please enter a product name to search"
  | TooShort => lit "Search term must be at least 2 characters long"
  end.

(** The view the page shows, read off the [hidden] classes: exactly one of
    the spinner, the results header, the no-results notice and the error
    container is visible, or none is. *)
Inductive View :=
| Idle
| Loading
| Results
| NoResults
| ErrorState.

Definition view (this : ProductSearch) : option View :=
  match loadingSpinner_hidden this, resultsHeader_hidden this,
        noResults_hidden this, errorContainer_hidden this with
  | true, true, true, true => Some Idle
  | false, true, true, true => Some Loading
  | true, false, true, true => Some Results
  | true, true, false, true => Some NoResults
  | true, true, true, false => Some ErrorState
  | _, _, _, _ => None
  end.

(** The sort orders of the sort control. *)
Inductive SortOrder :=
| Relevance
| PriceAscending
| PriceDescending
| RatingDescending.

Definition sortValue (o : SortOrder) : jsstring :=
  match o with
  | Relevance => lit "relevance"
  | PriceAscending => lit "price-low"
  | PriceDescending => lit "price-high"
  | RatingDescending => lit "rating"
  end.

(** The three sorting orders pick a comparator; any other value leaves the
    array alone. *)
Definition comparatorOf (this : ProductSearch) (sortType : jsstring)
  : option (Product -> Product -> number) :=
  if bool_decide (sortType = lit "price-low") then
    Some (fun a b => num_sub (convertToRupees this (p_price a))
                       (convertToRupees this (p_price b)))
  else if bool_decide (sortType = lit "price-high") then
    Some (fun a b => num_sub (convertToRupees this (p_price b))
                       (convertToRupees this (p_price a)))
  else if bool_decide (sortType = lit "rating") then
    Some (fun a b => num_sub (ratingOrZero (p_rating b))
                       (ratingOrZero (p_rating a)))
  else None.

(** A rating of the data model: a binary64 value between 0 and 5. *)
Definition ratingInRange (r : number) : Prop :=
  valid_binary prec emax r = true /\ num_ge r num_zero = true
  /\ num_ge num_five r = true.

Definition wellFormedProduct (p : Product) : Prop :=
  match p_rating p with
  | Some r => ratingInRange r
  | None => True
  end.

(** The integer part and the half of a non-negative finite number, on its
    exact value [m * 2^e]. *)
Definition floorOf (r : number) : Z :=
  match r with
  | S754_finite false m e =>
      if 0 <=? e then Zpos m * 2 ^ e else Zpos m / 2 ^ (- e)
  | _ => 0
  end.

(** Whether the fractional part of [m * 2^e] is at least one half. *)
Definition fractionAtLeastHalf (r : number) : bool :=
  match r with
  | S754_finite false m e =>
      if 0 <=? e then false
      else 2 ^ (- e) <=? 2 * (Zpos m mod 2 ^ (- e))
  | _ => false
  end.

(** A string that does not start with white space. *)
Definition noLeadingSpace (s : jsstring) : Prop :=
  match s with
  | [] => True
  | c :: _ => isWhiteSpace c = false
  end.

(** ** Sample data *)

(** A host for the examples: the conversions print fixed texts. *)
Definition sampleHost : Host :=
  {| Number_toFixed := fun _ _ => lit "0.0";
     Number_toString := fun _ => lit "0";
     Intl_formatINR := fun _ => lit "INR 0";
     URIError_message := lit "URI malformed";
     RangeError_message := fun _ => lit "Invalid count value" |}.

(** A page as it is loaded: nothing shown, nothing typed. *)
Definition blankPage : ProductSearch :=
  {| errorMessage_textContent := [];
     errorMessage_show := false;
     searchInput_value := [];
     searchInput_error := false;
     searchInput_focused := false;
     loadingSpinner_hidden := true;
     resultsHeader_hidden := true;
     resultsTitle_textContent := [];
     resultsCount_textContent := [];
     productGrid := [];
     noResults_hidden := true;
     errorContainer_hidden := true;
     errorText_textContent := [];
     sortSelect_value := lit "relevance";
     apiBaseUrl := [];
     currentSearchTerm := [];
     currentProducts := 0%nat;
     usdToInrRate := num_zero |}.

Definition freshWorld : world := constructor (∅, blankPage).

(** The two products of the canned response. *)
Definition productA : Product :=
  {| p_id := 1; p_title := lit "A"; p_description := None;
     p_price := ofZ 10; p_rating := Some (num_div (ofZ 42) (ofZ 10));
     p_thumbnail := None; p_images := None |}.

Definition productB : Product :=
  {| p_id := 2; p_title := lit "B"; p_description := None;
     p_price := ofZ 5; p_rating := Some (num_div (ofZ 48) (ofZ 10));
     p_thumbnail := None; p_images := None |}.

Definition cannedBody : Body :=
  {| body_products := Some [productA; productB]; body_total := ofZ 2 |}.

(** A product whose title carries markup. *)
Definition markupTitle : jsstring :=
  dquote ++ lit "><script>alert(1)</script>".

Definition productWithMarkup : Product :=
  {| p_id := 3; p_title := markupTitle; p_description := None;
     p_price := ofZ 1; p_rating := None;
     p_thumbnail := None; p_images := None |}.

(** [3.5], that is 7/2 *)
Definition num_3_5 : number :=
  Eval vm_compute in binary_normalize prec emax 7 (-1) false.

(** ** Rendering and event sequences *)

(** The cards that show the products [products], in order. *)
Definition rendersAs `{Host} (this : ProductSearch) (products : list Product)
  (cards : list Card) : Prop :=
  Forall2 (fun p c => createProductCard this p = inl c) products cards.



(** What a network that always answers [200 OK] with the body [b] does. *)
Definition respondWith (b : Body) : jsstring -> FetchOutcome :=
  fun _ => Response 200 (lit "OK") (Json b).


(** The state [displayResults] leaves when it shows the array [a] as
    [cards]. *)
Definition resultsShown `{Host} (this : ProductSearch) (a : loc)
  (searchTerm : jsstring) (total : number) (cards : list Card) : ProductSearch :=
  set_productGrid cards
    (set_resultsCount_textContent
       (lit "Found " ++ Number_toString total ++ lit " product"
          ++ (if negb (SFeqb total num_one) then lit "s" else []))
       (set_resultsTitle_textContent
          (lit "Search Results for " ++ dquote ++ searchTerm ++ dquote)
          (set_resultsHeader_hidden false
             (set_currentProducts a (hideLoading this))))).

(** ** Sort keys *)

(** The numbers the sort comparators subtract: a zero, a positive finite
    number that fits binary64, or the positive infinity of an overflow. *)
Definition isSortKey (x : number) : Prop :=
  match x with
  | S754_zero _ => True
  | S754_infinity s => s = false
  | S754_finite s m e => s = false /\ -1074 <= e <= 971 /\ Zpos m <= 2 ^ 53
  | S754_nan => False
  end.

(** The exact value of a sort key in units of [2^-1074]; infinity is above
    every finite key. *)
Definition keyRank (x : number) : Z :=
  match x with
  | S754_finite _ m e => Zpos m * 2 ^ (e + 1074)
  | S754_infinity _ => 2 ^ 2200
  | S754_zero _ | S754_nan => 0
  end.

(** [output] is [input] sorted by ascending [rank], elements of equal rank
    in the order they have in [input]. *)
Definition stablySortedBy {A} (rank : A -> Z) (input output : list A) : Prop :=
  Permutation output input
  /\ StronglySorted (fun a b => rank a <= rank b) output
  /\ forall k, List.filter (fun a => rank a =? k) output
               = List.filter (fun a => rank a =? k) input.

Definition priceRank (this : ProductSearch) (p : Product) : Z :=
  keyRank (convertToRupees this (p_price p)).

Definition ratingRank (p : Product) : Z :=
  keyRank (ratingOrZero (p_rating p)).

(** ** The detail modal

    What the rest of the class does with a product: the modal a click on a
    card opens.  A product is seen here through the further fields the
    modal reads; its reviews are records of their own. *)

Record Review := {
  r_reviewerName : option jsstring;
  r_rating : option number;
  r_comment : option jsstring;
  r_date : option jsstring
}.

Record Dimensions := {
  dim_width : number;
  dim_height : number;
  dim_depth : number
}.

Record ProductDetails := {
  d_product : Product;
  d_brand : option jsstring;
  d_category : option jsstring;
  d_stock : option number;
  d_availabilityStatus : option jsstring;
  d_discountPercentage : option number;
  d_reviews : option (list Review);
  d_sku : option jsstring;
  d_weight : option number;
  d_dimensions : option Dimensions;
  d_warrantyInformation : option jsstring;
  d_shippingInformation : option jsstring;
  d_returnPolicy : option jsstring;
  d_minimumOrderQuantity : option number
}.

(** The lower-case form of an ASCII code unit. *)
Definition asciiLower (c : N) : N :=
  if inRange 65 90 c then (c + 32)%N else c.

Definition isAscii (s : jsstring) : Prop := Forall (fun c => (c < 128)%N) s.

(** What the modal needs of the engine: [String.prototype.toLowerCase],
    which on ASCII text changes the letters [A-Z] only, and the date
    [new Date(d).toLocaleDateString('en-IN', {year: 'numeric', month:
    'short', day: 'numeric'})]. *)
Class ModalHost := {
  String_toLowerCase : jsstring -> jsstring;
  Date_toLocaleDateString : option jsstring -> jsstring;
  String_toLowerCase_ascii :
    forall s, isAscii s -> String_toLowerCase s = List.map asciiLower s
}.

(** The elements under the modal: the heading texts, the rating and stock
    line, the images, the specification rows and the reviews. *)
Record ModalHeading := {
  modalProductTitle : jsstring;
  modalBrand : jsstring;
  modalCategory : jsstring;
  modalDescription : jsstring;
  modalPrice : jsstring
}.

Record ModalStatus := {
  modalRatingStars : jsstring;
  modalRating : jsstring;
  modalReviewCount : jsstring;
  modalStock : jsstring;
  modalAvailability_textContent : jsstring;
  modalAvailability_className : jsstring;
  modalDiscount_textContent : jsstring;
  modalDiscount_display : jsstring
}.

(** A thumbnail: its [src] and [alt], whether its class list holds
    [active], and the image its click listener shows. *)
Record Thumbnail := {
  thumb_src : jsstring;
  thumb_alt : jsstring;
  thumb_active : bool;
  thumb_image : jsstring
}.

Record ImagePane := {
  modalMainImage_src : jsstring;
  modalMainImage_alt : jsstring;
  imageThumbnails : list Thumbnail
}.

Record SpecItem := {
  spec_className : jsstring;
  spec_innerHTML : jsstring
}.

Record ReviewItem := {
  review_className : jsstring;
  review_innerHTML : jsstring
}.

(** The reviews container: the markup assigned to its [innerHTML] and the
    items appended after it. *)
Record ReviewsPane := {
  modalReviews_innerHTML : jsstring;
  modalReviews_children : list ReviewItem
}.

Record Modal := {
  productModal_hidden : bool;
  body_overflow : jsstring;
  modalHeading : ModalHeading;
  modalStatus : ModalStatus;
  modalImages : ImagePane;
  modalSpecifications : list SpecItem;
  modalReviews : ReviewsPane
}.

Definition set_productModal_hidden (v : bool) (m : Modal) : Modal :=
  {|
     productModal_hidden := v;
     body_overflow := body_overflow m;
     modalHeading := modalHeading m;
     modalStatus := modalStatus m;
     modalImages := modalImages m;
     modalSpecifications := modalSpecifications m;
     modalReviews := modalReviews m
  |}.

Definition set_body_overflow (v : jsstring) (m : Modal) : Modal :=
  {|
     productModal_hidden := productModal_hidden m;
     body_overflow := v;
     modalHeading := modalHeading m;
     modalStatus := modalStatus m;
     modalImages := modalImages m;
     modalSpecifications := modalSpecifications m;
     modalReviews := modalReviews m
  |}.

Definition set_modalHeading (v : ModalHeading) (m : Modal) : Modal :=
  {|
     productModal_hidden := productModal_hidden m;
     body_overflow := body_overflow m;
     modalHeading := v;
     modalStatus := modalStatus m;
     modalImages := modalImages m;
     modalSpecifications := modalSpecifications m;
     modalReviews := modalReviews m
  |}.

Definition set_modalStatus (v : ModalStatus) (m : Modal) : Modal :=
  {|
     productModal_hidden := productModal_hidden m;
     body_overflow := body_overflow m;
     modalHeading := modalHeading m;
     modalStatus := v;
     modalImages := modalImages m;
     modalSpecifications := modalSpecifications m;
     modalReviews := modalReviews m
  |}.

Definition set_modalImages (v : ImagePane) (m : Modal) : Modal :=
  {|
     productModal_hidden := productModal_hidden m;
     body_overflow := body_overflow m;
     modalHeading := modalHeading m;
     modalStatus := modalStatus m;
     modalImages := v;
     modalSpecifications := modalSpecifications m;
     modalReviews := modalReviews m
  |}.

Definition set_modalSpecifications (v : list SpecItem) (m : Modal) : Modal :=
  {|
     productModal_hidden := productModal_hidden m;
     body_overflow := body_overflow m;
     modalHeading := modalHeading m;
     modalStatus := modalStatus m;
     modalImages := modalImages m;
     modalSpecifications := v;
     modalReviews := modalReviews m
  |}.

Definition set_modalReviews (v : ReviewsPane) (m : Modal) : Modal :=
  {|
     productModal_hidden := productModal_hidden m;
     body_overflow := body_overflow m;
     modalHeading := modalHeading m;
     modalStatus := modalStatus m;
     modalImages := modalImages m;
     modalSpecifications := modalSpecifications m;
     modalReviews := v
  |}.

Definition closeModal (m : Modal) : Modal :=
  set_body_overflow [] (set_productModal_hidden true m).

(** The [keydown] listener of the document. *)
Definition handleKeydown (key : jsstring) (m : Modal) : Modal :=
  if bool_decide (key = lit "Escape") && negb (productModal_hidden m)
  then closeModal m else m.

(** [x || fallback] for a string that may be absent. *)
Definition orString (s : option jsstring) (fallback : jsstring) : jsstring :=
  if truthyString s then default [] s else fallback.

(** *** Images *)

(** [img && img.trim() !== ''] *)
Definition validImage (img : option jsstring) : bool :=
  match img with
  | Some s => truthy s && truthy (trim s)
  | None => false
  end.

(** [product.images || [product.thumbnail]], then the filter; an array is
    truthy even when it is empty. *)
Definition validImagesOf (product : Product) : list jsstring :=
  let images :=
    match p_images product with
    | Some l => List.map Some l
    | None => [p_thumbnail product]
    end in
  omap id (List.filter validImage images).

Definition thumbnailOf (title : jsstring) (index : nat) (image : jsstring)
  : Thumbnail :=
  {| thumb_src := image;
     thumb_alt := title ++ lit " - Image " ++ decimal (N.of_nat (index + 1));
     thumb_active := (index =? 0)%nat;
     thumb_image := image |}.

Definition populateImages (product : Product) : ImagePane :=
  let validImages := validImagesOf product in
  let validImages :=
    if (length validImages =? 0)%nat
    then validImages ++ [lit "https://via.placeholder.com/400x400?text=No+Image"]
    else validImages in
  {| modalMainImage_src := default [] (head validImages);
     modalMainImage_alt := p_title product;
     imageThumbnails :=
       if (1 <? length validImages)%nat
       then imap (thumbnailOf (p_title product)) validImages
       else [] |}.

(** The [click] listener of the thumbnail at [index]. *)
Definition thumbnailClick (index : nat) (pane : ImagePane) : ImagePane :=
  match imageThumbnails pane !! index with
  | None => pane
  | Some clicked =>
      {| modalMainImage_src := thumb_image clicked;
         modalMainImage_alt := modalMainImage_alt pane;
         imageThumbnails :=
           imap (fun i t => {| thumb_src := thumb_src t;
                               thumb_alt := thumb_alt t;
                               thumb_active := (i =? index)%nat;
                               thumb_image := thumb_image t |})
             (imageThumbnails pane) |}
  end.

(** The [onerror] handler of the thumbnail at [index]. *)
Definition thumbnailError (index : nat) (pane : ImagePane) : ImagePane :=
  {| modalMainImage_src := modalMainImage_src pane;
     modalMainImage_alt := modalMainImage_alt pane;
     imageThumbnails :=
       imap (fun i t =>
               if (i =? index)%nat
               then {| thumb_src := lit "https://via.placeholder.com/80x80?text=No+Image";
                       thumb_alt := thumb_alt t;
                       thumb_active := thumb_active t;
                       thumb_image := thumb_image t |}
               else t)
         (imageThumbnails pane) |}.

Section WithModalHost.
Context `{Host} `{ModalHost}.

(** *** Availability *)

Definition getAvailabilityClass (availability : jsstring) : jsstring :=
  let status := String_toLowerCase availability in
  if includes status (lit "in stock") then lit "in-stock"
  else if includes status (lit "low stock") then lit "low-stock"
  else if includes status (lit "out of stock") then lit "out-of-stock"
  else lit "in-stock".

(** *** Specifications *)

(** [n ? `${n} unit` : null] for a number that may be absent. *)
Definition withUnit (n : option number) (unit : jsstring) : option jsstring :=
  match n with
  | Some x => if num_truthy x then Some (Number_toString x ++ unit) else None
  | None => None
  end.

Definition specsOf (product : ProductDetails) : list (jsstring * option jsstring) :=
  [ (lit "SKU", d_sku product);
    (lit "Weight", withUnit (d_weight product) (lit " kg"));
    (lit "Dimensions",
     match d_dimensions product with
     | Some d =>
         Some (Number_toString (dim_width d) ++ [32%N; 215%N; 32%N]
                 ++ Number_toString (dim_height d) ++ [32%N; 215%N; 32%N]
                 ++ Number_toString (dim_depth d) ++ lit " cm")
     | None => None
     end);
    (lit "Warranty", d_warrantyInformation product);
    (lit "Shipping", d_shippingInformation product);
    (lit "Return Policy", d_returnPolicy product);
    (lit "Minimum Order", withUnit (d_minimumOrderQuantity product) (lit " units")) ].

(** [spec.value && spec.value !== 'null' && spec.value !== 'undefined'] *)
Definition specShown (value : option jsstring) : bool :=
  match value with
  | Some v =>
      truthy v && negb (bool_decide (v = lit "null"))
      && negb (bool_decide (v = lit "undefined"))
  | None => false
  end.

Definition specMarkup (label value : jsstring) : jsstring :=
  nl 20 ++ lit "<span class=" ++ dquote ++ lit "spec-label" ++ dquote
  ++ lit ">" ++ label ++ lit ":</span>" ++ nl 20 ++ lit "<span class="
  ++ dquote ++ lit "spec-value" ++ dquote ++ lit ">" ++ escapeHtml value
  ++ lit "</span>" ++ nl 16.

Definition populateSpecifications (product : ProductDetails) : list SpecItem :=
  omap (fun spec : jsstring * option jsstring =>
          if specShown (snd spec)
          then Some {| spec_className := lit "spec-item";
                       spec_innerHTML := specMarkup (fst spec) (default [] (snd spec)) |}
          else None)
    (specsOf product).

(** *** Reviews *)

Definition reviewMarkup (name reviewDate stars comment : jsstring) : jsstring :=
  nl 16 ++ lit "<div class=" ++ dquote ++ lit "review-header" ++ dquote
  ++ lit ">" ++ nl 20 ++ lit "<div class=" ++ dquote ++ lit "reviewer-info"
  ++ dquote ++ lit ">" ++ nl 24 ++ lit "<div class=" ++ dquote
  ++ lit "reviewer-name" ++ dquote ++ lit ">" ++ name ++ lit "</div>"
  ++ nl 24 ++ lit "<div class=" ++ dquote ++ lit "review-date" ++ dquote
  ++ lit ">" ++ reviewDate ++ lit "</div>" ++ nl 20 ++ lit "</div>" ++ nl 20
  ++ lit "<div class=" ++ dquote ++ lit "review-rating" ++ dquote ++ lit ">"
  ++ stars ++ lit "</div>" ++ nl 16 ++ lit "</div>" ++ nl 16
  ++ lit "<div class=" ++ dquote ++ lit "review-comment" ++ dquote ++ lit ">"
  ++ dquote ++ comment ++ dquote ++ lit "</div>" ++ nl 12.

Definition noReviewsMarkup : jsstring :=
  lit "<p style=" ++ dquote ++ lit "color: #666; text-align: center; padding: 20px;"
  ++ dquote ++ lit ">No reviews available for this product.</p>".

Definition reviewItemOf (review : Review) : ReviewItem + exn :=
  let reviewDate := Date_toLocaleDateString (r_date review) in
  let name := escapeHtml (orString (r_reviewerName review) (lit "Anonymous")) in
  match generateStars (ratingOrZero (r_rating review)) with
  | inr e => inr e
  | inl stars =>
      inl {| review_className := lit "review-item";
             review_innerHTML :=
               reviewMarkup name reviewDate stars
                 (escapeHtml (orString (r_comment review)
                                (lit "No comment provided"))) |}
  end.

(** [product.reviews.forEach]: an item per review, until one throws. *)
Fixpoint appendReviews (pane : ReviewsPane) (reviews : list Review)
  : ReviewsPane * completion :=
  match reviews with
  | [] => (pane, Normal)
  | review :: rest =>
      match reviewItemOf review with
      | inr e => (pane, Throw e)
      | inl reviewItem =>
          appendReviews
            {| modalReviews_innerHTML := modalReviews_innerHTML pane;
               modalReviews_children := modalReviews_children pane ++ [reviewItem] |}
            rest
      end
  end.

Definition populateReviews (product : ProductDetails) : ReviewsPane * completion :=
  let cleared := {| modalReviews_innerHTML := []; modalReviews_children := [] |} in
  match d_reviews product with
  | None =>
      ({| modalReviews_innerHTML := noReviewsMarkup; modalReviews_children := [] |},
       Normal)
  | Some reviews =>
      if (length reviews =? 0)%nat then
        ({| modalReviews_innerHTML := noReviewsMarkup; modalReviews_children := [] |},
         Normal)
      else appendReviews cleared reviews
  end.

(** *** Filling and showing the modal *)

Definition populateModal (this : ProductSearch) (m : Modal)
  (product : ProductDetails) : Modal * completion :=
  let m1 :=
    set_modalHeading
      {| modalProductTitle := p_title (d_product product);
         modalBrand := orString (d_brand product) (lit "Unknown Brand");
         modalCategory := orString (d_category product) (lit "Uncategorized");
         modalDescription :=
           orString (p_description (d_product product))
             (lit "No description available");
         modalPrice := formatRupeePrice this (p_price (d_product product)) |} m in
  let rating := ratingOrZero (p_rating (d_product product)) in
  match generateStars rating with
  | inr e => (m1, Throw e)
  | inl stars =>
      let availability := orString (d_availabilityStatus product) (lit "Unknown") in
      let discount := d_discountPercentage product in
      let discounted :=
        match discount with
        | Some d => num_truthy d && num_lt num_zero d
        | None => false
        end in
      let m2 :=
        set_modalStatus
          {| modalRatingStars := stars;
             modalRating := Number_toFixed rating 1;
             modalReviewCount :=
               decimal (N.of_nat (length (default [] (d_reviews product))));
             modalStock :=
               lit "Stock: " ++ Number_toString (ratingOrZero (d_stock product))
                 ++ lit " units";
             modalAvailability_textContent := availability;
             modalAvailability_className :=
               lit "availability-status " ++ getAvailabilityClass availability;
             modalDiscount_textContent :=
               if discounted
               then lit "-" ++ Number_toFixed (default num_zero discount) 0 ++ lit "%"
               else modalDiscount_textContent (modalStatus m1);
             modalDiscount_display :=
               if discounted then lit "inline-block" else lit "none" |} m1 in
      let m3 := set_modalImages (populateImages (d_product product)) m2 in
      let m4 := set_modalSpecifications (populateSpecifications product) m3 in
      let '(reviews, c) := populateReviews product in
      (set_modalReviews reviews m4, c)
  end.

Definition openProductModal (this : ProductSearch) (m : Modal)
  (product : ProductDetails) : Modal * completion :=
  match populateModal this m product with
  | (m1, Throw e) => (m1, Throw e)
  | (m1, Normal) =>
      (set_body_overflow (lit "hidden") (set_productModal_hidden false m1), Normal)
  end.

End WithModalHost.

(** ** Further notions *)

Definition allWhiteSpace (s : jsstring) : Prop :=
  Forall (fun c => isWhiteSpace c = true) s.

(** How often the code unit [c] occurs in [s]. *)
Definition countChar (c : N) (s : jsstring) : nat :=
  length (List.filter (N.eqb c) s).

(** The code units an encoded URI component consists of. *)
Definition uriSafe (c : N) : bool := uriUnescaped c || (c =? 37)%N.

(** Code units are 16 bits wide. *)
Definition wellFormedString (s : jsstring) : Prop :=
  Forall (fun c => (c < 65536)%N) s.

(** An answer whose products, if any, are products of the data model. *)
Definition wellFormedOutcome (o : FetchOutcome) : Prop :=
  match o with
  | Response _ _ (Json b) =>
      match body_products b with
      | Some P => Forall wellFormedProduct P
      | None => True
      end
  | _ => True
  end.

(** The state in which [handleSearch] waits for the answer to [q]. *)
Definition awaiting (q : jsstring) (this : ProductSearch) : ProductSearch :=
  showLoading (clearError (set_currentSearchTerm q this)).

(** A number below zero, or the positive infinity. *)
Definition negativeOrInfinite (x : number) : Prop :=
  valid_binary prec emax x = true
  /\ (num_lt x num_zero = true \/ x = S754_infinity false).

(** The view a valid submission ends in, by the answer of the network. *)
Definition expectedView (url : option jsstring) (net : jsstring -> FetchOutcome)
  : View :=
  match url with
  | None => ErrorState
  | Some u =>
      match net u with
      | NetworkFailure _ => ErrorState
      | Response status _ body =>
          if response_ok status then
            match body with
            | Malformed _ => ErrorState
            | Json b =>
                match body_products b with
                | Some (_ :: _) => Results
                | _ => NoResults
                end
            end
          else ErrorState
      end
  end.

(** ** Notions used to state what the modal does *)

(** An engine for the modal whose text is ASCII. *)
Definition sampleModalHost : ModalHost :=
  {| String_toLowerCase := List.map asciiLower;
     Date_toLocaleDateString := fun _ => lit "1 Jan 2024";
     String_toLowerCase_ascii := fun s _ => eq_refl |}.

(** What can happen to the thumbnails once they are built: a click on the
    thumbnail at an index, or its image failing to load. *)
Inductive ImageEvent :=
| Click (index : nat)
| LoadError (index : nat).

Definition imageEvent (pane : ImagePane) (ev : ImageEvent) : ImagePane :=
  match ev with
  | Click index => thumbnailClick index pane
  | LoadError index => thumbnailError index pane
  end.

Definition imageEvents (evs : list ImageEvent) (pane : ImagePane) : ImagePane :=
  fold_left imageEvent evs pane.

(** A review whose rating, if there is one, is a rating of the data model. *)
Definition reviewInRange (review : Review) : Prop :=
  match r_rating review with
  | Some r => ratingInRange r
  | None => True
  end.

(** A product with none of the further fields, and one with two images and
    a review. *)
Definition plainDetails (product : Product) : ProductDetails :=
  {| d_product := product; d_brand := None; d_category := None;
     d_stock := None; d_availabilityStatus := None;
     d_discountPercentage := None; d_reviews := None; d_sku := None;
     d_weight := None; d_dimensions := None; d_warrantyInformation := None;
     d_shippingInformation := None; d_returnPolicy := None;
     d_minimumOrderQuantity := None |}.

Definition productWithImages : Product :=
  {| p_id := 4; p_title := lit "D"; p_description := None;
     p_price := ofZ 7; p_rating := Some (ofZ 4);
     p_thumbnail := Some (lit "t.png");
     p_images := Some [lit "a.png"; lit " "; lit "b.png"] |}.

Definition reviewedDetails : ProductDetails :=
  {| d_product := productWithImages; d_brand := Some (lit "Acme");
     d_category := None; d_stock := Some (ofZ 3);
     d_availabilityStatus := Some (lit "Low Stock");
     d_discountPercentage := None;
     d_reviews := Some [ {| r_reviewerName := Some (lit "<b>Eve</b>");
                            r_rating := Some (ofZ 5);
                            r_comment := None; r_date := None |} ];
     d_sku := Some (lit "SKU-1"); d_weight := None; d_dimensions := None;
     d_warrantyInformation := Some (lit "null");
     d_shippingInformation := None; d_returnPolicy := None;
     d_minimumOrderQuantity := None |}.

(** The modal as the page loads it: hidden and empty. *)
Definition closedModal : Modal :=
  {| productModal_hidden := true;
     body_overflow := [];
     modalHeading := {| modalProductTitle := []; modalBrand := [];
                        modalCategory := []; modalDescription := [];
                        modalPrice := [] |};
     modalStatus := {| modalRatingStars := []; modalRating := [];
                       modalReviewCount := []; modalStock := [];
                       modalAvailability_textContent := [];
                       modalAvailability_className := [];
                       modalDiscount_textContent := [];
                       modalDiscount_display := [] |};
     modalImages := {| modalMainImage_src := []; modalMainImage_alt := [];
                       imageThumbnails := [] |};
     modalSpecifications := [];
     modalReviews := {| modalReviews_innerHTML := [];
                        modalReviews_children := [] |} |}.

(** The key each sort order sorts by, ascending; [relevance] has one key
    for all products, so that a stable sort by it keeps the order. *)
Definition orderRank (this : ProductSearch) (o : SortOrder) (p : Product) : Z :=
  match o with
  | Relevance => 0
  | PriceAscending => priceRank this p
  | PriceDescending => - priceRank this p
  | RatingDescending => - ratingRank p
  end.

(** [product.images || [product.thumbnail]], the images [populateImages]
    chooses from. *)
Definition imagesOrThumbnail (product : Product) : list (option jsstring) :=
  match p_images product with
  | Some l => List.map Some l
  | None => [p_thumbnail product]
  end.

(** A product whose only image that is not blank comes second. *)
Definition productWithOneImage : Product :=
  {| p_id := 5; p_title := lit "E"; p_description := None;
     p_price := ofZ 7; p_rating := Some (ofZ 4);
     p_thumbnail := Some (lit "t.png");
     p_images := Some [lit " "; lit "a.png"] |}.

(** A product that has a card, with a second review whose rating is
    negative. *)
Definition badlyReviewedDetails : ProductDetails :=
  {| d_product := productWithImages; d_brand := None;
     d_category := None; d_stock := None;
     d_availabilityStatus := None;
     d_discountPercentage := None;
     d_reviews := Some [ {| r_reviewerName := Some (lit "Eve");
                            r_rating := Some (ofZ 5);
                            r_comment := None; r_date := None |};
                         {| r_reviewerName := None;
                            r_rating := Some (ofZ (-1));
                            r_comment := None; r_date := None |} ];
     d_sku := None; d_weight := None; d_dimensions := None;
     d_warrantyInformation := None;
     d_shippingInformation := None; d_returnPolicy := None;
     d_minimumOrderQuantity := None |}.

(** A rating above the range, with a half. *)
Definition num_5_5 : number := num_div (ofZ 11) (ofZ 2).

(** * Properties *)

(** ** Strings *)

Lemma trimStart_suffix (s : jsstring) :
  exists pre, s = pre ++ trimStart s.
Proof.
  induction s as [|c s IH]; simpl.
  - exists []. reflexivity.
  - destruct (isWhiteSpace c).
    + destruct IH as [pre Hpre]. exists (c :: pre). simpl. congruence.
    + exists []. reflexivity.
Qed.

Lemma trimStart_noLeadingSpace (s : jsstring) : noLeadingSpace (trimStart s).
Proof.
  induction s as [|c s IH]; simpl; [exact I|].
  destruct (isWhiteSpace c) eqn:E; [exact IH|]. simpl. exact E.
Qed.

Lemma trimStart_fixed (s : jsstring) : noLeadingSpace s -> trimStart s = s.
Proof.
  destruct s as [|c s]; simpl; [reflexivity|].
  intros ->. reflexivity.
Qed.

Lemma noLeadingSpace_prefix (x y : jsstring) :
  noLeadingSpace (x ++ y) -> noLeadingSpace x.
Proof. destruct x; simpl; auto. Qed.

Lemma trimEnd_prefix (s : jsstring) : exists post, s = trimEnd s ++ post.
Proof.
  unfold trimEnd.
  destruct (trimStart_suffix (rev s)) as [pre Hpre].
  exists (rev pre).
  rewrite <- rev_app_distr, <- Hpre, rev_involutive. reflexivity.
Qed.

Lemma trim_noLeadingSpace (s : jsstring) : noLeadingSpace (trim s).
Proof.
  unfold trim.
  destruct (trimEnd_prefix (trimStart s)) as [post Hpost].
  apply noLeadingSpace_prefix with (y := post).
  rewrite <- Hpost. apply trimStart_noLeadingSpace.
Qed.

Lemma trim_idempotent (s : jsstring) : trim (trim s) = trim s.
Proof.
  unfold trim at 1.
  rewrite (trimStart_fixed (trim s)) by apply trim_noLeadingSpace.
  unfold trim, trimEnd.
  rewrite rev_involutive.
  rewrite (trimStart_fixed (trimStart (rev (trimStart s))))
    by apply trimStart_noLeadingSpace.
  reflexivity.
Qed.

(** [trim] removes white space at both ends and nothing else. *)
Lemma trim_spec (s : jsstring) :
  exists pre post,
    s = pre ++ trim s ++ post
    /\ Forall (fun c => isWhiteSpace c = true) pre
    /\ Forall (fun c => isWhiteSpace c = true) post
    /\ noLeadingSpace (trim s)
    /\ noLeadingSpace (rev (trim s)).
Proof.
  assert (Hpre : forall u, exists pre,
             u = pre ++ trimStart u /\ Forall (fun c => isWhiteSpace c = true) pre).
  { induction u as [|c u IH]; simpl.
    - exists []. split; [reflexivity | constructor].
    - destruct (isWhiteSpace c) eqn:E.
      + destruct IH as (pre & Hu & Hf). exists (c :: pre). split.
        * simpl. congruence.
        * constructor; assumption.
      + exists []. split; [reflexivity | constructor]. }
  destruct (Hpre s) as (pre & Hs & Hfpre).
  destruct (Hpre (rev (trimStart s))) as (q & Hq & Hfq).
  exists pre, (rev q). split; [|split; [exact Hfpre|split; [|split]]].
  - unfold trim, trimEnd. rewrite <- rev_app_distr, <- Hq, rev_involutive.
    exact Hs.
  - apply Forall_rev. exact Hfq.
  - apply trim_noLeadingSpace.
  - unfold trim, trimEnd. rewrite rev_involutive. apply trimStart_noLeadingSpace.
Qed.

Lemma truthy_length (s : jsstring) : truthy s = negb (length s =? 0)%nat.
Proof. destruct s; reflexivity. Qed.

(** ** Validation *)

Lemma validateSearchInput_cases (this : ProductSearch) (raw : jsstring) :
  validateSearchInput this raw =
    match length (trim raw) with
    | O => (showError (errorText EmptyQuery) this, false)
    | S O => (showError (errorText TooShort) this, false)
    | S (S _) => (this, true)
    end.
Proof.
  unfold validateSearchInput.
  destruct (trim raw) as [|a [|b t]]; simpl; try reflexivity.
  destruct (Z.ltb_spec (Z.of_nat (S (S (length t)))) 2); [lia|reflexivity].
Qed.

(** C1. Validation of the raw input: a trimmed length of 0 fails with the
    empty-query message, a trimmed length of 1 fails with the too-short
    message, and a trimmed length of at least 2 succeeds; [handleSearch]
    then searches for exactly the trimmed string, and sends no request in
    the two failing cases. *)
Theorem validateSearchInput_trimmed_length
  (this : ProductSearch) (raw : jsstring) :
  let submitted := handleSearch_submit (set_searchInput_value raw this) in
  match length (trim raw) with
  | O =>
      validateSearchInput this raw
        = (showError (errorText EmptyQuery) this, false)
      /\ snd submitted = None
  | S O =>
      validateSearchInput this raw
        = (showError (errorText TooShort) this, false)
      /\ snd submitted = None
  | S (S _) =>
      validateSearchInput this raw = (this, true)
      /\ snd submitted = Some (trim raw)
      /\ currentSearchTerm (fst submitted) = trim raw
  end.
Proof.
  intros submitted. subst submitted. unfold handleSearch_submit.
  cbn [searchInput_value set_searchInput_value].
  rewrite !validateSearchInput_cases, trim_idempotent.
  destruct (length (trim raw)) as [|[|n]]; cbn; auto.
Qed.

(** ** The request *)

Lemma includes_app (pre p post : jsstring) : includes (pre ++ p ++ post) p = true.
Proof.
  assert (Hs : forall s, startsWith (p ++ s) p = true).
  { induction p as [|a p IH]; intros s; simpl; [reflexivity|].
    rewrite N.eqb_refl. simpl. apply IH. }
  induction pre as [|c pre IH]; simpl.
  - destruct (p ++ post) eqn:E; simpl; rewrite <- E, Hs; reflexivity.
  - rewrite IH. apply orb_true_r.
Qed.

Lemma encodeURIComponent_unescaped (s : jsstring) :
  Forall (fun c => uriUnescaped c = true) s -> encodeURIComponent s = Some s.
Proof.
  induction 1 as [|c s Hc _ IH]; simpl; [reflexivity|].
  rewrite Hc, IH. reflexivity.
Qed.

Example encodeURIComponent_space_and_ampersand :
  encodeURIComponent (lit "a b&c") = Some (lit "a%20b%26c").
Proof. reflexivity. Qed.

(** U+00E9 becomes two octets, the pair D83D DE00 (U+1F600) four, and a
    lone surrogate is a [URIError]. *)
Example encodeURIComponent_beyond_ascii :
  encodeURIComponent [233%N] = Some (lit "%C3%A9")
  /\ encodeURIComponent [55357%N; 56832%N] = Some (lit "%F0%9F%98%80")
  /\ encodeURIComponent [55357%N] = None.
Proof. repeat split; reflexivity. Qed.

Lemma searchProducts_net_url `{Host} (this : ProductSearch) (h : heap)
  (net net' : jsstring -> FetchOutcome) (q url : jsstring) :
  searchProducts_url this q = Some url ->
  net url = net' url ->
  searchProducts this h net q = searchProducts this h net' q.
Proof.
  intros Hu Hn. unfold searchProducts. rewrite Hu, Hn. reflexivity.
Qed.

Lemma constructor_apiBaseUrl (page : world) :
  apiBaseUrl (snd (constructor page))
  = lit "https://dummyjson.com/products/search".
Proof. destruct page as [h this]. reflexivity. Qed.

(** C6, as the first revision has it: [script.js] asks for
    [{endpoint}?q=ab], with no cap on the number of results. *)
Lemma scriptJs_url_has_no_limit :
  ScriptJs.searchProducts_url (snd freshWorld) (lit "ab")
  <> Some (lit "https://dummyjson.com/products/search?q=ab&limit=50").
Proof. vm_compute. discriminate. Qed.

(** C6, amended. For a query [q] that [encodeURIComponent] encodes to
    [enc], the revision with sorting requests exactly
    [{endpoint}?q={enc}&limit=50], and the first revision, [script.js],
    requests [{endpoint}?q={enc}] with no cap. *)
Theorem searchProducts_url_shape (page : world) (q enc : jsstring) :
  encodeURIComponent q = Some enc ->
  let this := snd (constructor page) in
  searchProducts_url this q
    = Some (lit "https://dummyjson.com/products/search" ++ lit "?q=" ++ enc
              ++ lit "&limit=50")
  /\ ScriptJs.searchProducts_url this q
    = Some (lit "https://dummyjson.com/products/search" ++ lit "?q=" ++ enc).
Proof.
  intros Henc this.
  unfold searchProducts_url, ScriptJs.searchProducts_url.
  rewrite Henc. subst this. rewrite constructor_apiBaseUrl. split; reflexivity.
Qed.

Lemma searchProducts_url_shape_witness :
  encodeURIComponent (lit "a b") = Some (lit "a%20b")
  /\ searchProducts_url (snd freshWorld) (lit "a b")
     = Some (lit "https://dummyjson.com/products/search?q=a%20b&limit=50").
Proof.
  split; [reflexivity|].
  exact (proj1 (searchProducts_url_shape (∅, blankPage) (lit "a b")
                  (lit "a%20b") eq_refl)).
Defined.

(** ** The views a search ends in *)

Lemma array_get_alloc (h : heap) (l : list Product) :
  array_get (fst (array_alloc h l)) (snd (array_alloc h l)) = l.
Proof.
  unfold array_alloc, array_get, heap. cbn [fst snd].
  rewrite lookup_insert_eq. reflexivity.
Qed.

Lemma array_alloc_fresh (h : heap) (l : list Product) :
  h !! snd (array_alloc h l) = None.
Proof.
  unfold array_alloc, heap. cbn [fst snd]. apply not_elem_of_dom, is_fresh.
Qed.

Lemma array_get_alloc_other (h : heap) (l : list Product) (a : loc) :
  is_Some (h !! a) ->
  array_get (fst (array_alloc h l)) a = array_get h a.
Proof.
  intros Ha. pose proof (array_alloc_fresh h l) as Hf. revert Hf.
  unfold array_alloc, array_get, heap in *. cbn [fst snd]. intros Hf.
  rewrite lookup_insert_ne; [reflexivity|].
  intros Heq. rewrite <- Heq, Hf in Ha. destruct Ha as [? Ha]. discriminate.
Qed.

(** C7. A successful response with no products ends in the no-results view:
    [displayResults] shows the notice, touches neither the grid nor the
    error container, and after the loading view of [handleSearch] these are
    empty and hidden; the same holds when [products] is absent. *)
Theorem displayResults_empty_reaches_NoResults `{Host}
  (h : heap) (this : ProductSearch) (term : jsstring) (total : number) :
  let body := {| body_products := Some []; body_total := total |} in
  let absent := {| data_products := None; data_total := total |} in
  let after (s : ProductSearch) :=
    displayResults (fst (allocBody h body), s) (snd (allocBody h body)) term in
  snd (after this) = Normal
  /\ noResults_hidden (snd (fst (after this))) = false
  /\ productGrid (snd (fst (after this))) = productGrid this
  /\ errorContainer_hidden (snd (fst (after this))) = errorContainer_hidden this
  /\ view (snd (fst (after (showLoading this)))) = Some NoResults
  /\ productGrid (snd (fst (after (showLoading this)))) = []
  /\ errorContainer_hidden (snd (fst (after (showLoading this)))) = true
  /\ handleSearch_settle (fst (allocBody h body), showLoading this) term
       (inl (snd (allocBody h body)))
     = fst (after (showLoading this))
  /\ displayResults (h, showLoading this) absent term
     = ((h, showNoResults (hideLoading (showLoading this))), Normal)
  /\ view (showNoResults (hideLoading (showLoading this))) = Some NoResults.
Proof.
  intros body absent after.
  assert (Hd : forall s, after s
                = ((fst (allocBody h body), showNoResults (hideLoading s)), Normal)).
  { intros s. subst after. unfold allocBody, displayResults. cbn -[array_alloc].
    destruct (array_alloc h []) as [h1 a] eqn:E. cbn.
    pose proof (array_get_alloc h []) as Hg. rewrite E in Hg. simpl in Hg.
    rewrite Hg. reflexivity. }
  unfold handleSearch_settle. fold (after (showLoading this)).
  rewrite !Hd. cbn. repeat split; reflexivity.
Qed.

(** C8. A response whose status is outside 200-299 makes [searchProducts]
    fail with the message [Failed to fetch products: {status}
    {statusText}]; [handleSearch] then ends in the error view showing
    that message, which contains the status in decimal. *)
Theorem searchProducts_http_error `{Host}
  (h : heap) (this this1 : ProductSearch) (net : jsstring -> FetchOutcome)
  (q url statusText : jsstring) (status : N) (body : BodyOutcome) :
  handleSearch_submit this = (this1, Some q) ->
  searchProducts_url this1 q = Some url ->
  net url = Response status statusText body ->
  response_ok status = false ->
  let message :=
    lit "Failed to fetch products: " ++ decimal status ++ lit " " ++ statusText in
  searchProducts this1 h net q = (h, inr message)
  /\ handleSearch (h, this) net = (h, showErrorState message this1)
  /\ view (showErrorState message this1) = Some ErrorState
  /\ errorText_textContent (showErrorState message this1) = message
  /\ includes message (decimal status) = true.
Proof.
  intros Hsub Hurl Hnet Hok message.
  assert (Hs : searchProducts this1 h net q = (h, inr message)).
  { unfold searchProducts. rewrite Hurl, Hnet, Hok. reflexivity. }
  split; [exact Hs|].
  split; [unfold handleSearch; rewrite Hsub, Hs; reflexivity|].
  split.
  { unfold handleSearch_submit in Hsub.
    destruct (validateSearchInput this (trim (searchInput_value this)))
      as [s1 [|]]; simpl in Hsub; [|discriminate].
    injection Hsub as <- _. reflexivity. }
  split; [reflexivity|].
  subst message. apply (includes_app (lit "Failed to fetch products: ")).
Qed.

Lemma searchProducts_http_error_witness :
  let this := set_searchInput_value (lit "phone") (snd freshWorld) in
  let net := fun _ : jsstring =>
    Response 500 (lit "Internal Server Error") (Malformed []) in
  let message := lit "Failed to fetch products: 500 Internal Server Error" in
  view (snd (@handleSearch sampleHost (fst freshWorld, this) net))
    = Some ErrorState
  /\ errorText_textContent
       (snd (@handleSearch sampleHost (fst freshWorld, this) net)) = message
  /\ includes message (lit "500") = true.
Proof.
  intros this net message.
  pose proof (@searchProducts_http_error sampleHost (fst freshWorld) this
                (fst (handleSearch_submit this)) net (lit "phone")
                (lit "https://dummyjson.com/products/search?q=phone&limit=50")
                (lit "Internal Server Error") 500%N (Malformed [])
                eq_refl eq_refl eq_refl eq_refl) as (_ & Hh & Hv & Ht & Hi).
  rewrite Hh. cbn [snd]. split; [exact Hv | split; [exact Ht | exact Hi]].
Defined.

(** ** Sorting *)

Lemma insertSorted_perm {A} (comparefn : A -> A -> number) (x : A) (l : list A) :
  Permutation (insertSorted comparefn x l) (x :: l).
Proof.
  induction l as [|y l IH]; simpl; [reflexivity|].
  destruct (sortsBefore comparefn x y); [reflexivity|].
  rewrite IH. apply perm_swap.
Qed.

Lemma sortList_perm {A} (comparefn : A -> A -> number) (l : list A) :
  Permutation (sortList comparefn l) l.
Proof.
  unfold sortList.
  assert (G : forall acc,
             Permutation (fold_left (fun acc x => insertSorted comparefn x acc) l acc)
               (l ++ acc)).
  { induction l as [|x l IH]; intros acc; simpl; [reflexivity|].
    rewrite IH, insertSorted_perm. symmetry. apply Permutation_middle. }
  rewrite G, app_nil_r. reflexivity.
Qed.

Lemma array_get_sort (comparefn : Product -> Product -> number)
  (h : heap) (a b : loc) :
  array_get (fst (Array_sort comparefn h a)) b
  = if decide (a = b) then sortList comparefn (array_get h a) else array_get h b.
Proof.
  unfold Array_sort, array_get at 1, heap. cbn [fst].
  destruct (decide (a = b)) as [->|Hne].
  - rewrite lookup_insert_eq. reflexivity.
  - rewrite lookup_insert_ne by exact Hne. reflexivity.
Qed.

Lemma sortProducts_comparator (this : ProductSearch) (h : heap) (a : loc)
  (sortType : jsstring) :
  sortProducts this h a sortType
  = match comparatorOf this sortType with
    | Some comparefn => Array_sort comparefn h a
    | None => (h, a)
    end.
Proof.
  unfold sortProducts, comparatorOf.
  repeat (case_bool_decide; [reflexivity|]). reflexivity.
Qed.

Lemma sortProducts_returns_argument (this : ProductSearch) (h : heap) (a : loc)
  (sortType : jsstring) :
  snd (sortProducts this h a sortType) = a.
Proof.
  rewrite sortProducts_comparator.
  destruct (comparatorOf this sortType); reflexivity.
Qed.

Lemma sortProducts_perm (this : ProductSearch) (h : heap) (a : loc)
  (sortType : jsstring) :
  Permutation (array_get (fst (sortProducts this h a sortType)) a) (array_get h a).
Proof.
  rewrite sortProducts_comparator.
  destruct (comparatorOf this sortType) as [c|]; [|reflexivity].
  rewrite array_get_sort, decide_True by reflexivity. apply sortList_perm.
Qed.

Lemma sortProducts_other (this : ProductSearch) (h : heap) (a b : loc)
  (sortType : jsstring) :
  a <> b ->
  array_get (fst (sortProducts this h a sortType)) b = array_get h b.
Proof.
  intros Hne. rewrite sortProducts_comparator.
  destruct (comparatorOf this sortType) as [c|]; [|reflexivity].
  rewrite array_get_sort, decide_False by exact Hne. reflexivity.
Qed.

(** ** Numbers: exact results of rounding *)

Lemma digits2_pos_bounds (p : positive) :
  2 ^ (Zpos (digits2_pos p) - 1) <= Zpos p < 2 ^ Zpos (digits2_pos p).
Proof.
  induction p as [p IH|p IH|]; cbn [digits2_pos].
  - rewrite Pos2Z.inj_succ.
    replace (Z.succ (Zpos (digits2_pos p)) - 1) with (Zpos (digits2_pos p)) by lia.
    rewrite Z.pow_succ_r by lia.
    assert (2 ^ Zpos (digits2_pos p) = 2 * 2 ^ (Zpos (digits2_pos p) - 1)).
    { rewrite <- Z.pow_succ_r by lia. f_equal. lia. }
    lia.
  - rewrite Pos2Z.inj_succ.
    replace (Z.succ (Zpos (digits2_pos p)) - 1) with (Zpos (digits2_pos p)) by lia.
    rewrite Z.pow_succ_r by lia.
    assert (2 ^ Zpos (digits2_pos p) = 2 * 2 ^ (Zpos (digits2_pos p) - 1)).
    { rewrite <- Z.pow_succ_r by lia. f_equal. lia. }
    lia.
  - simpl. lia.
Qed.

Lemma iter_xO_value (p k : positive) :
  Zpos (Pos.iter xO p k) = Zpos p * 2 ^ Zpos k.
Proof.
  revert p. induction k as [|k IH] using Pos.peano_ind; intros p.
  - simpl. lia.
  - rewrite Pos.iter_succ, Pos2Z.inj_succ, Z.pow_succ_r by lia.
    rewrite Pos2Z.inj_xO, IH. lia.
Qed.

Lemma iter_xO_digits (p k : positive) :
  Zpos (digits2_pos (Pos.iter xO p k)) = Zpos (digits2_pos p) + Zpos k.
Proof.
  revert p. induction k as [|k IH] using Pos.peano_ind; intros p.
  - simpl. lia.
  - rewrite Pos.iter_succ. cbn [digits2_pos]. rewrite Pos2Z.inj_succ, IH. lia.
Qed.

(** A mantissa of at most 53 bits at an exponent that is not below the
    least one is representable: [binary_round] only aligns it. *)
Lemma binary_round_exact (s : bool) (p : positive) (e : Z) :
  let e' := fexp prec emax (Zpos (digits2_pos p) + e) in
  Zpos (digits2_pos p) <= 53 ->
  -1074 <= e ->
  e' <= 971 ->
  binary_round prec emax s p e
  = S754_finite s (fst (shl_align p e e')) e'
  /\ e' <= e
  /\ Zpos (fst (shl_align p e e')) = Zpos p * 2 ^ (e - e').
Proof.
  intros e' Hd He He'.
  assert (Hle : e' <= e).
  { subst e'. unfold fexp, emin, prec, emax. lia. }
  assert (Hal : snd (shl_align p e e') = e'
                /\ Zpos (digits2_pos (fst (shl_align p e e'))) + e'
                   = Zpos (digits2_pos p) + e
                /\ Zpos (fst (shl_align p e e')) = Zpos p * 2 ^ (e - e')).
  { unfold shl_align. destruct (e' - e) as [|k|k] eqn:Ek; cbn [fst snd].
    - replace (e - e') with 0 by lia. simpl. lia.
    - lia.
    - rewrite iter_xO_digits, iter_xO_value.
      replace (e - e') with (Zpos k) by lia. lia. }
  destruct Hal as (Hs & Hdig & Hv).
  split; [|split; [exact Hle | exact Hv]].
  unfold binary_round. fold e'.
  destruct (shl_align p e e') as [mz ez] eqn:Ea. cbn [fst snd] in *. subst ez.
  unfold binary_round_aux, shr_fexp. cbn [Zdigits2].
  rewrite Hdig. fold e'. rewrite Z.sub_diag. cbn.
  rewrite Hdig. fold e'. rewrite Z.sub_diag. cbn.
  change (emax - prec) with 971.
  destruct (Z.leb_spec e' 971); [reflexivity|lia].
Qed.

Lemma compare_cont_Eq (a b : positive) :
  Pos.compare_cont Eq a b = (a ?= b)%positive.
Proof. reflexivity. Qed.

Lemma pow2_split (n : Z) : 0 < n -> 2 ^ n = 2 * 2 ^ (n - 1).
Proof.
  intros Hn. rewrite <- Z.pow_succ_r by lia. f_equal. lia.
Qed.

(** Comparing an exactly representable fraction [f * 2^e0] with one half. *)
Lemma num_ge_half_exact (f e0 : Z) :
  0 <= f < 2 ^ (- e0) ->
  f < 2 ^ 53 ->
  -1074 <= e0 <= -52 ->
  num_ge (binary_normalize prec emax f e0 false) num_half
  = (2 ^ (- e0) <=? 2 * f).
Proof.
  intros Hf Hf53 He0.
  assert (Hpos : 0 < 2 ^ (- e0)) by (apply Z.pow_pos_nonneg; lia).
  destruct f as [|p|p]; [| |lia].
  - cbn. symmetry. apply Z.leb_gt. lia.
  - cbn [binary_normalize].
    pose proof (digits2_pos_bounds p) as [Hlo Hhi].
    set (d := Zpos (digits2_pos p)) in *.
    assert (Hd1 : 1 <= d) by (subst d; lia).
    assert (Hd : d <= 53).
    { destruct (Z_le_gt_dec d 53) as [|Hgt]; [assumption|exfalso].
      assert (2 ^ 53 <= 2 ^ (d - 1)) by (apply Z.pow_le_mono_r; lia). lia. }
    destruct (binary_round_exact false p e0) as (Hr & Hle & Hv);
      [exact Hd | lia | unfold fexp, emin, prec, emax; fold d; lia |].
    rewrite Hr. clear Hr. fold d in Hle, Hv |- *.
    set (e' := fexp prec emax (d + e0)) in *.
    set (mz := fst (shl_align p e0 e')) in *.
    assert (He' : e' = Z.max (d + e0 - 53) (-1074)) by reflexivity.
    unfold num_ge, SFleb, SFcompare, num_half.
    assert (Hsplit : 2 ^ d = 2 * 2 ^ (d - 1)) by (apply pow2_split; lia).
    destruct (Z.compare_spec (-53) e') as [Heq|Hlt|Hgt].
    + assert (Hde : d = - e0) by lia.
      rewrite compare_cont_Eq.
      assert (Hmz : 2 ^ 52 <= Zpos mz).
      { rewrite Hv. replace (e0 - e') with (e0 + 53) by lia.
        replace 52 with ((d - 1) + (e0 + 53)) by lia.
        rewrite Z.pow_add_r by lia. apply Z.mul_le_mono_nonneg_r; [|exact Hlo].
        apply Z.pow_nonneg. lia. }
      assert (Hc : (4503599627370496 ?= mz)%positive <> Gt).
      { rewrite Pos2Z.inj_compare. intros Hc.
        apply Z.compare_gt_iff in Hc. change (2 ^ 52) with 4503599627370496 in Hmz.
        lia. }
      rewrite <- Hde, Hsplit.
      destruct (4503599627370496 ?= mz)%positive; try congruence;
        symmetry; apply Z.leb_le; lia.
    + assert (Hde : - e0 <= d - 1) by lia.
      assert (2 ^ (- e0) <= 2 ^ (d - 1)) by (apply Z.pow_le_mono_r; lia).
      symmetry. apply Z.leb_le. lia.
    + assert (Hde : d <= - e0 - 1) by lia.
      assert (2 ^ d <= 2 ^ (- e0 - 1)) by (apply Z.pow_le_mono_r; lia).
      assert (2 ^ (- e0) = 2 * 2 ^ (- e0 - 1)) by (apply pow2_split; lia).
      symmetry. apply Z.leb_gt. lia.
Qed.

(** The shape of a rating in range: a zero, or a positive finite value of
    exponent at most -50, at most [5 * 2^50] at that exponent. *)
Lemma ratingInRange_shape (r : number) :
  ratingInRange r ->
  (exists s, r = S754_zero s)
  \/ (exists m e, r = S754_finite false m e
                  /\ -1074 <= e <= -50
                  /\ Zpos m < 2 ^ 53
                  /\ (e = -50 -> Zpos m <= 5 * 2 ^ 50)).
Proof.
  intros (Hv & H0 & H5).
  destruct r as [s|s| |s m e].
  - left. exists s. reflexivity.
  - destruct s; discriminate.
  - discriminate.
  - right. destruct s; [discriminate|].
    exists m, e. split; [reflexivity|].
    cbn [valid_binary] in Hv. unfold bounded, canonical_mantissa in Hv.
    apply andb_true_iff in Hv as [Hc _]. apply Z.eqb_eq in Hc.
    unfold fexp, emin, prec, emax in Hc.
    pose proof (digits2_pos_bounds m) as [_ Hhi].
    assert (Hd : Zpos (digits2_pos m) <= 53) by lia.
    assert (2 ^ Zpos (digits2_pos m) <= 2 ^ 53) by (apply Z.pow_le_mono_r; lia).
    unfold num_ge, SFleb, SFcompare, num_five in H5.
    rewrite compare_cont_Eq in H5.
    destruct (Z.compare_spec e (-50)) as [Heq|Hlt|Hgt].
    + split; [lia|]. split; [lia|]. intros _.
      destruct (Pos.compare_spec m 5629499534213120) as [->|Hl|Hg];
        [vm_compute; discriminate | | discriminate].
      change (5 * 2 ^ 50) with (Zpos 5629499534213120).
      apply Z.lt_le_incl, Pos2Z.pos_lt_pos, Hl.
    + split; [lia|]. split; [lia|]. lia.
    + discriminate.
Qed.

(** ** Star glyphs *)

Lemma floorOf_bounds (m : positive) (e : Z) :
  -1074 <= e <= -50 ->
  Zpos m < 2 ^ 53 ->
  (e = -50 -> Zpos m <= 5 * 2 ^ 50) ->
  0 <= Zpos m / 2 ^ (- e) <= 5
  /\ (Zpos m / 2 ^ (- e) = 5 -> Zpos m mod 2 ^ (- e) = 0).
Proof.
  intros He Hm H50.
  assert (Hpos : 0 < 2 ^ (- e)) by (apply Z.pow_pos_nonneg; lia).
  split; [split|].
  - apply Z.div_pos; lia.
  - destruct (Z.eq_dec e (-50)) as [->|Hne].
    + specialize (H50 eq_refl). change (- -50) with 50.
      apply Z.div_le_upper_bound; lia.
    + assert (Hp : 2 ^ 51 <= 2 ^ (- e)) by (apply Z.pow_le_mono_r; lia).
      assert (Zpos m / 2 ^ (- e) < 4); [|lia].
      apply Z.div_lt_upper_bound; [exact Hpos|].
      change (2 ^ 53) with (2 ^ 51 * 4) in Hm. nia.
  - intros H5.
    destruct (Z.eq_dec e (-50)) as [->|Hne].
    + specialize (H50 eq_refl). change (- -50) with 50 in *.
      pose proof (Z.div_mod (Zpos m) (2 ^ 50) ltac:(lia)) as Hdm.
      pose proof (Z.mod_pos_bound (Zpos m) (2 ^ 50) ltac:(lia)) as Hb.
      rewrite H5 in Hdm. lia.
    + assert (Hp : 2 ^ 51 <= 2 ^ (- e)) by (apply Z.pow_le_mono_r; lia).
      assert (Zpos m / 2 ^ (- e) < 4); [|lia].
      apply Z.div_lt_upper_bound; [exact Hpos|].
      change (2 ^ 53) with (2 ^ 51 * 4) in Hm. nia.
Qed.

Lemma hasHalfStar_exact (m : positive) (e : Z) :
  -1074 <= e <= -50 ->
  Zpos m < 2 ^ 53 ->
  num_ge (num_rem (S754_finite false m e) num_one) num_half
  = (2 ^ (- e) <=? 2 * (Zpos m mod 2 ^ (- e))).
Proof.
  intros He Hm.
  assert (Hpos : 0 < 2 ^ (- e)) by (apply Z.pow_pos_nonneg; lia).
  unfold num_rem, num_one. cbn [cond_Zopp].
  destruct (Z_le_gt_dec e (-52)) as [Hle|Hgt].
  - rewrite Z.min_l by lia. rewrite Z.sub_diag, Z.mul_1_r.
    replace (4503599627370496 * 2 ^ (-52 - e)) with (2 ^ (- e)).
    2:{ change 4503599627370496 with (2 ^ 52).
        rewrite <- Z.pow_add_r by lia. f_equal. lia. }
    pose proof (Z.mod_pos_bound (Zpos m) (2 ^ (- e)) Hpos) as Hb.
    assert (Hmm : Zpos m mod 2 ^ (- e) <= Zpos m) by (apply Z.mod_le; lia).
    apply num_ge_half_exact; lia.
  - rewrite Z.min_r by lia. change (-52 - -52) with 0.
    change (4503599627370496 * 2 ^ 0) with (2 ^ 52).
    pose proof (Z.mod_pos_bound (Zpos m * 2 ^ (e - -52)) (2 ^ 52) ltac:(lia)) as Hb.
    rewrite num_ge_half_exact;
      [| change (- -52) with 52; lia
       | assert (2 ^ 52 < 2 ^ 53) by (apply Z.pow_lt_mono_r; lia); lia | lia].
    change (- -52) with 52.
    assert (Hc : e = -51 \/ e = -50) by lia.
    destruct Hc as [->| ->].
    + change (2 ^ (-51 - -52)) with 2. change (- -51) with 51.
      change (2 ^ 52) with (2 ^ 51 * 2).
      rewrite Z.mul_mod_distr_r by lia.
      destruct (Z.leb_spec (2 ^ 51 * 2) (2 * (Zpos m mod 2 ^ 51 * 2)));
        destruct (Z.leb_spec (2 ^ 51) (2 * (Zpos m mod 2 ^ 51))); lia.
    + change (2 ^ (-50 - -52)) with 4. change (- -50) with 50.
      change (2 ^ 52) with (2 ^ 50 * 4).
      rewrite Z.mul_mod_distr_r by lia.
      destruct (Z.leb_spec (2 ^ 50 * 4) (2 * (Zpos m mod 2 ^ 50 * 4)));
        destruct (Z.leb_spec (2 ^ 50) (2 * (Zpos m mod 2 ^ 50))); lia.
Qed.

Lemma generateStars_floor_half `{Host} (q : Z) (b : bool) :
  0 <= q <= 5 ->
  (q = 5 -> b = false) ->
  match repeatString [STAR] (binary_normalize prec emax q 0 false) with
  | inr e => inr e
  | inl full =>
      match repeatString [WHITE_STAR]
              (num_sub (num_sub num_five (binary_normalize prec emax q 0 false))
                 (if b then num_one else num_zero)) with
      | inr e => inr e
      | inl empty => inl (full ++ (if b then [WHITE_STAR] else []) ++ empty)
      end
  end
  = inl (replicate (Z.to_nat q) STAR ++ (if b then [WHITE_STAR] else [])
           ++ replicate (Z.to_nat (5 - q - (if b then 1 else 0))) WHITE_STAR).
Proof.
  intros Hq H5.
  assert (Hc : q = 0 \/ q = 1 \/ q = 2 \/ q = 3 \/ q = 4 \/ q = 5) by lia.
  destruct Hc as [->|[->|[->|[->|[->| ->]]]]];
    try (rewrite H5 by reflexivity);
    try destruct b; vm_compute; reflexivity.
Qed.

(** For a rating between 0 and 5 the string has [floor(rating)] full
    stars, one half star when the fraction is at least one half, and empty
    stars up to five symbols. *)
Lemma generateStars_in_range `{Host} (r : number) :
  ratingInRange r ->
  let full := floorOf r in
  let half := fractionAtLeastHalf r in
  let empty := 5 - full - (if half then 1 else 0) in
  0 <= full <= 5 /\ 0 <= empty
  /\ generateStars r
     = inl (replicate (Z.to_nat full) STAR
              ++ (if half then [WHITE_STAR] else [])
              ++ replicate (Z.to_nat empty) WHITE_STAR).
Proof.
  intros Hr. destruct (ratingInRange_shape r Hr) as [[s ->]|(m & e & -> & He & Hm & H50)].
  - cbn. split; [lia|]. split; [lia|]. destruct s; vm_compute; reflexivity.
  - destruct (floorOf_bounds m e He Hm H50) as [Hq H5].
    pose proof (hasHalfStar_exact m e He Hm) as Hh.
    assert (Hneg : (0 <=? e) = false) by (apply Z.leb_gt; lia).
    cbn [floorOf fractionAtLeastHalf]. rewrite Hneg.
    set (q := Zpos m / 2 ^ (- e)) in *.
    set (b := 2 ^ (- e) <=? 2 * (Zpos m mod 2 ^ (- e))) in *.
    assert (Hb5 : q = 5 -> b = false).
    { intros Hq5. subst b. rewrite (H5 Hq5). apply Z.leb_gt.
      apply Z.pow_pos_nonneg; lia. }
    split; [exact Hq|]. split.
    { destruct b; [|lia]. destruct (Z.eq_dec q 5) as [Hq5|]; [|lia].
      specialize (Hb5 Hq5). discriminate. }
    unfold generateStars. rewrite Hh. fold b.
    unfold Math_floor. rewrite Hneg. cbn [cond_Zopp]. fold q.
    apply generateStars_floor_half; assumption.
Qed.

(** C9. For a rating between 0 and 5, [generateStars] returns five
    symbols, [floor(rating)] full stars first.  The half star it computes
    is written with the glyph of the empty star: the string is the full
    stars followed by hollow ones whatever the fraction is, so a rating is
    shown as its integer part is, and 3.5 gives the string that 3 gives.
    Rating 0 gives five empty symbols and rating 5 five full ones.  The
    half star has its place in the count all the same: at 5.5 it leaves -1
    empty stars, and [repeat] throws. *)
Theorem generateStars_half_star_is_hollow `{Host} (r : number) :
  ratingInRange r ->
  let full := Z.to_nat (floorOf r) in
  generateStars r = inl (replicate full STAR ++ replicate (5 - full) WHITE_STAR)
  /\ (full <= 5)%nat
  /\ (forall stars, generateStars r = inl stars -> length stars = 5%nat)
  /\ (forall r', ratingInRange r' -> floorOf r' = floorOf r ->
        generateStars r' = generateStars r)
  /\ fractionAtLeastHalf num_3_5 = true
  /\ fractionAtLeastHalf (ofZ 3) = false
  /\ generateStars num_3_5 = inl [STAR; STAR; STAR; WHITE_STAR; WHITE_STAR]
  /\ generateStars (ofZ 3) = inl [STAR; STAR; STAR; WHITE_STAR; WHITE_STAR]
  /\ generateStars num_zero
     = inl [WHITE_STAR; WHITE_STAR; WHITE_STAR; WHITE_STAR; WHITE_STAR]
  /\ generateStars num_five = inl [STAR; STAR; STAR; STAR; STAR]
  /\ generateStars num_5_5 = inr (RangeError_message (ofZ (-1))).
Proof.
  intros Hr full.
  assert (G : forall x, ratingInRange x ->
                (Z.to_nat (floorOf x) <= 5)%nat
                /\ generateStars x
                   = inl (replicate (Z.to_nat (floorOf x)) STAR
                            ++ replicate (5 - Z.to_nat (floorOf x)) WHITE_STAR)).
  { intros x Hx. destruct (generateStars_in_range x Hx) as (Hq & He & ->).
    split; [lia|]. do 2 f_equal.
    destruct (fractionAtLeastHalf x).
    - replace (5 - Z.to_nat (floorOf x))%nat
        with (S (Z.to_nat (5 - floorOf x - 1))) by lia.
      reflexivity.
    - rewrite app_nil_l. f_equal. lia. }
  destruct (G r Hr) as [Hle Hg].
  split; [exact Hg|]. split; [exact Hle|]. split.
  { intros stars Hs. rewrite Hg in Hs. injection Hs as <-.
    rewrite length_app, !length_replicate. subst full. lia. }
  split.
  { intros r' Hr' Hfl. destruct (G r' Hr') as [_ ->]. rewrite Hg, Hfl. reflexivity. }
  repeat split; vm_compute; reflexivity.
Qed.

Lemma generateStars_half_star_is_hollow_witness :
  ratingInRange num_3_5
  /\ floorOf num_3_5 = 3 /\ fractionAtLeastHalf num_3_5 = true
  /\ @generateStars sampleHost num_3_5
     = inl [STAR; STAR; STAR; WHITE_STAR; WHITE_STAR]
  /\ @generateStars sampleHost num_3_5 = @generateStars sampleHost (ofZ 3).
Proof.
  assert (Hr : ratingInRange num_3_5) by (repeat split; reflexivity).
  assert (H3 : ratingInRange (ofZ 3)) by (repeat split; reflexivity).
  split; [exact Hr|]. split; [reflexivity|]. split; [reflexivity|].
  destruct (@generateStars_half_star_is_hollow sampleHost (ofZ 3) H3)
    as (_ & _ & _ & Hsame & _).
  split; [exact (proj1 (@generateStars_half_star_is_hollow sampleHost num_3_5 Hr))|].
  apply Hsame; [exact Hr | reflexivity].
Defined.

(** ** Cards *)

Lemma createProductCard_rate `{Host} (s s' : ProductSearch) (p : Product) :
  usdToInrRate s = usdToInrRate s' ->
  createProductCard s p = createProductCard s' p.
Proof.
  intros Hrate. unfold createProductCard, cardMarkup, formatRupeePrice,
    convertToRupees. rewrite Hrate. reflexivity.
Qed.

Lemma ratingOrZero_in_range (rating : option number) :
  match rating with Some r => ratingInRange r | None => True end ->
  ratingInRange (ratingOrZero rating).
Proof.
  assert (Hz : ratingInRange num_zero) by (repeat split; reflexivity).
  destruct rating as [r|]; simpl; [|intros _; exact Hz].
  intros Hr. destruct (num_truthy r); [exact Hr | exact Hz].
Qed.

Lemma createProductCard_wellFormed `{Host} (this : ProductSearch) (p : Product) :
  wellFormedProduct p ->
  exists c, createProductCard this p = inl c /\ card_click c = p.
Proof.
  intros Hp. unfold createProductCard.
  destruct (generateStars_in_range _ (ratingOrZero_in_range _ Hp)) as (_ & _ & ->).
  eexists. split; reflexivity.
Qed.

Lemma rendersAs_exists `{Host} (this : ProductSearch) (products : list Product) :
  Forall wellFormedProduct products ->
  exists cards, rendersAs this products cards.
Proof.
  induction 1 as [|p l Hp _ [cards IH]].
  - exists []. constructor.
  - destruct (createProductCard_wellFormed this p Hp) as (c & Hc & _).
    exists (c :: cards). constructor; assumption.
Qed.

Lemma rendersAs_products `{Host} (this : ProductSearch)
  (products : list Product) (cards : list Card) :
  rendersAs this products cards -> List.map card_click cards = products.
Proof.
  induction 1 as [|p c l cs Hc _ IH]; simpl; [reflexivity|].
  rewrite IH. f_equal. unfold createProductCard in Hc.
  destruct (generateStars _); [|discriminate]. injection Hc as <-. reflexivity.
Qed.


Lemma rendersAs_rate `{Host} (s s' : ProductSearch)
  (products : list Product) (cards : list Card) :
  usdToInrRate s = usdToInrRate s' ->
  rendersAs s products cards -> rendersAs s' products cards.
Proof.
  intros Hrate Hr. induction Hr; constructor; [|assumption].
  rewrite <- (createProductCard_rate s s') by exact Hrate. assumption.
Qed.

Lemma appendCards_all `{Host} (this : ProductSearch)
  (products : list Product) (cards : list Card) :
  rendersAs this products cards ->
  appendCards this products
  = (set_productGrid (productGrid this ++ cards) this, Normal).
Proof.
  intros Hr.
  assert (G : forall s, usdToInrRate s = usdToInrRate this ->
                appendCards s products
                = (set_productGrid (productGrid s ++ cards) s, Normal)).
  { induction Hr as [|p c l cs Hc _ IH]; intros s Hs.
    - simpl. rewrite app_nil_r. destruct s; reflexivity.
    - simpl. rewrite (createProductCard_rate s this) by exact Hs. rewrite Hc.
      rewrite IH by exact Hs.
      cbn [productGrid set_productGrid]. rewrite <- app_assoc. reflexivity. }
  apply G. reflexivity.
Qed.

Lemma renderProducts_all `{Host} (h : heap) (this : ProductSearch) (a : loc)
  (cards : list Card) :
  rendersAs this (array_get h a) cards ->
  renderProducts (h, this) a = ((h, set_productGrid cards this), Normal).
Proof.
  intros Hr. unfold renderProducts.
  rewrite (appendCards_all (set_productGrid [] this) _ cards).
  - reflexivity.
  - eapply rendersAs_rate; [|exact Hr]. reflexivity.
Qed.

(** ** Showing and re-sorting a result set *)

Lemma array_get_nonempty (h : heap) (a : loc) :
  array_get h a <> [] -> is_Some (h !! a).
Proof.
  unfold array_get. destruct (h !! a); [eauto | intros Hn; contradiction Hn; reflexivity].
Qed.

Lemma length_eqb_nonempty {A} (l : list A) :
  l <> [] -> (length l =? 0)%nat = false.
Proof. destruct l; [congruence | reflexivity]. Qed.

Lemma displayResults_nonempty `{Host} (h : heap) (this : ProductSearch) (a : loc)
  (searchTerm : jsstring) (total : number) (cards : list Card) :
  array_get h a <> [] ->
  rendersAs this (array_get h a) cards ->
  displayResults (h, this) {| data_products := Some a; data_total := total |}
    searchTerm
  = ((h, resultsShown this a searchTerm total cards), Normal).
Proof.
  intros Hne Hr. unfold displayResults. cbn [data_products data_total].
  rewrite length_eqb_nonempty by exact Hne.
  unfold showResults. cbn [currentProducts set_currentProducts].
  rewrite (renderProducts_all _ _ _ cards); [reflexivity|].
  eapply rendersAs_rate; [|exact Hr]. reflexivity.
Qed.







(** ** Numbers: sign and range of rounded results *)

Lemma shr_1_m (mrs : shr_record) :
  0 <= shr_m mrs -> shr_m (shr_1 mrs) = Z.div2 (shr_m mrs).
Proof.
  destruct mrs as [m r s]. destruct m as [|[p|p|]|p]; cbn [shr_m];
    intros Hm; try reflexivity. lia.
Qed.

Lemma iter_shr_1_m (n : positive) (mrs : shr_record) :
  0 <= shr_m mrs ->
  shr_m (SpecFloat.iter_pos shr_1 n mrs) = shr_m mrs / 2 ^ Zpos n.
Proof.
  revert mrs. induction n as [n IH|n IH|]; intros mrs Hm;
    cbn [SpecFloat.iter_pos].
  - assert (H1 : 0 <= shr_m (shr_1 mrs)).
    { rewrite shr_1_m, Z.div2_div by exact Hm. apply Z.div_pos; lia. }
    assert (Hp : 0 < 2 ^ Zpos n) by (apply Z.pow_pos_nonneg; lia).
    assert (H2 : 0 <= shr_m (SpecFloat.iter_pos shr_1 n (shr_1 mrs))).
    { rewrite IH by exact H1. apply Z.div_pos; lia. }
    rewrite IH by exact H2. rewrite IH by exact H1.
    rewrite shr_1_m, Z.div2_div by exact Hm.
    rewrite !Z.div_div by lia. f_equal.
    replace (Zpos n~1) with (1 + Zpos n + Zpos n) by lia.
    rewrite !Z.pow_add_r by lia. lia.
  - assert (Hp : 0 < 2 ^ Zpos n) by (apply Z.pow_pos_nonneg; lia).
    assert (H2 : 0 <= shr_m (SpecFloat.iter_pos shr_1 n mrs)).
    { rewrite IH by exact Hm. apply Z.div_pos; lia. }
    rewrite IH by exact H2. rewrite IH by exact Hm.
    rewrite Z.div_div by lia. f_equal.
    replace (Zpos n~0) with (Zpos n + Zpos n) by lia.
    rewrite Z.pow_add_r by lia. reflexivity.
  - rewrite shr_1_m, Z.div2_div by exact Hm. reflexivity.
Qed.

(** Shifting an exact mantissa to its canonical exponent divides it by a
    power of two. *)
Lemma shr_fexp_exact (m e : Z) :
  0 <= m ->
  let n := Z.max 0 (fexp prec emax (Zdigits2 m + e) - e) in
  shr_m (fst (shr_fexp prec emax m e loc_Exact)) = m / 2 ^ n
  /\ snd (shr_fexp prec emax m e loc_Exact) = e + n.
Proof.
  intros Hm n. unfold shr_fexp, shr. cbn [shr_record_of_loc]. subst n.
  destruct (fexp prec emax (Zdigits2 m + e) - e) as [|p|p]; cbn [fst snd].
  - rewrite Z.max_l by lia. cbn [shr_m]. rewrite Z.pow_0_r, Z.div_1_r. lia.
  - rewrite Z.max_r by lia. rewrite iter_shr_1_m by exact Hm. split; reflexivity.
  - rewrite Z.max_l by lia. cbn [shr_m]. rewrite Z.pow_0_r, Z.div_1_r. lia.
Qed.

Lemma round_nearest_even_bounds (m : Z) (l : location) :
  m <= round_nearest_even m l <= m + 1.
Proof.
  unfold round_nearest_even.
  destruct l as [|[| |]]; try destruct (Z.even m); lia.
Qed.

Lemma Zdigits2_bounds (m : Z) :
  0 < m -> 2 ^ (Zdigits2 m - 1) <= m < 2 ^ Zdigits2 m.
Proof.
  destruct m as [|p|p]; try lia. intros _. apply digits2_pos_bounds.
Qed.

(** The mantissa and the exponent [binary_round_aux] ends with, for an
    exact positive mantissa. *)
Lemma binary_round_aux_exact_cases (s : bool) (m : positive) (e : Z) :
  (exists m' e', binary_round_aux prec emax s (Zpos m) e loc_Exact
                 = S754_finite s m' e'
                 /\ -1074 <= e' <= 971 /\ Zpos m' <= 2 ^ 53)
  \/ binary_round_aux prec emax s (Zpos m) e loc_Exact = S754_infinity s
  \/ (binary_round_aux prec emax s (Zpos m) e loc_Exact = S754_zero s
      /\ e < -1074).
Proof.
  unfold binary_round_aux.
  destruct (shr_fexp_exact (Zpos m) e ltac:(lia)) as [Hm1 He1].
  destruct (shr_fexp prec emax (Zpos m) e loc_Exact) as [mrs1 e1].
  cbn [fst snd] in Hm1, He1.
  set (n1 := Z.max 0 (fexp prec emax (Zdigits2 (Zpos m) + e) - e)) in *.
  set (m2 := round_nearest_even (shr_m mrs1) (loc_of_shr_record mrs1)).
  pose proof (round_nearest_even_bounds (shr_m mrs1) (loc_of_shr_record mrs1)) as Hr.
  fold m2 in Hr.
  pose proof (digits2_pos_bounds m) as [Hlo Hhi].
  cbn [Zdigits2] in n1. set (d := Zpos (digits2_pos m)) in *.
  assert (Hd : 1 <= d) by (subst d; lia).
  assert (Hp1 : 0 < 2 ^ n1) by (apply Z.pow_pos_nonneg; lia).
  assert (Hm1nn : 0 <= shr_m mrs1) by (rewrite Hm1; apply Z.div_pos; lia).
  (* the first shift leaves fewer than 2^53 *)
  assert (Hm1lt : shr_m mrs1 < 2 ^ 53).
  { rewrite Hm1. apply Z.div_lt_upper_bound; [exact Hp1|].
    destruct (Z_le_gt_dec d 53) as [Hle|Hgt].
    - assert (2 ^ d <= 2 ^ 53) by (apply Z.pow_le_mono_r; lia). nia.
    - assert (d - 53 <= n1) by (unfold n1, fexp, emin, prec, emax; lia).
      assert (2 ^ (d - 53) <= 2 ^ n1) by (apply Z.pow_le_mono_r; lia).
      assert (2 ^ d = 2 ^ (d - 53) * 2 ^ 53).
      { rewrite <- Z.pow_add_r by lia. f_equal. lia. }
      assert (0 < 2 ^ 53) by (apply Z.pow_pos_nonneg; lia). nia. }
  assert (He1min : -1074 <= e1).
  { rewrite He1. unfold n1, fexp, emin, prec, emax. lia. }
  assert (Hm2 : 0 <= m2 <= 2 ^ 53) by lia.
  destruct (shr_fexp_exact m2 e1 ltac:(lia)) as [Hm3 He3].
  destruct (shr_fexp prec emax m2 e1 loc_Exact) as [mrs3 e3].
  cbn [fst snd] in Hm3, He3.
  set (n3 := Z.max 0 (fexp prec emax (Zdigits2 m2 + e1) - e1)) in *.
  assert (Hp3 : 0 < 2 ^ n3) by (apply Z.pow_pos_nonneg; lia).
  assert (Hm3b : 0 <= shr_m mrs3 <= 2 ^ 53).
  { rewrite Hm3. split; [apply Z.div_pos; lia|].
    transitivity m2; [|lia]. apply Z.div_le_upper_bound; [lia|]. nia. }
  assert (He3min : -1074 <= e3) by lia.
  destruct (shr_m mrs3) as [|m3|m3] eqn:E3; [| |lia].
  - (* rounded to zero: the exponent was below the least one *)
    right. right. split; [reflexivity|].
    destruct (Z_lt_ge_dec e (-1074)) as [|Hge]; [assumption|exfalso].
    assert (Hn1 : n1 = Z.max 0 (d - 53)) by (unfold n1, fexp, emin, prec, emax; lia).
    assert (H1pos : 1 <= shr_m mrs1).
    { rewrite Hm1. apply Z.div_le_lower_bound; [exact Hp1|].
      assert (2 ^ n1 <= 2 ^ (d - 1)) by (apply Z.pow_le_mono_r; lia). lia. }
    assert (Hm2pos : 0 < m2) by lia.
    pose proof (Zdigits2_bounds m2 Hm2pos) as [Hlo2 Hhi2].
    set (d2 := Zdigits2 m2) in *.
    assert (Hd2 : 1 <= d2).
    { destruct (Z_le_gt_dec 1 d2); [assumption|].
      assert (2 ^ d2 <= 2 ^ 0) by (apply Z.pow_le_mono_r; lia).
      assert (0 <= 2 ^ d2) by (apply Z.pow_nonneg; lia). simpl in *. lia. }
    assert (Hn3 : n3 = Z.max 0 (d2 - 53)) by (unfold n3, fexp, emin, prec, emax; lia).
    assert (1 <= m2 / 2 ^ n3); [|lia].
    apply Z.div_le_lower_bound; [exact Hp3|].
    assert (2 ^ n3 <= 2 ^ (d2 - 1)) by (apply Z.pow_le_mono_r; lia). lia.
  - change (emax - prec) with 971.
    destruct (Z.leb_spec e3 971).
    + left. exists m3, e3. split; [reflexivity|]. lia.
    + right. left. reflexivity.
Qed.

Lemma shl_align_value (m : positive) (e e' : Z) :
  e' <= e ->
  Zpos (fst (shl_align m e e')) = Zpos m * 2 ^ (e - e')
  /\ snd (shl_align m e e') = e'.
Proof.
  intros Hle. unfold shl_align.
  destruct (e' - e) as [|k|k] eqn:Ek; cbn [fst snd].
  - replace (e - e') with 0 by lia. simpl. lia.
  - lia.
  - rewrite iter_xO_value. replace (e - e') with (Zpos k) by lia. lia.
Qed.

(** From the least exponent on, rounding a non-zero mantissa never gives
    zero and keeps the sign. *)
Lemma binary_round_nonzero (s : bool) (m : positive) (e : Z) :
  -1074 <= e ->
  (exists m' e', binary_round prec emax s m e = S754_finite s m' e'
                 /\ -1074 <= e' <= 971 /\ Zpos m' <= 2 ^ 53)
  \/ binary_round prec emax s m e = S754_infinity s.
Proof.
  intros He. unfold binary_round.
  assert (Hez : -1074 <= snd (shl_align m e (fexp prec emax (Zpos (digits2_pos m) + e)))).
  { unfold shl_align.
    destruct (fexp prec emax (Zpos (digits2_pos m) + e) - e) eqn:E; cbn [snd];
      try exact He. unfold fexp, emin, prec, emax in *. lia. }
  destruct (shl_align m e (fexp prec emax (Zpos (digits2_pos m) + e))) as [mz ez].
  cbn [snd] in Hez.
  destruct (binary_round_aux_exact_cases s mz ez) as [Hf|[Hi|[_ Hlt]]];
    [left; exact Hf | right; exact Hi | lia].
Qed.

Lemma keyRank_finite_bounds (m : positive) (e : Z) :
  -1074 <= e <= 971 -> Zpos m <= 2 ^ 53 ->
  0 < Zpos m * 2 ^ (e + 1074) < 2 ^ 2200.
Proof.
  intros He Hm.
  assert (Hp : 0 < 2 ^ (e + 1074)) by (apply Z.pow_pos_nonneg; lia).
  assert (Hq : 2 ^ (e + 1074) <= 2 ^ 2045) by (apply Z.pow_le_mono_r; lia).
  split; [lia|].
  apply Z.le_lt_trans with (2 ^ 53 * 2 ^ 2045).
  - apply Z.mul_le_mono_nonneg; lia.
  - rewrite <- Z.pow_add_r by lia. apply Z.pow_lt_mono_r; lia.
Qed.

(** The sign of a difference of sort keys is the order of their exact
    values. *)
Lemma num_sub_sign (x y : number) :
  isSortKey x -> isSortKey y ->
  num_lt (num_sub x y) num_zero = (keyRank x <? keyRank y).
Proof.
  intros Hx Hy.
  destruct x as [sx|sx| |sx mx ex]; cbn [isSortKey] in Hx; try contradiction;
    destruct y as [sy|sy| |sy my ey]; cbn [isSortKey] in Hy; try contradiction;
    try (destruct Hx as (-> & Hex & Hmx)); try (destruct Hy as (-> & Hey & Hmy));
    subst; cbn [keyRank];
    try pose proof (keyRank_finite_bounds mx ex Hex Hmx) as Hbx;
    try pose proof (keyRank_finite_bounds my ey Hey Hmy) as Hby.
  - destruct sx, sy; reflexivity.
  - cbn. destruct sx; symmetry; apply Z.ltb_lt; apply Z.pow_pos_nonneg; lia.
  - cbn. destruct sx; symmetry; apply Z.ltb_lt; lia.
  - cbn. destruct sy; symmetry; apply Z.ltb_ge; apply Z.pow_nonneg; lia.
  - cbn. symmetry. apply Z.ltb_ge. lia.
  - cbn. symmetry. apply Z.ltb_ge. lia.
  - cbn. destruct sy; symmetry; apply Z.ltb_ge; lia.
  - cbn. symmetry. apply Z.ltb_lt. lia.
  - unfold num_sub, SFsub. cbn [cond_Zopp].
    set (ez := Z.min ex ey).
    destruct (shl_align_value mx ex ez ltac:(lia)) as [Hvx _].
    destruct (shl_align_value my ey ez ltac:(lia)) as [Hvy _].
    set (X := Zpos (fst (shl_align mx ex ez))) in *.
    set (Y := Zpos (fst (shl_align my ey ez))) in *.
    assert (Hpz : 0 < 2 ^ (ez + 1074)) by (apply Z.pow_pos_nonneg; lia).
    assert (Hrx : Zpos mx * 2 ^ (ex + 1074) = X * 2 ^ (ez + 1074)).
    { rewrite Hvx, <- Z.mul_assoc, <- Z.pow_add_r by lia. do 2 f_equal. lia. }
    assert (Hry : Zpos my * 2 ^ (ey + 1074) = Y * 2 ^ (ez + 1074)).
    { rewrite Hvy, <- Z.mul_assoc, <- Z.pow_add_r by lia. do 2 f_equal. lia. }
    rewrite Hrx, Hry. clear Hrx Hry Hbx Hby Hvx Hvy.
    assert (Hlt : X < Y -> X * 2 ^ (ez + 1074) < Y * 2 ^ (ez + 1074))
      by (intros; apply Z.mul_lt_mono_pos_r; assumption).
    assert (Hge : Y <= X -> Y * 2 ^ (ez + 1074) <= X * 2 ^ (ez + 1074))
      by (intros; apply Z.mul_le_mono_nonneg_r; lia).
    destruct (X - Y) as [|p|p] eqn:Ed; cbn [binary_normalize].
    + cbn. symmetry. apply Z.ltb_ge, Hge. lia.
    + destruct (binary_round_nonzero false p ez ltac:(lia))
        as [(m' & e' & -> & _)| ->]; cbn; symmetry; apply Z.ltb_ge, Hge; lia.
    + destruct (binary_round_nonzero true p ez ltac:(lia))
        as [(m' & e' & -> & _)| ->]; cbn; symmetry; apply Z.ltb_lt, Hlt; lia.
Qed.

(** A sort key times the exchange rate is a sort key. *)
Lemma num_mul_sortKey (x : number) :
  isSortKey x -> isSortKey (num_mul x num_83_5).
Proof.
  intros Hx. destruct x as [sx|sx| |sx mx ex]; cbn [isSortKey] in Hx;
    try contradiction.
  - exact I.
  - subst. reflexivity.
  - destruct Hx as (-> & _ & _). unfold num_mul, num_83_5, SFmul. cbn [xorb].
    destruct (binary_round_aux_exact_cases false (mx * 5875790138834944) (ex + -46))
      as [(m' & e' & -> & He & Hm)|[-> |[-> _]]]; cbn [isSortKey]; auto.
Qed.

(** ** Sorting by a key *)

Section SortByRank.
Context {A : Type} (comparefn : A -> A -> number) (rank : A -> Z).

Lemma insertSorted_sorted (x : A) (l : list A) :
  (forall y, In y l -> sortsBefore comparefn x y = (rank x <? rank y)) ->
  StronglySorted (fun a b => rank a <= rank b) l ->
  StronglySorted (fun a b => rank a <= rank b) (insertSorted comparefn x l).
Proof.
  intros Hc Hs. induction Hs as [|y l Hs IH Hy]; simpl.
  - repeat constructor.
  - rewrite (Hc y) by (left; reflexivity).
    destruct (Z.ltb_spec (rank x) (rank y)) as [Hlt|Hge].
    + constructor; [constructor; assumption|].
      constructor; [lia|].
      eapply Forall_impl; [exact Hy|]. cbv beta. intros z Hz. lia.
    + constructor.
      * apply IH. intros z Hz. apply Hc. right. exact Hz.
      * eapply Permutation_Forall.
        -- symmetry. apply insertSorted_perm.
        -- constructor; [lia | exact Hy].
Qed.

Lemma insertSorted_filter (x : A) (l : list A) (k : Z) :
  (forall y, In y l -> sortsBefore comparefn x y = (rank x <? rank y)) ->
  StronglySorted (fun a b => rank a <= rank b) l ->
  List.filter (fun a => rank a =? k) (insertSorted comparefn x l)
  = List.filter (fun a => rank a =? k) l ++ List.filter (fun a => rank a =? k) [x].
Proof.
  intros Hc Hs. induction Hs as [|y l Hs IH Hy]; [reflexivity|].
  cbn [insertSorted]. rewrite (Hc y) by (left; reflexivity).
  destruct (Z.ltb_spec (rank x) (rank y)) as [Hlt|Hge].
  - cbn [List.filter]. destruct (Z.eqb_spec (rank x) k) as [Hk|Hk].
    + destruct (Z.eqb_spec (rank y) k) as [Hyk|_]; [lia|].
      assert (Hn : List.filter (fun a => rank a =? k) l = []).
      { clear - Hy Hlt Hk. induction Hy as [|z l Hz _ IHl]; [reflexivity|].
        cbn [List.filter]. destruct (Z.eqb_spec (rank z) k); [lia | exact IHl]. }
      rewrite Hn. reflexivity.
    + rewrite app_nil_r. reflexivity.
  - cbn [List.filter]. rewrite IH by (intros z Hz; apply Hc; right; exact Hz).
    destruct (rank y =? k); reflexivity.
Qed.

(** With a comparator that orders by [rank], the sort is a stable sort by
    ascending [rank]. *)
Lemma sortList_stable (l : list A) :
  (forall x y, In x l -> In y l ->
               sortsBefore comparefn x y = (rank x <? rank y)) ->
  stablySortedBy rank l (sortList comparefn l).
Proof.
  intros Hc. unfold sortList.
  assert (G : forall rest done acc,
             l = done ++ rest ->
             stablySortedBy rank done acc ->
             stablySortedBy rank (done ++ rest)
               (fold_left (fun acc x => insertSorted comparefn x acc) rest acc)).
  { induction rest as [|x rest IH]; intros done acc Hl (Hp & Hs & Hf).
    - rewrite app_nil_r. simpl. repeat split; assumption.
    - simpl. replace (done ++ x :: rest) with ((done ++ [x]) ++ rest)
        by (rewrite <- app_assoc; reflexivity).
      assert (Hin : forall y, In y acc ->
                      sortsBefore comparefn x y = (rank x <? rank y)).
      { intros y Hy. apply Hc; rewrite Hl, in_app_iff.
        - right. left. reflexivity.
        - left. eapply Permutation_in; [exact Hp | exact Hy]. }
      apply IH; [rewrite <- app_assoc; exact Hl|].
      split; [|split].
      + rewrite insertSorted_perm, Hp. apply Permutation_cons_append.
      + apply insertSorted_sorted; assumption.
      + intros k. rewrite insertSorted_filter by assumption.
        rewrite Hf, List.filter_app. reflexivity. }
  apply (G l [] []); [reflexivity|].
  repeat split; [reflexivity | constructor].
Qed.

(** A list has one stable sort by [rank]: whatever stable algorithm the
    engine runs, it returns the list [sortList] returns. *)
Lemma stablySortedBy_unique (l o1 o2 : list A) :
  stablySortedBy rank l o1 -> stablySortedBy rank l o2 -> o1 = o2.
Proof.
  intros (_ & Hs1 & Hf1) (_ & Hs2 & Hf2).
  assert (Hf : forall k, List.filter (fun a => rank a =? k) o1
                         = List.filter (fun a => rank a =? k) o2)
    by (intros k; rewrite Hf1, Hf2; reflexivity).
  clear Hf1 Hf2 l. revert o2 Hs2 Hf.
  induction Hs1 as [|x o1 Hs1 IH Hx]; intros o2 Hs2 Hf.
  - destruct o2 as [|y o2]; [reflexivity|].
    specialize (Hf (rank y)). cbn [List.filter] in Hf.
    rewrite Z.eqb_refl in Hf. discriminate.
  - destruct o2 as [|y o2].
    { specialize (Hf (rank x)). cbn [List.filter] in Hf.
      rewrite Z.eqb_refl in Hf. discriminate. }
    inversion Hs2 as [|? ? Hs2' Hy]; subst.
    assert (Hxy : rank x = rank y).
    { assert (Hin1 : In x (y :: o2)).
      { apply (proj1 (List.filter_In (fun a => rank a =? rank x) x (y :: o2))).
        rewrite <- Hf. cbn [List.filter]. rewrite Z.eqb_refl. left. reflexivity. }
      assert (Hin2 : In y (x :: o1)).
      { apply (proj1 (List.filter_In (fun a => rank a =? rank y) y (x :: o1))).
        rewrite Hf. cbn [List.filter]. rewrite Z.eqb_refl. left. reflexivity. }
      rewrite List.Forall_forall in Hx, Hy.
      destruct Hin1 as [<-|Hin1]; [reflexivity|].
      destruct Hin2 as [<-|Hin2]; [reflexivity|].
      specialize (Hx _ Hin2). specialize (Hy _ Hin1). lia. }
    pose proof (Hf (rank x)) as Hk. cbn [List.filter] in Hk.
    rewrite Z.eqb_refl, (proj2 (Z.eqb_eq (rank y) (rank x)) (eq_sym Hxy)) in Hk.
    injection Hk as <- Hk.
    f_equal. apply IH; [exact Hs2'|].
    intros k. specialize (Hf k). cbn [List.filter] in Hf.
    destruct (rank x =? k); [injection Hf as Hf|]; exact Hf.
Qed.

End SortByRank.

Lemma wellFormed_rating_sortKey (p : Product) :
  wellFormedProduct p -> isSortKey (ratingOrZero (p_rating p)).
Proof.
  intros Hp. pose proof (ratingOrZero_in_range _ Hp) as Hr.
  destruct (ratingInRange_shape _ Hr) as [[s ->]|(m & e & -> & He & Hm & _)].
  - exact I.
  - cbn. split; [reflexivity|]. lia.
Qed.

(** The three comparators order by the exact value of the converted price,
    ascending or descending, and by the exact rating, descending. *)
Lemma sortProducts_by_rank (this : ProductSearch) (h : heap) (a : loc) :
  usdToInrRate this = num_83_5 ->
  let P := array_get h a in
  let sorted (o : SortOrder) :=
    array_get (fst (sortProducts this h a (sortValue o))) a in
  (Forall (fun p => isSortKey (p_price p)) P ->
   stablySortedBy (priceRank this) P (sorted PriceAscending)
   /\ stablySortedBy (fun p => - priceRank this p) P (sorted PriceDescending))
  /\ (Forall wellFormedProduct P ->
      stablySortedBy (fun p => - ratingRank p) P (sorted RatingDescending))
  /\ sorted Relevance = P.
Proof.
  intros Hrate P sorted.
  assert (Hkey : forall p, isSortKey (p_price p) ->
                   isSortKey (convertToRupees this (p_price p))).
  { intros p Hp. unfold convertToRupees. rewrite Hrate. apply num_mul_sortKey, Hp. }
  split; [|split; [|reflexivity]].
  - intros Hprices. rewrite List.Forall_forall in Hprices. split.
    + subst sorted. cbv beta. change (sortProducts this h a (sortValue PriceAscending))
        with (Array_sort (fun x y => num_sub (convertToRupees this (p_price x))
                                       (convertToRupees this (p_price y))) h a).
      rewrite array_get_sort, decide_True by reflexivity.
      apply sortList_stable. intros x y Hx Hy. unfold sortsBefore, priceRank.
      apply num_sub_sign; apply Hkey, Hprices; assumption.
    + subst sorted. cbv beta. change (sortProducts this h a (sortValue PriceDescending))
        with (Array_sort (fun x y => num_sub (convertToRupees this (p_price y))
                                       (convertToRupees this (p_price x))) h a).
      rewrite array_get_sort, decide_True by reflexivity.
      apply sortList_stable. intros x y Hx Hy. unfold sortsBefore, priceRank.
      rewrite num_sub_sign by (apply Hkey, Hprices; assumption).
      destruct (Z.ltb_spec (keyRank (convertToRupees this (p_price y)))
                  (keyRank (convertToRupees this (p_price x))));
        symmetry; [apply Z.ltb_lt | apply Z.ltb_ge]; lia.
  - intros Hwf. rewrite List.Forall_forall in Hwf.
    subst sorted. cbv beta. change (sortProducts this h a (sortValue RatingDescending))
      with (Array_sort (fun x y => num_sub (ratingOrZero (p_rating y))
                                     (ratingOrZero (p_rating x))) h a).
    rewrite array_get_sort, decide_True by reflexivity.
    apply sortList_stable. intros x y Hx Hy. unfold sortsBefore, ratingRank.
    rewrite num_sub_sign by (apply wellFormed_rating_sortKey, Hwf; assumption).
    destruct (Z.ltb_spec (keyRank (ratingOrZero (p_rating y)))
                (keyRank (ratingOrZero (p_rating x))));
      symmetry; [apply Z.ltb_lt | apply Z.ltb_ge]; lia.
Qed.

Lemma wellFormed_canned : Forall wellFormedProduct [productA; productB].
Proof. repeat constructor; reflexivity. Qed.

Lemma allocBody_products (h : heap) (P : list Product) (total : number) :
  exists a,
    allocBody h {| body_products := Some P; body_total := total |}
    = (fst (array_alloc h P), {| data_products := Some a; data_total := total |})
    /\ array_get (fst (array_alloc h P)) a = P.
Proof.
  exists (snd (array_alloc h P)). split; [|apply array_get_alloc].
  unfold allocBody. cbn [body_products body_total].
  destruct (array_alloc h P); reflexivity.
Qed.



(** An answer without products leaves [currentProducts] as it was. *)
Lemma displayResults_empty_keeps_currentProducts `{Host}
  (h : heap) (this : ProductSearch) (a : loc) (searchTerm : jsstring)
  (total : number) :
  array_get h a = [] ->
  let after :=
    fst (displayResults (h, this)
           {| data_products := Some a; data_total := total |} searchTerm) in
  fst after = h /\ currentProducts (snd after) = currentProducts this.
Proof.
  intros He after. subst after. unfold displayResults.
  cbn [data_products]. rewrite He. split; reflexivity.
Qed.


(** *** The array a sort works on *)

Lemma appendCards_currentProducts `{Host} (this : ProductSearch)
  (products : list Product) :
  currentProducts (fst (appendCards this products)) = currentProducts this.
Proof.
  revert this. induction products as [|p l IH]; intros this; simpl; [reflexivity|].
  destruct (createProductCard this p); [|reflexivity].
  rewrite IH. reflexivity.
Qed.

Lemma renderProducts_frame `{Host} (h : heap) (this : ProductSearch) (a : loc) :
  fst (fst (renderProducts (h, this) a)) = h
  /\ currentProducts (snd (fst (renderProducts (h, this) a))) = currentProducts this.
Proof.
  unfold renderProducts.
  pose proof (appendCards_currentProducts (set_productGrid [] this) (array_get h a)) as Hc.
  destruct (appendCards (set_productGrid [] this) (array_get h a)) as [s c].
  cbn [fst snd] in *. split; [reflexivity | exact Hc].
Qed.

(** C3, as stated, fails: [sortProducts] sorts the array it is given, so
    after the call that array is in the sorted order. *)
Lemma sortProducts_mutates_argument :
  let fetched := array_alloc (fst freshWorld) [productA; productB] in
  let h := fst fetched in
  let a := snd fetched in
  array_get h a = [productA; productB]
  /\ array_get (fst (sortProducts (snd freshWorld) h a (lit "price-low"))) a
     = [productB; productA]
  /\ array_get (fst (sortProducts (snd freshWorld) h a (lit "price-low"))) a
     <> array_get h a.
Proof.
  intros fetched h a.
  assert (H1 : array_get h a = [productA; productB]) by (vm_compute; reflexivity).
  assert (H2 : array_get (fst (sortProducts (snd freshWorld) h a (lit "price-low"))) a
               = [productB; productA]) by (vm_compute; reflexivity).
  split; [exact H1|]. split; [exact H2|].
  rewrite H1, H2. discriminate.
Qed.

(** C3, amended. [sortProducts] returns the array it was given: for the
    three sorting orders that array is sorted in place (its elements are
    permuted, no other array changes; for prices and ratings of the data
    model the array ends stably sorted by the key of the order), for any
    other order it is untouched.  The result depends on the array, the
    order and the exchange rate only.  [handleSortChange] hands it a fresh
    copy, so the array held in [currentProducts] keeps its elements and
    their order. *)
Theorem sortProducts_sorts_in_place `{Host}
  (this : ProductSearch) (h : heap) (a : loc) (sortType : jsstring) :
  snd (sortProducts this h a sortType) = a
  /\ Permutation (array_get (fst (sortProducts this h a sortType)) a)
       (array_get h a)
  /\ (forall b, a <> b ->
        array_get (fst (sortProducts this h a sortType)) b = array_get h b)
  /\ (sortType <> lit "price-low" -> sortType <> lit "price-high" ->
      sortType <> lit "rating" ->
        sortProducts this h a sortType = (h, a))
  /\ (usdToInrRate this = num_83_5 ->
      Forall (fun p => isSortKey (p_price p)) (array_get h a) ->
      Forall wellFormedProduct (array_get h a) ->
      forall o, sortType = sortValue o ->
        stablySortedBy (orderRank this o) (array_get h a)
          (array_get (fst (sortProducts this h a sortType)) a))
  /\ (forall this', usdToInrRate this' = usdToInrRate this ->
        sortProducts this' h a sortType = sortProducts this h a sortType)
  /\ (forall h', array_get h' a = array_get h a ->
        array_get (fst (sortProducts this h' a sortType)) a
        = array_get (fst (sortProducts this h a sortType)) a)
  /\ currentProducts (snd (fst (sortChange sortType (h, this))))
     = currentProducts this
  /\ array_get (fst (fst (sortChange sortType (h, this)))) (currentProducts this)
     = array_get h (currentProducts this).
Proof.
  split; [apply sortProducts_returns_argument|].
  split; [apply sortProducts_perm|].
  split; [intros b Hb; apply sortProducts_other; exact Hb|].
  split.
  { intros H1 H2 H3. unfold sortProducts.
    rewrite !bool_decide_eq_false_2 by assumption. reflexivity. }
  split.
  { intros Hrate Hkey Hwf o ->.
    destruct (sortProducts_by_rank this h a Hrate) as (Hp & Hr & Hn).
    cbv zeta in Hp, Hr, Hn.
    destruct o; cbn [orderRank].
    - rewrite Hn. split; [reflexivity|]. split; [|reflexivity].
      generalize (array_get h a). intros l.
      induction l as [|p l IH]; constructor; [exact IH|].
      apply List.Forall_forall. intros q _. cbn [orderRank]. lia.
    - exact (proj1 (Hp Hkey)).
    - exact (proj2 (Hp Hkey)).
    - exact (Hr Hwf). }
  split.
  { intros this' Hrate. unfold sortProducts, convertToRupees.
    rewrite Hrate. reflexivity. }
  split.
  { intros h' Hh. rewrite !sortProducts_comparator.
    destruct (comparatorOf this sortType) as [c|]; [|exact Hh].
    rewrite !array_get_sort, !decide_True by reflexivity.
    rewrite Hh. reflexivity. }
  unfold sortChange, handleSortChange.
  cbn [currentProducts set_sortSelect_value sortSelect_value].
  set (a0 := currentProducts this).
  set (this1 := set_sortSelect_value sortType this).
  destruct (length (array_get h a0) =? 0)%nat eqn:El; [split; reflexivity|].
  assert (Hne : array_get h a0 <> []).
  { intros He. rewrite He in El. discriminate. }
  unfold array_spread.
  pose proof (array_alloc_fresh h (array_get h a0)) as Hfresh.
  pose proof (array_get_alloc_other h (array_get h a0) a0
                (array_get_nonempty _ _ Hne)) as Hother.
  destruct (array_alloc h (array_get h a0)) as [h1 c]. cbn [fst snd] in *.
  assert (Hca : c <> a0).
  { intros ->. destruct (array_get_nonempty _ _ Hne) as [? Hs].
    rewrite Hfresh in Hs. discriminate. }
  pose proof (sortProducts_returns_argument this1 h1 c sortType) as Hret.
  pose proof (sortProducts_other this1 h1 c a0 sortType Hca) as Hso.
  destruct (sortProducts this1 h1 c sortType) as [h2 r]. cbn [fst snd] in *.
  destruct (renderProducts_frame h2 this1 r) as [Hh Hc]. rewrite Hh, Hc.
  split; [reflexivity|]. rewrite Hso. exact Hother.
Qed.

Lemma sortProducts_sorts_in_place_witness :
  let fetched := array_alloc (fst freshWorld) [productA; productB] in
  let h := fst fetched in
  let a := snd fetched in
  let this := snd freshWorld in
  array_get h a = [productA; productB]
  /\ array_get (fst (sortProducts this h a (lit "price-low"))) a
     = [productB; productA]
  /\ stablySortedBy (orderRank this PriceAscending) (array_get h a)
       (array_get (fst (sortProducts this h a (lit "price-low"))) a).
Proof.
  intros fetched h a this.
  assert (Hget : array_get h a = [productA; productB]) by (vm_compute; reflexivity).
  split; [exact Hget|]. split; [vm_compute; reflexivity|].
  destruct (@sortProducts_sorts_in_place sampleHost this h a (lit "price-low"))
    as (_ & _ & _ & _ & Hsorted & _).
  apply (Hsorted eq_refl); [| |reflexivity]; rewrite Hget.
  - repeat constructor; vm_compute; repeat split; congruence.
  - repeat constructor; vm_compute; repeat split; reflexivity.
Defined.

(** C4. [sortProducts] orders by the stated keys: with the exchange rate
    83.5, price-low is a stable sort by ascending converted price,
    price-high by descending converted price, rating a stable sort by
    descending rating with an absent rating counted as 0, and relevance
    keeps the order.  On the canned response price-ascending and
    rating-descending give [B, A] and relevance gives [A, B]. *)
Theorem sortProducts_orders_by_key :
  (forall (this : ProductSearch) (h : heap) (a : loc),
     usdToInrRate this = num_83_5 ->
     let P := array_get h a in
     let sorted (o : SortOrder) :=
       array_get (fst (sortProducts this h a (sortValue o))) a in
     (Forall (fun p => isSortKey (p_price p)) P ->
      stablySortedBy (priceRank this) P (sorted PriceAscending)
      /\ stablySortedBy (fun p => - priceRank this p) P (sorted PriceDescending))
     /\ (Forall wellFormedProduct P ->
         stablySortedBy (fun p => - ratingRank p) P (sorted RatingDescending))
     /\ sorted Relevance = P)
  /\ usdToInrRate (snd freshWorld) = num_83_5
  /\ ratingOrZero None = num_zero
  /\ (let this := snd freshWorld in
      let sorted (o : SortOrder) :=
        let fetched := array_alloc (fst freshWorld) [productA; productB] in
        let r := sortProducts this (fst fetched) (snd fetched) (sortValue o) in
        array_get (fst r) (snd r) in
      sorted PriceAscending = [productB; productA]
      /\ sorted RatingDescending = [productB; productA]
      /\ sorted Relevance = [productA; productB]
      /\ sorted PriceDescending = [productA; productB]
      /\ convertToRupees this (p_price productA) = ofZ 835).
Proof.
  split; [exact sortProducts_by_rank|].
  split; [reflexivity|]. split; [reflexivity|].
  intros this sorted. repeat split; vm_compute; reflexivity.
Qed.

Lemma sortProducts_orders_by_key_witness :
  let this := snd freshWorld in
  let fetched := array_alloc (fst freshWorld) [productA; productB] in
  let P := array_get (fst fetched) (snd fetched) in
  usdToInrRate this = num_83_5
  /\ Forall (fun p => isSortKey (p_price p)) P
  /\ stablySortedBy (priceRank this) P
       (array_get (fst (sortProducts this (fst fetched) (snd fetched)
                          (sortValue PriceAscending))) (snd fetched)).
Proof.
  intros this fetched P.
  assert (Hr : usdToInrRate this = num_83_5) by reflexivity.
  assert (Hp : Forall (fun p => isSortKey (p_price p)) P).
  { repeat constructor; vm_compute; intros Hc; discriminate Hc. }
  split; [exact Hr|]. split; [exact Hp|].
  exact (proj1 (proj1 (proj1 sortProducts_orders_by_key this (fst fetched)
                         (snd fetched) Hr) Hp)).
Defined.

(** ** Markup of a card *)

Lemma escapeChar_no_angle (c : N) :
  Forall (fun x => x <> 60%N /\ x <> 62%N) (escapeChar c).
Proof.
  unfold escapeChar.
  destruct (N.eqb_spec c 38); [repeat constructor; discriminate|].
  destruct (N.eqb_spec c 160); [repeat constructor; discriminate|].
  destruct (N.eqb_spec c 60); [repeat constructor; discriminate|].
  destruct (N.eqb_spec c 62); [repeat constructor; discriminate|].
  repeat constructor; assumption.
Qed.

(** What [escapeHtml] returns holds neither [<] nor [>]. *)
Lemma escapeHtml_no_angle (text : jsstring) :
  Forall (fun x => x <> 60%N /\ x <> 62%N) (escapeHtml text).
Proof.
  unfold escapeHtml, serializeText.
  induction text as [|c text IH]; simpl; [constructor|].
  apply Forall_app. split; [apply escapeChar_no_angle | exact IH].
Qed.

(** The heading and the description of a card are escaped, the [alt]
    attribute holds the title as it is. *)
Lemma cardMarkup_title `{Host} (this : ProductSearch) (product : Product)
  (rating : number) (stars : jsstring) :
  exists pre mid post,
    cardMarkup this product rating stars
    = pre ++ (lit "alt=" ++ dquote ++ p_title product ++ dquote)
        ++ mid ++ (lit ">" ++ escapeHtml (p_title product) ++ lit "</h3>")
        ++ post.
Proof.
  unfold cardMarkup.
  exists (nl 12 ++ lit "<img" ++ nl 16 ++ lit "src=" ++ dquote
            ++ cardImage product ++ dquote ++ nl 16).
  exists (nl 16 ++ lit "class=" ++ dquote ++ lit "product-image" ++ dquote
            ++ nl 16 ++ lit "onerror=" ++ dquote
            ++ lit "this.src='https://via.placeholder.com/280x200?text=No+Image'"
            ++ dquote ++ nl 12 ++ lit ">" ++ nl 12 ++ lit "<div class=" ++ dquote
            ++ lit "product-info" ++ dquote ++ lit ">" ++ nl 16
            ++ lit "<h3 class=" ++ dquote ++ lit "product-title" ++ dquote).
  eexists. rewrite <- !app_assoc. reflexivity.
Qed.

Lemma scriptJs_cardMarkup_title `{Host} (product : Product)
  (rating : number) (stars : jsstring) :
  exists pre post,
    ScriptJs.cardMarkup product rating stars
    = pre ++ (lit "alt=" ++ dquote ++ p_title product ++ dquote) ++ post.
Proof.
  unfold ScriptJs.cardMarkup.
  exists (nl 12 ++ lit "<img " ++ nl 16 ++ lit "src=" ++ dquote
            ++ cardImage product ++ dquote ++ lit " " ++ nl 16).
  eexists. rewrite <- !app_assoc. reflexivity.
Qed.

(** C5, on a product whose title is a double quote followed by
    [><script>alert(1)</script>]: the card is built, and its markup holds
    the title unescaped inside the [alt] attribute, markup included,
    although [escapeHtml] of the same title holds no [<]. *)
Theorem createProductCard_alt_unescaped `{Host} (this : ProductSearch) :
  exists card pre post,
    createProductCard this productWithMarkup = inl card
    /\ card_innerHTML card
       = pre ++ (lit "alt=" ++ dquote ++ markupTitle ++ dquote) ++ post
    /\ includes (card_innerHTML card)
         (lit "alt=" ++ dquote ++ dquote ++ lit "><script>alert(1)</script>")
       = true
    /\ includes (escapeHtml markupTitle) (lit "<") = false.
Proof.
  destruct (cardMarkup_title this productWithMarkup num_zero
              [WHITE_STAR; WHITE_STAR; WHITE_STAR; WHITE_STAR; WHITE_STAR])
    as (pre & mid & post & Hm).
  set (markup := cardMarkup this productWithMarkup num_zero
                   [WHITE_STAR; WHITE_STAR; WHITE_STAR; WHITE_STAR; WHITE_STAR])
    in *.
  exists {| card_className := lit "product-card"; card_cursor := lit "pointer";
            card_innerHTML := markup; card_click := productWithMarkup |}.
  exists pre. eexists.
  split; [reflexivity|]. cbn [card_innerHTML].
  split; [exact Hm|].
  split; [|vm_compute; reflexivity].
  rewrite Hm.
  change (lit "alt=" ++ dquote ++ p_title productWithMarkup ++ dquote)
    with ((lit "alt=" ++ dquote ++ dquote ++ lit "><script>alert(1)</script>")
            ++ dquote).
  rewrite <- (app_assoc _ dquote). apply includes_app.
Qed.

(** ** A new search *)

Lemma handleSearch_submit_valid (this this1 : ProductSearch) (q : jsstring) :
  handleSearch_submit this = (this1, Some q) ->
  this1 = showLoading (clearError (set_currentSearchTerm q this)).
Proof.
  unfold handleSearch_submit.
  rewrite validateSearchInput_cases.
  destruct (length (trim (trim (searchInput_value this)))) as [|[|n]]; cbn;
    intros Hs; try discriminate.
  injection Hs as <- <-. reflexivity.
Qed.

(** C10. A submission that passes validation resets the sort control to
    [relevance] and clears the grid before the request is answered, whatever
    order was selected before; when the answer holds products they are
    rendered in the server's order, with the sort control still at
    [relevance].  The order rendered is the server's from whatever state
    [mid] the answer finds the page in. *)
Theorem handleSearch_resets_sort `{Host}
  (h : heap) (this this1 : ProductSearch) (net : jsstring -> FetchOutcome)
  (q url statusText : jsstring) (status : N) (P : list Product) (total : number) :
  handleSearch_submit this = (this1, Some q) ->
  searchProducts_url this1 q = Some url ->
  net url = Response status statusText
              (Json {| body_products := Some P; body_total := total |}) ->
  response_ok status = true ->
  P <> [] ->
  Forall wellFormedProduct P ->
  let w' := handleSearch (h, this) net in
  sortSelect_value this1 = lit "relevance"
  /\ productGrid this1 = []
  /\ view this1 = Some Loading
  /\ rendersAs this P (productGrid (snd w'))
  /\ List.map card_click (productGrid (snd w')) = P
  /\ sortSelect_value (snd w') = lit "relevance"
  /\ view (snd w') = Some Results
  /\ array_get (fst w') (currentProducts (snd w')) = P
  /\ forall mid : world,
       let fetched :=
         allocBody (fst mid) {| body_products := Some P; body_total := total |} in
       rendersAs (snd mid) P
         (productGrid
            (snd (handleSearch_settle (fst fetched, snd mid) q (inl (snd fetched))))).
Proof.
  intros Hsub Hurl Hnet Hok Hne Hwf w'.
  pose proof (handleSearch_submit_valid _ _ _ Hsub) as H1.
  destruct (allocBody_products h P total) as (a & Hal & Hget).
  destruct (rendersAs_exists this1 P Hwf) as [cards Hcards].
  assert (Hw : w' = (fst (array_alloc h P), resultsShown this1 a q total cards)).
  { subst w'. unfold handleSearch. rewrite Hsub.
    unfold searchProducts. rewrite Hurl, Hnet, Hok. cbn [negb].
    rewrite Hal. unfold handleSearch_settle.
    rewrite (displayResults_nonempty _ _ _ _ _ cards); [reflexivity | |];
      rewrite Hget; assumption. }
  assert (Hr : rendersAs this P cards).
  { eapply rendersAs_rate; [|exact Hcards]. rewrite H1. reflexivity. }
  rewrite Hw. cbn [fst snd]. rewrite H1.
  split; [reflexivity|]. split; [reflexivity|]. split; [reflexivity|].
  split; [exact Hr|].
  split; [exact (rendersAs_products _ _ _ Hr)|].
  split; [reflexivity|]. split; [reflexivity|]. split; [exact Hget|].
  intros [hm mid]. cbn [fst snd] in *.
  destruct (allocBody_products hm P total) as (am & Halm & Hgetm).
  rewrite Halm. cbn [fst snd]. unfold handleSearch_settle.
  destruct (rendersAs_exists mid P Hwf) as [cardsm Hcardsm].
  rewrite (displayResults_nonempty _ _ _ _ _ cardsm);
    [| rewrite Hgetm; assumption | rewrite Hgetm; assumption].
  cbn [snd]. eapply rendersAs_rate; [|exact Hcardsm]. reflexivity.
Qed.

Lemma handleSearch_resets_sort_witness :
  let before :=
    set_sortSelect_value (lit "price-low")
      (set_searchInput_value (lit "phone") (snd freshWorld)) in
  let w' := @handleSearch sampleHost (fst freshWorld, before) (respondWith cannedBody) in
  sortSelect_value before = lit "price-low"
  /\ List.map card_click (productGrid (snd w')) = [productA; productB]
  /\ sortSelect_value (snd w') = lit "relevance".
Proof.
  intros before w'.
  split; [reflexivity|].
  pose proof (@handleSearch_resets_sort sampleHost (fst freshWorld) before
                (fst (handleSearch_submit before)) (respondWith cannedBody)
                (lit "phone")
                (lit "https://dummyjson.com/products/search?q=phone&limit=50")
                (lit "OK") 200%N [productA; productB] (ofZ 2)
                eq_refl eq_refl eq_refl eq_refl
                ltac:(discriminate) wellFormed_canned)
    as (_ & _ & _ & _ & Hm & Hs & _).
  split; [exact Hm | exact Hs].
Defined.

(** * Further properties *)

(** ** Validation and the trimmed text *)

Lemma trimStart_skip (pre s : jsstring) :
  allWhiteSpace pre -> trimStart (pre ++ s) = trimStart s.
Proof.
  induction 1 as [|c pre Hc _ IH]; simpl; [reflexivity|].
  rewrite Hc. exact IH.
Qed.

Lemma trimStart_allWhiteSpace (s : jsstring) :
  allWhiteSpace s -> trimStart s = [].
Proof.
  intros Hs. rewrite <- (app_nil_r s), trimStart_skip by exact Hs. reflexivity.
Qed.

(** The text between white space at both ends is what [trim] returns. *)
Lemma trim_unique (pre core post : jsstring) :
  allWhiteSpace pre -> allWhiteSpace post ->
  noLeadingSpace core -> noLeadingSpace (rev core) ->
  trim (pre ++ core ++ post) = core.
Proof.
  intros Hpre Hpost Hc Hr. unfold trim.
  rewrite trimStart_skip by exact Hpre.
  destruct core as [|x core].
  - simpl. rewrite trimStart_allWhiteSpace by exact Hpost. reflexivity.
  - assert (Hs : trimStart ((x :: core) ++ post) = (x :: core) ++ post).
    { apply trimStart_fixed. exact Hc. }
    rewrite Hs. unfold trimEnd. rewrite rev_app_distr.
    rewrite trimStart_skip by (apply Forall_rev; exact Hpost).
    rewrite trimStart_fixed by exact Hr. apply rev_involutive.
Qed.

Lemma trim_padding (pre s post : jsstring) :
  allWhiteSpace pre -> allWhiteSpace post ->
  trim (pre ++ s ++ post) = trim s.
Proof.
  intros Hpre Hpost.
  destruct (trim_spec s) as (a & b & Hs & Ha & Hb & Hn & Hr).
  rewrite Hs at 1.
  replace (pre ++ (a ++ trim s ++ b) ++ post)
    with ((pre ++ a) ++ trim s ++ (b ++ post))
    by (rewrite <- !app_assoc; reflexivity).
  apply trim_unique; try assumption; apply Forall_app; split; assumption.
Qed.

(** White space around the typed text changes neither the verdict of the
    validation nor the term that is searched; text of white space only is
    rejected as empty. *)
Theorem validation_ignores_padding
  (this : ProductSearch) (pre raw post : jsstring) :
  allWhiteSpace pre -> allWhiteSpace post ->
  validateSearchInput this (pre ++ raw ++ post) = validateSearchInput this raw
  /\ snd (handleSearch_submit (set_searchInput_value (pre ++ raw ++ post) this))
     = snd (handleSearch_submit (set_searchInput_value raw this))
  /\ validateSearchInput this (pre ++ post)
     = (showError (errorText EmptyQuery) this, false).
Proof.
  intros Hpre Hpost.
  assert (Ht : trim (pre ++ raw ++ post) = trim raw) by (apply trim_padding; assumption).
  split; [|split].
  - rewrite !validateSearchInput_cases, Ht. reflexivity.
  - unfold handleSearch_submit. cbn [searchInput_value set_searchInput_value].
    rewrite Ht, !validateSearchInput_cases.
    destruct (length (trim (trim raw))) as [|[|n]]; reflexivity.
  - rewrite validateSearchInput_cases.
    replace (pre ++ post) with (pre ++ [] ++ post) by reflexivity.
    rewrite trim_padding by assumption. reflexivity.
Qed.

Lemma validation_ignores_padding_witness :
  allWhiteSpace (lit "  ") /\ allWhiteSpace [9%N; 160%N]
  /\ snd (handleSearch_submit
            (set_searchInput_value (lit "  " ++ lit "usb c" ++ [9%N; 160%N]) blankPage))
     = Some (lit "usb c").
Proof.
  assert (H1 : allWhiteSpace (lit "  ")) by (repeat constructor).
  assert (H2 : allWhiteSpace [9%N; 160%N]) by (repeat constructor).
  split; [exact H1|]. split; [exact H2|].
  rewrite (proj1 (proj2 (validation_ignores_padding blankPage _ (lit "usb c") _ H1 H2))).
  reflexivity.
Defined.

(** A submission that fails validation sends no request and changes only
    the inline message, the error class and the focus of the input: the
    grid, the view, the sort control, the current term and the current
    products stay as they were. *)
Theorem rejected_submission_changes_nothing_else `{Host}
  (h : heap) (this : ProductSearch) (net : jsstring -> FetchOutcome) :
  (length (trim (searchInput_value this)) < 2)%nat ->
  let w' := handleSearch (h, this) net in
  fst w' = h
  /\ snd w'
     = showError (errorText (match length (trim (searchInput_value this)) with
                             | O => EmptyQuery
                             | _ => TooShort
                             end)) this
  /\ productGrid (snd w') = productGrid this
  /\ view (snd w') = view this
  /\ sortSelect_value (snd w') = sortSelect_value this
  /\ currentSearchTerm (snd w') = currentSearchTerm this
  /\ currentProducts (snd w') = currentProducts this
  /\ errorMessage_show (snd w') = true
  /\ searchInput_focused (snd w') = true.
Proof.
  intros Hlen w'.
  assert (Hw : w' = (h, showError (errorText (match length (trim (searchInput_value this)) with
                                              | O => EmptyQuery
                                              | _ => TooShort
                                              end)) this)).
  { subst w'. unfold handleSearch, handleSearch_submit.
    rewrite validateSearchInput_cases, trim_idempotent.
    destruct (length (trim (searchInput_value this))) as [|[|n]]; [reflexivity..|lia]. }
  rewrite Hw. cbn [fst snd]. repeat split; reflexivity.
Qed.

Lemma rejected_submission_changes_nothing_else_witness :
  let this := set_searchInput_value (lit " a ") (snd freshWorld) in
  (length (trim (searchInput_value this)) < 2)%nat
  /\ errorMessage_textContent
       (snd (@handleSearch sampleHost (fst freshWorld, this) (respondWith cannedBody)))
     = lit "Search term must be at least 2 characters long".
Proof.
  intros this.
  assert (Hl : (length (trim (searchInput_value this)) < 2)%nat) by (vm_compute; lia).
  split; [exact Hl|].
  rewrite (proj1 (proj2 (@rejected_submission_changes_nothing_else sampleHost
                           (fst freshWorld) this (respondWith cannedBody) Hl))).
  reflexivity.
Defined.

(** ** How a search ends *)

Lemma awaiting_view (q : jsstring) (this : ProductSearch) (message : exn) :
  view (showErrorState message (awaiting q this)) = Some ErrorState
  /\ errorText_textContent (showErrorState message (awaiting q this)) = message
  /\ productGrid (showErrorState message (awaiting q this)) = []
  /\ currentProducts (showErrorState message (awaiting q this))
     = currentProducts this.
Proof. repeat split; reflexivity. Qed.

(** A search whose answer never arrives as products ends in the error view
    with the underlying message: the rejection of [fetch], the syntax error
    of [response.json()], or the [URIError] of a query with an unpaired
    surrogate, for which no request is made at all.  The grid stays empty
    and the list in [currentProducts] is the one held before. *)
Theorem failed_search_shows_underlying_message `{Host}
  (h : heap) (this this1 : ProductSearch) (net : jsstring -> FetchOutcome)
  (q : jsstring) :
  handleSearch_submit this = (this1, Some q) ->
  let failure : option exn :=
    match searchProducts_url this1 q with
    | None => Some URIError_message
    | Some url =>
        match net url with
        | NetworkFailure message => Some message
        | Response status _ (Malformed message) =>
            if response_ok status then Some message else None
        | _ => None
        end
    end in
  forall message, failure = Some message ->
  handleSearch (h, this) net = (h, showErrorState message (awaiting q this))
  /\ view (snd (handleSearch (h, this) net)) = Some ErrorState
  /\ errorText_textContent (snd (handleSearch (h, this) net)) = message
  /\ productGrid (snd (handleSearch (h, this) net)) = []
  /\ currentProducts (snd (handleSearch (h, this) net)) = currentProducts this
  /\ (searchProducts_url this1 q = None ->
      forall net', handleSearch (h, this) net' = handleSearch (h, this) net).
Proof.
  intros Hsub failure message Hf.
  pose proof (handleSearch_submit_valid _ _ _ Hsub) as H1.
  fold (awaiting q this) in H1.
  assert (Hs : searchProducts this1 h net q = (h, inr message)).
  { subst failure. unfold searchProducts.
    destruct (searchProducts_url this1 q) as [url|]; [|congruence].
    destruct (net url) as [m|status st [m|b]]; try congruence.
    destruct (response_ok status); [|discriminate].
    cbn [negb]. congruence. }
  assert (Hh : handleSearch (h, this) net = (h, showErrorState message (awaiting q this))).
  { unfold handleSearch. rewrite Hsub, Hs, H1. reflexivity. }
  rewrite Hh. cbn [snd].
  destruct (awaiting_view q this message) as (Hv & Ht & Hg & Hc).
  do 5 (split; [assumption || reflexivity|]).
  intros Hnone net'. unfold handleSearch. rewrite Hsub.
  unfold searchProducts. rewrite Hnone.
  subst failure. rewrite Hnone in Hf. injection Hf as <-.
  rewrite H1. reflexivity.
Qed.

Lemma failed_search_shows_underlying_message_witness :
  let this := set_searchInput_value (lit "phone") (snd freshWorld) in
  let net := fun _ : jsstring => NetworkFailure (lit "Failed to fetch") in
  view (snd (@handleSearch sampleHost (fst freshWorld, this) net)) = Some ErrorState
  /\ errorText_textContent (snd (@handleSearch sampleHost (fst freshWorld, this) net))
     = lit "Failed to fetch".
Proof.
  intros this net.
  pose proof (@failed_search_shows_underlying_message sampleHost (fst freshWorld)
                this (fst (handleSearch_submit this)) net (lit "phone") eq_refl
                (lit "Failed to fetch") eq_refl) as (_ & Hv & Ht & _).
  split; [exact Hv | exact Ht].
Defined.

(** *** What rendering changes *)

Lemma appendCards_grid_only `{Host} (products : list Product) (this : ProductSearch) :
  exists grid, fst (appendCards this products) = set_productGrid grid this.
Proof.
  revert this. induction products as [|p l IH]; intros this; simpl.
  - exists (productGrid this). destruct this; reflexivity.
  - destruct (createProductCard this p) as [c|e].
    + destruct (IH (set_productGrid (productGrid this ++ [c]) this)) as [g Hg].
      exists g. rewrite Hg. reflexivity.
    + exists (productGrid this). destruct this; reflexivity.
Qed.

(** Rendering stops at the first product whose card throws, with the cards
    before it in the grid. *)
Lemma appendCards_stops `{Host} (this : ProductSearch)
  (before after : list Product) (bad : Product) (cards : list Card) (e : exn) :
  rendersAs this before cards ->
  createProductCard this bad = inr e ->
  appendCards this (before ++ bad :: after)
  = (set_productGrid (productGrid this ++ cards) this, Throw e).
Proof.
  intros Hr Hbad.
  assert (G : forall s, usdToInrRate s = usdToInrRate this ->
                appendCards s (before ++ bad :: after)
                = (set_productGrid (productGrid s ++ cards) s, Throw e)).
  { induction Hr as [|p c l cs Hc _ IH]; intros s Hs.
    - simpl. rewrite (createProductCard_rate s this) by exact Hs. rewrite Hbad.
      rewrite app_nil_r. destruct s; reflexivity.
    - simpl. rewrite (createProductCard_rate s this) by exact Hs. rewrite Hc.
      rewrite IH by exact Hs.
      cbn [productGrid set_productGrid]. rewrite <- app_assoc. reflexivity. }
  apply G. reflexivity.
Qed.

(** [displayResults] never hides the no-results notice, the error
    container or the results header: what is visible before it stays
    visible, and the error container and its text, the sort control, the
    inline message and the search term are left as they are.  Only
    [showLoading] hides sections. *)
Theorem displayResults_hides_nothing `{Host}
  (w : world) (data : SearchData) (searchTerm : jsstring) :
  let this := snd w in
  let this' := snd (fst (displayResults w data searchTerm)) in
  errorContainer_hidden this' = errorContainer_hidden this
  /\ errorText_textContent this' = errorText_textContent this
  /\ (noResults_hidden this = false -> noResults_hidden this' = false)
  /\ (resultsHeader_hidden this = false -> resultsHeader_hidden this' = false)
  /\ loadingSpinner_hidden this' = true
  /\ sortSelect_value this' = sortSelect_value this
  /\ errorMessage_show this' = errorMessage_show this
  /\ currentSearchTerm this' = currentSearchTerm this
  /\ fst (fst (displayResults w data searchTerm)) = fst w.
Proof.
  destruct w as [h this]. cbn [fst snd]. unfold displayResults.
  destruct (data_products data) as [a|]; [|cbn; tauto].
  destruct (length (array_get h a) =? 0)%nat; [cbn; tauto|].
  unfold showResults, renderProducts. cbn [currentProducts set_currentProducts].
  match goal with
  | |- context [appendCards ?s ?l] =>
      destruct (appendCards_grid_only l s) as [g Hg];
      destruct (appendCards s l) as [s' c]
  end.
  cbn [fst snd] in *. subst s'. cbn. tauto.
Qed.

Lemma displayResults_hides_nothing_witness :
  let this := awaiting (lit "phone") (snd freshWorld) in
  let none := allocBody (fst freshWorld) {| body_products := Some []; body_total := ofZ 0 |} in
  let w1 := @handleSearch_settle sampleHost (fst none, this) (lit "zz") (inl (snd none)) in
  let some := allocBody (fst w1) cannedBody in
  let w2 := fst (@displayResults sampleHost (fst some, snd w1) (snd some) (lit "phone")) in
  noResults_hidden (snd w1) = false
  /\ noResults_hidden (snd w2) = false
  /\ resultsHeader_hidden (snd w2) = false
  /\ view (snd w2) = None.
Proof.
  intros this none w1 some w2.
  assert (Hn : noResults_hidden (snd w1) = false) by (vm_compute; reflexivity).
  split; [exact Hn|]. split.
  - exact (proj1 (proj2 (proj2 (@displayResults_hides_nothing sampleHost
                                  (fst some, snd w1) (snd some) (lit "phone")))) Hn).
  - split; vm_compute; reflexivity.
Defined.

(** Every submission that passes validation ends in exactly one of the three
    terminal views, with the spinner hidden: the results when the answer is
    a success with at least one product, the no-results notice when it is a
    success without products, the error view in every other case. *)
Theorem valid_search_ends_in_one_view `{Host}
  (h : heap) (this this1 : ProductSearch) (net : jsstring -> FetchOutcome)
  (q : jsstring) :
  handleSearch_submit this = (this1, Some q) ->
  (forall url, searchProducts_url this1 q = Some url -> wellFormedOutcome (net url)) ->
  let this' := snd (handleSearch (h, this) net) in
  view this' = Some (expectedView (searchProducts_url this1 q) net)
  /\ loadingSpinner_hidden this' = true
  /\ currentSearchTerm this' = q
  /\ sortSelect_value this' = lit "relevance".
Proof.
  intros Hsub Hwf this'.
  pose proof (handleSearch_submit_valid _ _ _ Hsub) as H1.
  subst this'. unfold handleSearch. rewrite Hsub.
  unfold searchProducts, expectedView.
  destruct (searchProducts_url this1 q) as [url|]; [|rewrite H1; repeat split; reflexivity].
  specialize (Hwf url eq_refl).
  destruct (net url) as [m|status st body]; [rewrite H1; repeat split; reflexivity|].
  destruct (response_ok status); cbn [negb];
    [|rewrite H1; repeat split; reflexivity].
  destruct body as [m|b]; [rewrite H1; repeat split; reflexivity|].
  cbn [wellFormedOutcome] in Hwf. unfold allocBody.
  destruct b as [[P|] total]; cbn [body_products body_total] in *;
    [|rewrite H1; repeat split; reflexivity].
  pose proof (array_get_alloc h P) as Hget.
  destruct (array_alloc h P) as [h1 a]. cbn [fst snd] in Hget.
  unfold handleSearch_settle.
  destruct P as [|p P].
  - unfold displayResults. cbn [data_products]. rewrite Hget. cbn [length Nat.eqb].
    rewrite H1. repeat split; reflexivity.
  - destruct (rendersAs_exists this1 (p :: P) Hwf) as [cards Hcards].
    rewrite (displayResults_nonempty _ _ _ _ _ cards);
      [| rewrite Hget; discriminate | rewrite Hget; exact Hcards].
    rewrite H1. repeat split; reflexivity.
Qed.

Lemma valid_search_ends_in_one_view_witness :
  let this := set_searchInput_value (lit "phone") (snd freshWorld) in
  let net := fun _ : jsstring => Response 200 (lit "OK") (Malformed (lit "Unexpected token")) in
  view (snd (@handleSearch sampleHost (fst freshWorld, this) net)) = Some ErrorState.
Proof.
  intros this net.
  exact (proj1 (@valid_search_ends_in_one_view sampleHost (fst freshWorld) this
                  (fst (handleSearch_submit this)) net (lit "phone") eq_refl
                  (fun _ _ => I))).
Defined.

(** ** Ratings outside the data model *)

(** [repeat] rejects the count of full stars of a negative or infinite
    rating. *)
Lemma fullStars_count_rejected (r : number) :
  negativeOrInfinite r ->
  String_repeat [STAR] (toInteger (Math_floor r)) = None.
Proof.
  intros [Hv Hr].
  destruct r as [s|s| |s m e].
  - destruct Hr as [Hr|Hr]; [destruct s|]; discriminate.
  - reflexivity.
  - destruct Hr as [Hr|Hr]; discriminate.
  - assert (Hs : s = true).
    { destruct Hr as [Hr|Hr]; [|discriminate]. destruct s; [reflexivity|discriminate]. }
    subst s. clear Hr.
    cbn [valid_binary] in Hv. unfold bounded, canonical_mantissa in Hv.
    apply andb_true_iff in Hv as [Hc _]. apply Z.eqb_eq in Hc.
    unfold fexp, emin, prec, emax in Hc.
    pose proof (digits2_pos_bounds m) as [_ Hhi].
    assert (Hd : Zpos (digits2_pos m) <= 53) by lia.
    assert (Hm : Zpos m < 2 ^ 53).
    { assert (2 ^ Zpos (digits2_pos m) <= 2 ^ 53) by (apply Z.pow_le_mono_r; lia). lia. }
    unfold Math_floor. destruct (Z.leb_spec 0 e) as [He|He].
    + cbn [toInteger cond_Zopp]. rewrite (proj2 (Z.leb_le 0 e) He).
      assert (0 < Zpos m * 2 ^ e) by (apply Z.mul_pos_pos; [lia | apply Z.pow_pos_nonneg; lia]).
      unfold String_repeat. destruct (Z.ltb_spec (- (Zpos m * 2 ^ e)) 0); [reflexivity|lia].
    + change (cond_Zopp true (Zpos m)) with (Z.neg m).
      assert (Hp : 0 < 2 ^ (- e)) by (apply Z.pow_pos_nonneg; lia).
      assert (Hz : - Zpos m <= Z.neg m / 2 ^ (- e) < 0).
      { split.
        - apply Z.div_le_lower_bound; [exact Hp|]. change (Z.neg m) with (- Zpos m). nia.
        - apply Z.div_lt_upper_bound; [exact Hp|]. lia. }
      destruct (Z.neg m / 2 ^ (- e)) as [|p|p] eqn:Ez; [lia|lia|].
      cbn [binary_normalize].
      pose proof (digits2_pos_bounds p) as [Hlo _].
      assert (Hdp : Zpos (digits2_pos p) <= 53).
      { destruct (Z_le_gt_dec (Zpos (digits2_pos p)) 53) as [|Hgt]; [assumption|exfalso].
        assert (2 ^ 53 <= 2 ^ (Zpos (digits2_pos p) - 1)) by (apply Z.pow_le_mono_r; lia).
        lia. }
      destruct (binary_round_exact true p 0) as (Hr & Hle & Hval);
        [exact Hdp | lia | unfold fexp, emin, prec, emax; lia |].
      rewrite Hr. clear Hr.
      set (e' := fexp prec emax (Zpos (digits2_pos p) + 0)) in *.
      set (mz := fst (shl_align p 0 e')) in *.
      cbn [toInteger cond_Zopp].
      assert (Hint : (if 0 <=? e' then Zpos mz * 2 ^ e' else Zpos mz / 2 ^ (- e')) = Zpos p).
      { rewrite Hval. replace (0 - e') with (- e') by lia.
        destruct (Z.leb_spec 0 e').
        - assert (e' = 0) by lia. replace e' with 0 by lia. simpl. lia.
        - apply Z.div_mul. apply Z.pow_nonzero; lia. }
      rewrite Hint. reflexivity.
Qed.

(** [generateStars] throws the [RangeError] of [String.prototype.repeat] for
    every negative rating and for infinity: the count of full stars is
    below zero or infinite. *)
Theorem generateStars_throws_below_zero `{Host} (r : number) :
  negativeOrInfinite r ->
  generateStars r = inr (RangeError_message (Math_floor r)).
Proof.
  intros Hr. unfold generateStars, repeatString.
  rewrite (fullStars_count_rejected r Hr). reflexivity.
Qed.

Lemma generateStars_throws_below_zero_witness :
  negativeOrInfinite (ofZ (-1))
  /\ @generateStars sampleHost (ofZ (-1)) = inr (lit "Invalid count value").
Proof.
  assert (Hn : negativeOrInfinite (ofZ (-1))) by (split; [reflexivity | left; reflexivity]).
  split; [exact Hn|].
  exact (@generateStars_throws_below_zero sampleHost (ofZ (-1)) Hn).
Defined.

(** A product whose card throws stops the rendering of an answer: the cards
    of the products before it are in the grid under the results header, the
    error container shows the message of the exception over them, and
    [currentProducts] already holds the whole list. *)
Theorem unrenderable_product_ends_in_mixed_view `{Host}
  (h : heap) (this this1 : ProductSearch) (net : jsstring -> FetchOutcome)
  (q url statusText : jsstring) (status : N) (total : number)
  (before after : list Product) (bad : Product) (e : exn) :
  handleSearch_submit this = (this1, Some q) ->
  searchProducts_url this1 q = Some url ->
  net url = Response status statusText
              (Json {| body_products := Some (before ++ bad :: after);
                       body_total := total |}) ->
  response_ok status = true ->
  Forall wellFormedProduct before ->
  createProductCard this bad = inr e ->
  let w' := handleSearch (h, this) net in
  rendersAs this before (productGrid (snd w'))
  /\ resultsHeader_hidden (snd w') = false
  /\ errorContainer_hidden (snd w') = false
  /\ errorText_textContent (snd w') = e
  /\ view (snd w') = None
  /\ array_get (fst w') (currentProducts (snd w')) = before ++ bad :: after.
Proof.
  intros Hsub Hurl Hnet Hok Hwf Hbad w'.
  pose proof (handleSearch_submit_valid _ _ _ Hsub) as H1.
  destruct (allocBody_products h (before ++ bad :: after) total) as (a & Hal & Hget).
  destruct (rendersAs_exists this before Hwf) as [cards Hcards].
  subst w'. unfold handleSearch. rewrite Hsub.
  unfold searchProducts. rewrite Hurl, Hnet, Hok. cbn [negb]. rewrite Hal.
  unfold handleSearch_settle, displayResults. cbn [data_products data_total].
  rewrite Hget. rewrite length_eqb_nonempty by (intros Hn; destruct before; discriminate).
  unfold showResults, renderProducts. cbn [currentProducts set_currentProducts].
  rewrite Hget.
  erewrite appendCards_stops;
    [| eapply rendersAs_rate; [|exact Hcards]; rewrite H1; reflexivity
     | rewrite <- Hbad; apply createProductCard_rate; rewrite H1; reflexivity].
  cbn [fst snd]. rewrite H1.
  split; [exact Hcards|]. repeat split; try reflexivity. exact Hget.
Qed.

Lemma unrenderable_product_ends_in_mixed_view_witness :
  let bad := {| p_id := 9; p_title := lit "C"; p_description := None;
                p_price := ofZ 1; p_rating := Some (ofZ (-1));
                p_thumbnail := None; p_images := None |} in
  let this := set_searchInput_value (lit "phone") (snd freshWorld) in
  let net := respondWith {| body_products := Some ([productA] ++ bad :: [productB]);
                            body_total := ofZ 3 |} in
  let w' := @handleSearch sampleHost (fst freshWorld, this) net in
  Forall wellFormedProduct [productA]
  /\ List.map card_click (productGrid (snd w')) = [productA]
  /\ errorText_textContent (snd w') = lit "Invalid count value"
  /\ view (snd w') = None.
Proof.
  intros bad this net w'.
  assert (Hwf : Forall wellFormedProduct [productA]) by (repeat constructor; reflexivity).
  split; [exact Hwf|].
  pose proof (@unrenderable_product_ends_in_mixed_view sampleHost (fst freshWorld)
                this (fst (handleSearch_submit this)) net (lit "phone")
                (lit "https://dummyjson.com/products/search?q=phone&limit=50")
                (lit "OK") 200%N (ofZ 3) [productA] [productB] bad
                (lit "Invalid count value") eq_refl eq_refl eq_refl eq_refl Hwf eq_refl)
    as (Hr & _ & _ & Ht & Hv & _).
  split; [exact (rendersAs_products _ _ _ Hr)|]. split; [exact Ht | exact Hv].
Defined.

(** ** Escaping *)

Lemma countChar_app (c : N) (a b : jsstring) :
  countChar c (a ++ b) = (countChar c a + countChar c b)%nat.
Proof. unfold countChar. rewrite List.filter_app, length_app. reflexivity. Qed.

Lemma countChar_absent (c : N) (s : jsstring) :
  Forall (fun x => x <> c) s -> countChar c s = 0%nat.
Proof.
  unfold countChar. induction 1 as [|x s Hx _ IH]; [reflexivity|].
  cbn [List.filter]. destruct (N.eqb_spec c x); [congruence | exact IH].
Qed.

Lemma escapeHtml_angle_count (text : jsstring) :
  countChar 60 (escapeHtml text) = 0%nat /\ countChar 62 (escapeHtml text) = 0%nat.
Proof.
  pose proof (escapeHtml_no_angle text) as Hn.
  split; apply countChar_absent; (eapply Forall_impl; [exact Hn|]); cbv beta; tauto.
Qed.

(** [escapeHtml] replaces [&], [<], [>] and U+00A0 and nothing else: its
    result holds no angle bracket, text without those four code units comes
    back unchanged, and quotes are never escaped, so the result is not safe
    inside an attribute value. *)
Theorem escapeHtml_escapes_text_only (text : jsstring) :
  countChar 60 (escapeHtml text) = 0%nat
  /\ countChar 62 (escapeHtml text) = 0%nat
  /\ countChar 34 (escapeHtml text) = countChar 34 text
  /\ countChar 39 (escapeHtml text) = countChar 39 text
  /\ (length text <= length (escapeHtml text))%nat
  /\ (Forall (fun c => c <> 38%N /\ c <> 60%N /\ c <> 62%N /\ c <> 160%N) text ->
      escapeHtml text = text).
Proof.
  pose proof (escapeHtml_no_angle text) as Hn.
  split; [apply countChar_absent; eapply Forall_impl; [exact Hn|]; cbv beta; tauto|].
  split; [apply countChar_absent; eapply Forall_impl; [exact Hn|]; cbv beta; tauto|].
  unfold escapeHtml, serializeText.
  assert (Hq : forall q, (q = 34 \/ q = 39)%N -> forall c,
             countChar q (escapeChar c) = countChar q [c]).
  { intros q Hq c. unfold escapeChar.
    destruct (N.eqb_spec c 38) as [->|_]; [destruct Hq as [-> | ->]; reflexivity|].
    destruct (N.eqb_spec c 160) as [->|_]; [destruct Hq as [-> | ->]; reflexivity|].
    destruct (N.eqb_spec c 60) as [->|_]; [destruct Hq as [-> | ->]; reflexivity|].
    destruct (N.eqb_spec c 62) as [->|_]; [destruct Hq as [-> | ->]; reflexivity|].
    reflexivity. }
  assert (Hc : forall q, (q = 34 \/ q = 39)%N ->
             countChar q (concat (List.map escapeChar text)) = countChar q text).
  { clear Hn. intros q Hq'. induction text as [|c text IH]; [reflexivity|].
    cbn [List.map concat]. rewrite countChar_app, (Hq q Hq' c), IH.
    change (c :: text) with ([c] ++ text). rewrite countChar_app. reflexivity. }
  split; [apply Hc; left; reflexivity|].
  split; [apply Hc; right; reflexivity|].
  split.
  - clear Hn Hc Hq. induction text as [|c text IH]; [reflexivity|].
    cbn [List.map concat]. rewrite length_app. cbn [length].
    assert (1 <= length (escapeChar c))%nat; [|lia].
    unfold escapeChar. repeat (destruct (_ =? _)%N; [simpl; lia|]). simpl. lia.
  - clear Hn Hc Hq. induction 1 as [|c text (H1 & H2 & H3 & H4) _ IH]; [reflexivity|].
    cbn [List.map concat]. rewrite IH. unfold escapeChar.
    rewrite (proj2 (N.eqb_neq c 38) H1), (proj2 (N.eqb_neq c 160) H4),
      (proj2 (N.eqb_neq c 60) H2), (proj2 (N.eqb_neq c 62) H3).
    reflexivity.
Qed.

Lemma escapeHtml_escapes_text_only_witness :
  escapeHtml (lit "it's") = lit "it's"
  /\ countChar 39 (escapeHtml (lit "it's")) = 1%nat.
Proof.
  destruct (escapeHtml_escapes_text_only (lit "it's")) as (_ & _ & _ & Hq & _ & Hid).
  split; [|rewrite Hq; reflexivity].
  apply Hid. repeat (constructor; [repeat split; discriminate|]). constructor.
Defined.

(** ** The characters of the request URL *)

Lemma small_forall (bound : nat) (P : N -> bool) :
  forallb (fun n => P (N.of_nat n)) (seq 0 bound) = true ->
  forall x, (x < N.of_nat bound)%N -> P x = true.
Proof.
  intros Hall x Hx. rewrite forallb_forall in Hall.
  specialize (Hall (N.to_nat x)). rewrite N2Nat.id in Hall.
  apply Hall. apply in_seq. lia.
Qed.

Lemma percentEncode_safe (octet : N) :
  (octet < 256)%N -> Forall (fun c => uriSafe c = true) (percentEncode octet).
Proof.
  intros Ho. unfold percentEncode.
  assert (Hh : forall d, (d < 16)%N -> uriSafe (hexDigit d) = true).
  { apply (small_forall 16 (fun d => uriSafe (hexDigit d))). vm_compute. reflexivity. }
  repeat constructor.
  - apply Hh. apply N.Div0.div_lt_upper_bound. lia.
  - apply Hh. apply N.mod_lt. discriminate.
Qed.

Lemma utf8_octets (cp : N) :
  (cp < 1114112)%N -> Forall (fun o => (o < 256)%N) (utf8 cp).
Proof.
  intros Hcp. unfold utf8.
  assert (Hlow : forall x, (N.lor 128 (N.land x 63) < 256)%N).
  { intros x. change 63%N with (N.ones 6). rewrite N.land_ones.
    assert (Hs : forall y, (y < 64)%N -> (N.lor 128 y <? 256)%N = true).
    { apply (small_forall 64 (fun y => (N.lor 128 y <? 256)%N)). vm_compute. reflexivity. }
    apply N.ltb_lt, Hs. apply N.mod_lt. discriminate. }
  assert (Hhead : forall a k x, (x < N.of_nat k)%N ->
             forallb (fun n => (N.lor a (N.of_nat n) <? 256)%N) (seq 0 k) = true ->
             (N.lor a x < 256)%N).
  { intros a k x Hx Hall. apply N.ltb_lt.
    apply (small_forall k (fun y => (N.lor a y <? 256)%N) Hall x Hx). }
  destruct (N.ltb_spec cp 128); [repeat constructor; lia|].
  destruct (N.ltb_spec cp 2048).
  - repeat constructor; [|apply Hlow].
    apply (Hhead 192%N 32%nat); [|vm_compute; reflexivity].
    rewrite N.shiftr_div_pow2. apply N.Div0.div_lt_upper_bound. simpl. lia.
  - destruct (N.ltb_spec cp 65536).
    + repeat constructor; try apply Hlow.
      apply (Hhead 224%N 16%nat); [|vm_compute; reflexivity].
      rewrite N.shiftr_div_pow2. apply N.Div0.div_lt_upper_bound. simpl. lia.
    + repeat constructor; try apply Hlow.
      apply (Hhead 240%N 8%nat); [|vm_compute; reflexivity].
      rewrite N.shiftr_div_pow2. apply N.Div0.div_lt_upper_bound. simpl. lia.
Qed.

Lemma percentEncodeAll_safe (octets : list N) :
  Forall (fun o => (o < 256)%N) octets ->
  Forall (fun c => uriSafe c = true) (percentEncodeAll octets).
Proof.
  unfold percentEncodeAll. induction 1 as [|o l Ho _ IH]; [constructor|].
  cbn [List.map concat].
  apply Forall_app. split; [apply percentEncode_safe; exact Ho | exact IH].
Qed.

(** What [encodeURIComponent] returns holds only letters, digits, the marks
    [- _ . ! ~ * ' ( )] and [%]. *)
Lemma encodeURIComponent_safe (s r : jsstring) :
  wellFormedString s ->
  encodeURIComponent s = Some r ->
  Forall (fun c => uriSafe c = true) r.
Proof.
  assert (G : forall n s r, (length s <= n)%nat -> wellFormedString s ->
                encodeURIComponent s = Some r ->
                Forall (fun c => uriSafe c = true) r).
  { induction n as [|n IH]; intros s0 r0 Hlen Hwf He.
    - destruct s0; [|simpl in Hlen; lia]. injection He as <-. constructor.
    - destruct s0 as [|c s']; [injection He as <-; constructor|].
      inversion Hwf as [|? ? Hc Hwf']; subst. cbn [encodeURIComponent] in He.
      simpl in Hlen.
      destruct (uriUnescaped c) eqn:Eu.
      { destruct (encodeURIComponent s') as [r'|] eqn:E'; [|discriminate].
        injection He as <-. constructor.
        - unfold uriSafe. rewrite Eu. reflexivity.
        - apply (IH s'); [lia | exact Hwf' | exact E']. }
      destruct (isLeadingSurrogate c) eqn:El.
      { destruct s' as [|d s'']; [discriminate|].
        destruct (isTrailingSurrogate d) eqn:Et; [|discriminate].
        destruct (encodeURIComponent s'') as [r'|] eqn:E''; [|discriminate].
        injection He as <-. inversion Hwf' as [|? ? Hd Hwf'']; subst.
        apply Forall_app. split.
        - apply percentEncodeAll_safe, utf8_octets.
          unfold isLeadingSurrogate, isTrailingSurrogate, inRange in El, Et.
          apply andb_true_iff in El as [El1 El2]. apply andb_true_iff in Et as [Et1 Et2].
          apply N.leb_le in El1, El2, Et1, Et2. unfold codePointOfPair. lia.
        - apply (IH s''); [simpl in Hlen; lia | exact Hwf'' | exact E'']. }
      destruct (isTrailingSurrogate c); [discriminate|].
      destruct (encodeURIComponent s') as [r'|] eqn:E'; [|discriminate].
      injection He as <-. apply Forall_app. split.
      + apply percentEncodeAll_safe, utf8_octets. lia.
      + apply (IH s'); [lia | exact Hwf' | exact E']. }
  intros Hwf He. exact (G (length s) s r (le_n _) Hwf He).
Qed.

(** The query cannot change the shape of the request: whatever is typed,
    the URL holds one [?], one [&] (before [limit=50]), two [=], and no
    [#], space or quote. *)
Theorem request_url_keeps_its_shape (page : world) (q url : jsstring) :
  wellFormedString q ->
  searchProducts_url (snd (constructor page)) q = Some url ->
  countChar 63 url = 1%nat
  /\ countChar 38 url = 1%nat
  /\ countChar 61 url = 2%nat
  /\ countChar 35 url = 0%nat
  /\ countChar 32 url = 0%nat
  /\ countChar 34 url = 0%nat.
Proof.
  intros Hwf Hu. unfold searchProducts_url in Hu.
  destruct (encodeURIComponent q) as [enc|] eqn:Eq; [|discriminate].
  assert (Eurl : url = apiBaseUrl (snd (constructor page))
                       ++ lit "?q=" ++ enc ++ lit "&limit=50") by congruence.
  clear Hu. subst url. rewrite constructor_apiBaseUrl.
  pose proof (encodeURIComponent_safe q enc Hwf Eq) as Hs.
  assert (Hz : forall c, uriSafe c = false -> countChar c enc = 0%nat).
  { intros c Hc. apply countChar_absent.
    eapply Forall_impl; [exact Hs|]. cbv beta. intros x Hx ->. congruence. }
  repeat split; rewrite !countChar_app, Hz by reflexivity; reflexivity.
Qed.

Lemma request_url_keeps_its_shape_witness :
  wellFormedString (lit "a&limit=1#x")
  /\ searchProducts_url (snd freshWorld) (lit "a&limit=1#x")
     = Some (lit "https://dummyjson.com/products/search?q=a%26limit%3D1%23x&limit=50")
  /\ countChar 38
       (lit "https://dummyjson.com/products/search?q=a%26limit%3D1%23x&limit=50")
     = 1%nat.
Proof.
  assert (Hw : wellFormedString (lit "a&limit=1#x")) by (repeat constructor).
  assert (Hu : searchProducts_url (snd (constructor (∅, blankPage))) (lit "a&limit=1#x")
               = Some (lit "https://dummyjson.com/products/search?q=a%26limit%3D1%23x&limit=50"))
    by reflexivity.
  split; [exact Hw|]. split; [exact Hu|].
  exact (proj1 (proj2 (request_url_keeps_its_shape (∅, blankPage) _ _ Hw Hu))).
Defined.

(** ** Sorting twice, and the two price orders *)

Lemma stablySortedBy_refl {A} (rank : A -> Z) (l : list A) :
  StronglySorted (fun a b => rank a <= rank b) l -> stablySortedBy rank l l.
Proof. intros Hs. split; [reflexivity|]. split; [exact Hs | reflexivity]. Qed.






(** Sorting an array a second time by the same order changes nothing: a
    sorted array is a fixed point of [sortProducts], for every order. *)
Theorem sortProducts_twice_is_once (this : ProductSearch) (h : heap) (a : loc)
  (o : SortOrder) :
  usdToInrRate this = num_83_5 ->
  Forall (fun p => isSortKey (p_price p)) (array_get h a) ->
  Forall wellFormedProduct (array_get h a) ->
  let once := fst (sortProducts this h a (sortValue o)) in
  let twice := fst (sortProducts this once a (sortValue o)) in
  array_get twice a = array_get once a.
Proof.
  intros Hrate Hkey Hwf once twice.
  destruct (sortProducts_by_rank this h a Hrate) as (Hp1 & Hr1 & Hn1).
  destruct (sortProducts_by_rank this once a Hrate) as (Hp2 & Hr2 & Hn2).
  cbv zeta in Hp1, Hr1, Hn1, Hp2, Hr2, Hn2.
  assert (Hperm : Permutation (array_get once a) (array_get h a)).
  { subst once. rewrite sortProducts_comparator.
    destruct (comparatorOf this (sortValue o)) as [c|]; [|reflexivity].
    rewrite array_get_sort. destruct (decide (a = a)); [|congruence].
    apply sortList_perm. }
  assert (Hkey' : Forall (fun p => isSortKey (p_price p)) (array_get once a)).
  { apply List.Forall_forall. intros p Hp. rewrite List.Forall_forall in Hkey.
    apply Hkey. eapply Permutation_in; [exact Hperm | exact Hp]. }
  assert (Hwf' : Forall wellFormedProduct (array_get once a)).
  { apply List.Forall_forall. intros p Hp. rewrite List.Forall_forall in Hwf.
    apply Hwf. eapply Permutation_in; [exact Hperm | exact Hp]. }
  destruct o.
  - exact Hn2.
  - destruct (Hp1 Hkey) as [H1 _]. destruct (Hp2 Hkey') as [H2 _].
    eapply stablySortedBy_unique; [exact H2|].
    apply stablySortedBy_refl. exact (proj1 (proj2 H1)).
  - destruct (Hp1 Hkey) as [_ H1]. destruct (Hp2 Hkey') as [_ H2].
    eapply stablySortedBy_unique; [exact H2|].
    apply stablySortedBy_refl. exact (proj1 (proj2 H1)).
  - specialize (Hr1 Hwf). specialize (Hr2 Hwf').
    eapply stablySortedBy_unique; [exact Hr2|].
    apply stablySortedBy_refl. exact (proj1 (proj2 Hr1)).
Qed.

Lemma sortProducts_twice_is_once_witness :
  let h := fst (array_alloc ∅ [productA; productB]) in
  let a := snd (array_alloc ∅ [productA; productB]) in
  let once := fst (sortProducts (snd freshWorld) h a (sortValue PriceAscending)) in
  let twice := fst (sortProducts (snd freshWorld) once a (sortValue PriceAscending)) in
  array_get once a = [productB; productA]
  /\ array_get twice a = array_get once a.
Proof.
  intros h a once twice. split; [vm_compute; reflexivity|].
  apply (sortProducts_twice_is_once (snd freshWorld) h a PriceAscending).
  - reflexivity.
  - subst h a. rewrite array_get_alloc.
    repeat constructor; vm_compute; repeat split; congruence.
  - subst h a. rewrite array_get_alloc.
    repeat constructor; vm_compute; repeat split; reflexivity.
Defined.



(** ** The modal: availability *)

Lemma asciiLower_idem (c : N) : asciiLower (asciiLower c) = asciiLower c.
Proof.
  unfold asciiLower, inRange.
  destruct ((65 <=? c) && (c <=? 90))%N eqn:E; [|rewrite E; reflexivity].
  apply andb_true_iff in E as [E1 E2]. apply N.leb_le in E1, E2.
  destruct (N.leb_spec 65 (c + 32)), (N.leb_spec (c + 32) 90); cbn [andb];
    try reflexivity; lia.
Qed.

Lemma asciiLower_isAscii (s : jsstring) :
  isAscii s -> isAscii (List.map asciiLower s).
Proof.
  unfold isAscii. induction 1 as [|c s Hc _ IH]; cbn [List.map]; constructor;
    [|exact IH].
  unfold asciiLower, inRange.
  destruct ((65 <=? c) && (c <=? 90))%N eqn:E; [|exact Hc].
  apply andb_true_iff in E as [E1 E2]. apply N.leb_le in E1, E2. lia.
Qed.

Lemma isAscii_app (a b : jsstring) : isAscii a -> isAscii b -> isAscii (a ++ b).
Proof. unfold isAscii. intros Ha Hb. apply Forall_app. split; assumption. Qed.

(** [getAvailabilityClass] looks for its three phrases anywhere in the text
    and without regard to ASCII case, [in stock] first: a text that holds
    [In Stock] is styled as in stock whatever stands around it. *)
Theorem getAvailabilityClass_ignores_case `{Host} `{ModalHost}
  (availability pre post : jsstring) :
  isAscii availability -> isAscii pre -> isAscii post ->
  getAvailabilityClass (List.map asciiLower availability)
  = getAvailabilityClass availability
  /\ In (getAvailabilityClass availability)
       [lit "in-stock"; lit "low-stock"; lit "out-of-stock"]
  /\ getAvailabilityClass (pre ++ lit "In Stock" ++ post) = lit "in-stock".
Proof.
  intros Ha Hpre Hpost. split; [|split].
  - unfold getAvailabilityClass.
    rewrite (String_toLowerCase_ascii _ (asciiLower_isAscii _ Ha)).
    rewrite (String_toLowerCase_ascii _ Ha).
    rewrite List.map_map.
    rewrite (List.map_ext _ asciiLower asciiLower_idem). reflexivity.
  - unfold getAvailabilityClass.
    destruct (includes _ (lit "in stock")); [left; reflexivity|].
    destruct (includes _ (lit "low stock")); [right; left; reflexivity|].
    destruct (includes _ (lit "out of stock")); [right; right; left; reflexivity|].
    left; reflexivity.
  - unfold getAvailabilityClass.
    assert (Hlit : isAscii (lit "In Stock")) by (vm_compute; repeat constructor).
    rewrite String_toLowerCase_ascii
      by (apply isAscii_app; [exact Hpre | apply isAscii_app; [exact Hlit | exact Hpost]]).
    rewrite !List.map_app.
    change (List.map asciiLower (lit "In Stock")) with (lit "in stock").
    rewrite includes_app. reflexivity.
Qed.

Lemma getAvailabilityClass_ignores_case_witness :
  @getAvailabilityClass sampleModalHost (lit "low stock")
  = @getAvailabilityClass sampleModalHost (lit "Low Stock")
  /\ @getAvailabilityClass sampleModalHost (lit "Low Stock") = lit "low-stock"
  /\ @getAvailabilityClass sampleModalHost (lit "Not In Stock (out of stock)")
     = lit "in-stock".
Proof.
  assert (Ha : isAscii (lit "Low Stock")) by (vm_compute; repeat constructor).
  assert (Hpre : isAscii (lit "Not ")) by (vm_compute; repeat constructor).
  assert (Hpost : isAscii (lit " (out of stock)")) by (vm_compute; repeat constructor).
  destruct (@getAvailabilityClass_ignores_case sampleHost sampleModalHost
              (lit "Low Stock") (lit "Not ") (lit " (out of stock)") Ha Hpre Hpost)
    as (H1 & _ & H3).
  split; [exact H1|]. split; [reflexivity | exact H3].
Defined.

(** ** The modal: images *)

Lemma validImagesOf_valid (product : Product) :
  Forall (fun s => truthy (trim s) = true) (validImagesOf product).
Proof.
  unfold validImagesOf.
  generalize (match p_images product with
              | Some l => List.map Some l
              | None => [p_thumbnail product]
              end).
  induction l as [|img l IH]; [constructor|].
  cbn [List.filter]. destruct (validImage img) eqn:Ev; [|exact IH].
  destruct img as [s|]; [|discriminate]. cbn [validImage] in Ev.
  apply andb_true_iff in Ev as [_ Ev].
  change (omap id (Some s :: List.filter validImage l))
    with (s :: omap id (List.filter validImage l)).
  constructor; [exact Ev | exact IH].
Qed.

Lemma imap_proj {A B} (pr : A -> B) (l : list A) :
  forall g : nat -> A -> A,
  (forall j x, pr (g j x) = pr x) -> List.map pr (imap g l) = List.map pr l.
Proof.
  induction l as [|x l IH]; intros g Hg; [reflexivity|].
  cbn [imap List.map]. rewrite Hg. f_equal. apply IH. intros j y. apply Hg.
Qed.

Lemma imap_thumbnailOf_src (title : jsstring) (l : list jsstring) :
  forall k, List.map thumb_src (imap (fun i => thumbnailOf title (i + k)) l) = l
            /\ List.map thumb_image (imap (fun i => thumbnailOf title (i + k)) l) = l.
Proof.
  induction l as [|x l IH]; intros k; [split; reflexivity|].
  cbn [imap List.map].
  destruct (IH (S k)) as [IH1 IH2].
  assert (E : imap ((fun i => thumbnailOf title (i + k)) ∘ S) l
              = imap (fun i => thumbnailOf title (i + S k)) l).
  { apply imap_ext. intros i y _. cbn. f_equal. lia. }
  rewrite E, IH1, IH2. split; reflexivity.
Qed.

Lemma imap_thumbnailOf (title : jsstring) (l : list jsstring) :
  List.map thumb_src (imap (thumbnailOf title) l) = l
  /\ List.map thumb_image (imap (thumbnailOf title) l) = l.
Proof.
  destruct (imap_thumbnailOf_src title l 0) as [H1 H2].
  assert (E : imap (fun i => thumbnailOf title (i + 0)) l = imap (thumbnailOf title) l).
  { apply imap_ext. intros i y _. f_equal. lia. }
  rewrite E in H1, H2. split; assumption.
Qed.

Lemma validImagesOf_first (product : Product) :
  forall blank img rest,
    imagesOrThumbnail product = blank ++ Some img :: rest ->
    Forall (fun i => validImage i = false) blank ->
    validImage (Some img) = true ->
    head (validImagesOf product) = Some img.
Proof.
  intros blank img rest Himgs Hblank Himg.
  unfold validImagesOf. fold (imagesOrThumbnail product). rewrite Himgs.
  clear Himgs. induction Hblank as [|i blank Hi _ IH].
  - cbn [app List.filter]. rewrite Himg. reflexivity.
  - cbn [app List.filter]. rewrite Hi. exact IH.
Qed.

Lemma validImagesOf_none (product : Product) :
  Forall (fun i => validImage i = false) (imagesOrThumbnail product) ->
  validImagesOf product = [].
Proof.
  intros Hblank. unfold validImagesOf. fold (imagesOrThumbnail product).
  induction Hblank as [|i l Hi _ IH]; [reflexivity|].
  cbn [List.filter]. rewrite Hi. exact IH.
Qed.

(** The main image of the modal is the first image that is not blank, of
    [images] or else of the [thumbnail] alone, and the placeholder when
    there is none; it is never blank.  The thumbnail strip is empty when
    fewer than two images are valid and holds every valid image
    otherwise.  An empty [images] array is used although it is empty: the
    [thumbnail] is then ignored. *)
Theorem populateImages_main_image (product : Product) :
  let pane := populateImages product in
  let valid := validImagesOf product in
  let placeholder := lit "https://via.placeholder.com/400x400?text=No+Image" in
  modalMainImage_src pane = default placeholder (head valid)
  /\ (forall blank img rest,
        imagesOrThumbnail product = blank ++ Some img :: rest ->
        Forall (fun i => validImage i = false) blank ->
        validImage (Some img) = true ->
        modalMainImage_src pane = img)
  /\ (Forall (fun i => validImage i = false) (imagesOrThumbnail product) ->
      modalMainImage_src pane = placeholder)
  /\ truthy (trim (modalMainImage_src pane)) = true
  /\ modalMainImage_alt pane = p_title product
  /\ ((length valid <= 1)%nat -> imageThumbnails pane = [])
  /\ ((2 <= length valid)%nat ->
      List.map thumb_src (imageThumbnails pane) = valid)
  /\ modalMainImage_src
       (populateImages {| p_id := p_id product; p_title := p_title product;
                          p_description := p_description product;
                          p_price := p_price product;
                          p_rating := p_rating product;
                          p_thumbnail := p_thumbnail product;
                          p_images := Some [] |})
     = placeholder.
Proof.
  cbv zeta.
  assert (Hmain : modalMainImage_src (populateImages product)
                  = default (lit "https://via.placeholder.com/400x400?text=No+Image")
                      (head (validImagesOf product))).
  { unfold populateImages. destruct (validImagesOf product); reflexivity. }
  split; [exact Hmain|].
  split.
  { intros blank img rest Himgs Hblank Himg. rewrite Hmain.
    rewrite (validImagesOf_first product blank img rest Himgs Hblank Himg).
    reflexivity. }
  split.
  { intros Hblank. rewrite Hmain, (validImagesOf_none product Hblank). reflexivity. }
  split.
  { rewrite Hmain. pose proof (validImagesOf_valid product) as Hv.
    destruct (validImagesOf product) as [|first rest]; [reflexivity|].
    inversion Hv; subst. assumption. }
  split; [reflexivity|].
  split.
  { intros Hlen. unfold populateImages.
    destruct (validImagesOf product) as [|first [|second rest]];
      [reflexivity | reflexivity | cbn [length] in Hlen; lia]. }
  split; [|reflexivity].
  intros Hlen. unfold populateImages.
  destruct (validImagesOf product) as [|first [|second rest]];
    [cbn [length] in Hlen; lia | cbn [length] in Hlen; lia |].
  cbn [length Nat.eqb]. change (1 <? S (S (length rest)))%nat with true.
  cbn [imageThumbnails]. apply imap_thumbnailOf.
Qed.

Lemma populateImages_main_image_witness :
  imagesOrThumbnail productWithOneImage = [Some (lit " ")] ++ Some (lit "a.png") :: []
  /\ modalMainImage_src (populateImages productWithOneImage) = lit "a.png"
  /\ imageThumbnails (populateImages productWithOneImage) = [].
Proof.
  assert (Himgs : imagesOrThumbnail productWithOneImage
                  = [Some (lit " ")] ++ Some (lit "a.png") :: []) by reflexivity.
  destruct (populateImages_main_image productWithOneImage)
    as (_ & Hfirst & _ & _ & _ & Hstrip & _).
  split; [exact Himgs|]. split.
  - apply (Hfirst _ _ _ Himgs); [repeat constructor | reflexivity].
  - apply Hstrip. vm_compute. lia.
Defined.

Lemma filter_none {A} (f : A -> bool) (l : list A) :
  (forall j x, l !! j = Some x -> f x = false) -> List.filter f l = [].
Proof.
  induction l as [|x l IH]; intros Hf; [reflexivity|].
  cbn [List.filter]. rewrite (Hf 0%nat x eq_refl).
  apply IH. intros j y Hy. exact (Hf (S j) y Hy).
Qed.

Lemma filter_single {A} (f : A -> bool) (l : list A) :
  forall i t, l !! i = Some t ->
  (forall j x, l !! j = Some x -> f x = (j =? i)%nat) ->
  List.filter f l = [t].
Proof.
  induction l as [|x l IH]; intros i t Hi Hf; [discriminate|].
  cbn [List.filter]. destruct i as [|i].
  - injection Hi as ->. rewrite (Hf 0%nat t eq_refl). cbn [Nat.eqb]. f_equal.
    apply filter_none. intros j y Hy. exact (Hf (S j) y Hy).
  - rewrite (Hf 0%nat x eq_refl). cbn [Nat.eqb].
    apply (IH i t Hi). intros j y Hy. exact (Hf (S j) y Hy).
Qed.

(** One thumbnail is active, the main image shows its image, and the
    thumbnails stand for the images [imgs]. *)
Lemma imageEvent_invariant (imgs : list jsstring) (pane : ImagePane) (ev : ImageEvent) :
  (List.map thumb_image (imageThumbnails pane) = imgs
   /\ exists i t, imageThumbnails pane !! i = Some t
        /\ modalMainImage_src pane = thumb_image t
        /\ forall j x, imageThumbnails pane !! j = Some x ->
                       thumb_active x = (j =? i)%nat) ->
  List.map thumb_image (imageThumbnails (imageEvent pane ev)) = imgs
  /\ exists i t, imageThumbnails (imageEvent pane ev) !! i = Some t
       /\ modalMainImage_src (imageEvent pane ev) = thumb_image t
       /\ forall j x, imageThumbnails (imageEvent pane ev) !! j = Some x ->
                      thumb_active x = (j =? i)%nat.
Proof.
  intros (Himgs & i & t & Hi & Hmain & Hact).
  destruct ev as [k|k]; cbn [imageEvent].
  - unfold thumbnailClick.
    destruct (imageThumbnails pane !! k) as [clicked|] eqn:Hk.
    + cbn [imageThumbnails modalMainImage_src]. split.
      * rewrite <- Himgs. apply imap_proj. reflexivity.
      * eexists k, _. split; [rewrite list_lookup_imap, Hk; reflexivity|].
        split; [reflexivity|].
        intros j x Hx. rewrite list_lookup_imap in Hx.
        destruct (imageThumbnails pane !! j); [|discriminate].
        injection Hx as <-. reflexivity.
    + split; [exact Himgs|]. exists i, t. repeat split; assumption.
  - unfold thumbnailError. cbn [imageThumbnails modalMainImage_src]. split.
    + rewrite <- Himgs. apply imap_proj. intros j x.
      destruct (j =? k)%nat; reflexivity.
    + eexists i, _. split; [rewrite list_lookup_imap, Hi; reflexivity|].
      split; [rewrite Hmain; destruct (i =? k)%nat; reflexivity|].
      intros j x Hx. rewrite list_lookup_imap in Hx.
      destruct (imageThumbnails pane !! j) as [y|] eqn:Hy; [|discriminate].
      injection Hx as <-. rewrite <- (Hact j y Hy).
      destruct (j =? k)%nat; reflexivity.
Qed.

(** Whatever thumbnails are clicked and whatever thumbnails fail to load,
    exactly one thumbnail is active and the main image shows the image it
    stands for; a thumbnail that failed to load still stands for its own
    image. *)
Theorem thumbnail_events_keep_one_active (product : Product)
  (evs : list ImageEvent) :
  imageThumbnails (populateImages product) <> [] ->
  let pane := imageEvents evs (populateImages product) in
  exists t,
    List.filter thumb_active (imageThumbnails pane) = [t]
    /\ modalMainImage_src pane = thumb_image t
    /\ List.map thumb_image (imageThumbnails pane) = validImagesOf product.
Proof.
  intros Hne pane.
  assert (Hinit : List.map thumb_image (imageThumbnails (populateImages product))
                  = validImagesOf product
                  /\ exists i t, imageThumbnails (populateImages product) !! i = Some t
                       /\ modalMainImage_src (populateImages product) = thumb_image t
                       /\ forall j x, imageThumbnails (populateImages product) !! j = Some x ->
                                      thumb_active x = (j =? i)%nat).
  { revert Hne. unfold populateImages.
    destruct (validImagesOf product) as [|first [|second rest]] eqn:Ev;
      [intros Hne; exfalso; apply Hne; reflexivity
      |intros Hne; exfalso; apply Hne; reflexivity|].
    intros _.
    cbn [length Nat.eqb]. change (1 <? S (S (length rest)))%nat with true.
    cbn [imageThumbnails modalMainImage_src head default].
    repeat match goal with
           | |- context C [if true then ?a else _] =>
               let g := context C [a] in change g
           end.
    split; [apply imap_thumbnailOf|].
    exists 0%nat, (thumbnailOf (p_title product) 0 first).
    split; [reflexivity|]. split; [reflexivity|].
    intros j x Hx. rewrite list_lookup_imap in Hx.
    destruct ((first :: second :: rest) !! j); [|discriminate].
    injection Hx as <-. reflexivity. }
  assert (G : forall evs p,
             (List.map thumb_image (imageThumbnails p) = validImagesOf product
              /\ exists i t, imageThumbnails p !! i = Some t
                   /\ modalMainImage_src p = thumb_image t
                   /\ forall j x, imageThumbnails p !! j = Some x ->
                                  thumb_active x = (j =? i)%nat) ->
             List.map thumb_image (imageThumbnails (imageEvents evs p))
             = validImagesOf product
             /\ exists i t, imageThumbnails (imageEvents evs p) !! i = Some t
                  /\ modalMainImage_src (imageEvents evs p) = thumb_image t
                  /\ forall j x, imageThumbnails (imageEvents evs p) !! j = Some x ->
                                 thumb_active x = (j =? i)%nat).
  { clear. induction evs as [|ev evs IH]; intros p Hp; [exact Hp|].
    cbn [imageEvents fold_left]. apply IH. apply imageEvent_invariant. exact Hp. }
  destruct (G evs _ Hinit) as (Himgs & i & t & Hi & Hmain & Hact).
  exists t. split; [exact (filter_single _ _ i t Hi Hact)|].
  split; assumption.
Qed.

Lemma thumbnail_events_keep_one_active_witness :
  let pane := imageEvents [Click 1; LoadError 1; Click 0; Click 1]
                (populateImages productWithImages) in
  imageThumbnails (populateImages productWithImages) <> []
  /\ modalMainImage_src pane = lit "b.png"
  /\ exists t, List.filter thumb_active (imageThumbnails pane) = [t]
       /\ modalMainImage_src pane = thumb_image t
       /\ List.map thumb_image (imageThumbnails pane) = validImagesOf productWithImages.
Proof.
  intros pane.
  assert (Hne : imageThumbnails (populateImages productWithImages) <> [])
    by (vm_compute; discriminate).
  split; [exact Hne|]. split; [vm_compute; reflexivity|].
  exact (thumbnail_events_keep_one_active productWithImages
           [Click 1; LoadError 1; Click 0; Click 1] Hne).
Defined.

(** ** The modal: specifications and reviews *)

Lemma omap_cons' {A B} (f : A -> option B) (x : A) (l : list A) :
  omap f (x :: l) = match f x with Some y => y :: omap f l | None => omap f l end.
Proof. reflexivity. Qed.

Lemma length_omap_le {A B} (f : A -> option B) (l : list A) :
  (length (omap f l) <= length l)%nat.
Proof.
  induction l as [|x l IH]; [reflexivity|].
  rewrite omap_cons'. destruct (f x); cbn [length]; lia.
Qed.

Lemma specMarkup_angle `{Host} (label value : jsstring) :
  countChar 60 label = 0%nat -> countChar 62 label = 0%nat ->
  countChar 60 (specMarkup label value) = 4%nat
  /\ countChar 62 (specMarkup label value) = 4%nat.
Proof.
  intros H60 H62. destruct (escapeHtml_angle_count value) as [E60 E62].
  unfold specMarkup. rewrite !countChar_app, H60, H62, E60, E62.
  split; reflexivity.
Qed.

(** The specification list has at most seven rows, one per value that is
    present; a value cannot bring markup into its row, which holds the
    four tags of the template whatever the product says; a product without
    the optional fields has no row. *)
Theorem populateSpecifications_rows `{Host} `{ModalHost} (product : ProductDetails) :
  (length (populateSpecifications product) <= 7)%nat
  /\ Forall (fun item => spec_className item = lit "spec-item"
                         /\ countChar 60 (spec_innerHTML item) = 4%nat
                         /\ countChar 62 (spec_innerHTML item) = 4%nat)
       (populateSpecifications product)
  /\ populateSpecifications (plainDetails (d_product product)) = [].
Proof.
  split; [exact (length_omap_le _ (specsOf product))|].
  split; [|reflexivity].
  unfold populateSpecifications.
  assert (Hl : Forall (fun spec : jsstring * option jsstring =>
                         countChar 60 (fst spec) = 0%nat
                         /\ countChar 62 (fst spec) = 0%nat) (specsOf product))
    by (unfold specsOf; repeat constructor).
  induction Hl as [|spec l [H60 H62] _ IH]; [constructor|].
  rewrite omap_cons'. destruct (specShown (snd spec)); [|exact IH].
  constructor; [|exact IH]. cbn [spec_className spec_innerHTML].
  split; [reflexivity|]. apply specMarkup_angle; assumption.
Qed.

Lemma appendReviews_all `{Host} `{ModalHost} (reviews : list Review) :
  Forall reviewInRange reviews ->
  forall pane, exists items,
    appendReviews pane reviews
    = ({| modalReviews_innerHTML := modalReviews_innerHTML pane;
          modalReviews_children := modalReviews_children pane ++ items |}, Normal)
    /\ length items = length reviews.
Proof.
  induction 1 as [|review reviews Hr _ IH]; intros pane.
  - exists []. rewrite app_nil_r. destruct pane. split; reflexivity.
  - cbn [appendReviews]. unfold reviewItemOf.
    assert (Hin : ratingInRange (ratingOrZero (r_rating review))).
    { apply ratingOrZero_in_range. exact Hr. }
    destruct (generateStars_in_range _ Hin) as (_ & _ & ->).
    match goal with
    | |- context [appendReviews ?p reviews] => destruct (IH p) as (items & -> & Hlen)
    end.
    cbn [modalReviews_innerHTML modalReviews_children].
    eexists (_ :: items). rewrite <- app_assoc. split; [reflexivity|].
    cbn [length]. rewrite Hlen. reflexivity.
Qed.

(** A product of the data model whose reviews have ratings of the data
    model opens the modal: the page stops scrolling, the reviews pane holds
    one item per review, or the message when there is none, and the count
    beside the stars is the number of reviews. *)
Theorem openProductModal_opens `{Host} `{ModalHost} (this : ProductSearch)
  (m : Modal) (product : ProductDetails) :
  wellFormedProduct (d_product product) ->
  Forall reviewInRange (default [] (d_reviews product)) ->
  let reviews := default [] (d_reviews product) in
  exists opened,
    openProductModal this m product = (opened, Normal)
    /\ productModal_hidden opened = false
    /\ body_overflow opened = lit "hidden"
    /\ length (modalReviews_children (modalReviews opened)) = length reviews
    /\ modalReviews_innerHTML (modalReviews opened)
       = (if (length reviews =? 0)%nat then noReviewsMarkup else [])
    /\ modalReviewCount (modalStatus opened) = decimal (N.of_nat (length reviews))
    /\ modalProductTitle (modalHeading opened) = p_title (d_product product)
    /\ modalImages opened = populateImages (d_product product)
    /\ modalSpecifications opened = populateSpecifications product.
Proof.
  intros Hp Hr reviews.
  unfold openProductModal, populateModal.
  destruct (generateStars_in_range _ (ratingOrZero_in_range _ Hp)) as (_ & _ & ->).
  assert (Hrev : exists pane,
             populateReviews product = (pane, Normal)
             /\ length (modalReviews_children pane) = length reviews
             /\ modalReviews_innerHTML pane
                = (if (length reviews =? 0)%nat then noReviewsMarkup else [])).
  { unfold populateReviews. subst reviews.
    destruct (d_reviews product) as [l|]; cbn [default] in *.
    - destruct l as [|r l].
      + eexists. split; [reflexivity|]. split; reflexivity.
      + cbn [length Nat.eqb].
        destruct (appendReviews_all (r :: l) Hr
                    {| modalReviews_innerHTML := []; modalReviews_children := [] |})
          as (items & -> & Hlen).
        eexists. split; [reflexivity|]. split; [exact Hlen | reflexivity].
    - eexists. split; [reflexivity|]. split; reflexivity. }
  destruct Hrev as (pane & -> & Hlen & Hhtml).
  eexists. split; [reflexivity|].
  cbn. repeat split; try reflexivity; assumption.
Qed.

Lemma openProductModal_opens_witness :
  wellFormedProduct (d_product reviewedDetails)
  /\ Forall reviewInRange (default [] (d_reviews reviewedDetails))
  /\ exists opened,
       @openProductModal sampleHost sampleModalHost (snd freshWorld) closedModal
         reviewedDetails = (opened, Normal)
       /\ productModal_hidden opened = false
       /\ length (modalReviews_children (modalReviews opened)) = 1%nat
       /\ modalAvailability_className (modalStatus opened)
          = lit "availability-status low-stock".
Proof.
  assert (Hp : wellFormedProduct (d_product reviewedDetails))
    by (vm_compute; repeat split; reflexivity).
  assert (Hr : Forall reviewInRange (default [] (d_reviews reviewedDetails)))
    by (repeat constructor; vm_compute; repeat split; reflexivity).
  split; [exact Hp|]. split; [exact Hr|].
  destruct (@openProductModal_opens sampleHost sampleModalHost (snd freshWorld)
              closedModal reviewedDetails Hp Hr)
    as (opened & Ho & Hh & _ & Hlen & _).
  exists opened. split; [exact Ho|]. split; [exact Hh|]. split; [exact Hlen|].
  assert (E : fst (@openProductModal sampleHost sampleModalHost (snd freshWorld)
                     closedModal reviewedDetails) = opened)
    by (rewrite Ho; reflexivity).
  rewrite <- E. vm_compute. reflexivity.
Defined.

Lemma reviewItemOf_rejected `{Host} `{ModalHost} (bad : Review) (r : number) :
  r_rating bad = Some r -> negativeOrInfinite r ->
  reviewItemOf bad = inr (RangeError_message (Math_floor r)).
Proof.
  intros Hrating Hr. unfold reviewItemOf. rewrite Hrating.
  assert (Ht : ratingOrZero (Some r) = r).
  { destruct Hr as [_ [Hlt | ->]]; [|reflexivity].
    destruct r as [s|s| |s m0 e]; try reflexivity; discriminate. }
  rewrite Ht. unfold generateStars, repeatString.
  rewrite (fullStars_count_rejected r Hr). reflexivity.
Qed.

Lemma appendReviews_stops `{Host} `{ModalHost} (good : list Review) (bad : Review)
  (rest : list Review) (e : exn) :
  Forall reviewInRange good ->
  reviewItemOf bad = inr e ->
  forall pane, exists items,
    appendReviews pane (good ++ bad :: rest)
    = ({| modalReviews_innerHTML := modalReviews_innerHTML pane;
          modalReviews_children := modalReviews_children pane ++ items |}, Throw e)
    /\ length items = length good.
Proof.
  intros Hgood Hbad. induction Hgood as [|review good Hr _ IH]; intros pane.
  - exists []. cbn [app appendReviews]. rewrite Hbad, app_nil_r.
    destruct pane. split; reflexivity.
  - cbn [app appendReviews]. unfold reviewItemOf at 1.
    assert (Hin : ratingInRange (ratingOrZero (r_rating review)))
      by (apply ratingOrZero_in_range; exact Hr).
    destruct (generateStars_in_range _ Hin) as (_ & _ & ->).
    match goal with
    | |- context [appendReviews ?p (good ++ bad :: rest)] =>
        destruct (IH p) as (items & -> & Hlen)
    end.
    cbn [modalReviews_innerHTML modalReviews_children].
    eexists (_ :: items). rewrite <- app_assoc. split; [reflexivity|].
    cbn [length]. rewrite Hlen. reflexivity.
Qed.

(** A product that has its card, so that it can be clicked, does not open
    when one of its reviews has a negative or infinite rating: the
    exception of [generateStars] in [populateReviews] leaves the modal as
    hidden as it was and the page scrolling, with the heading, the images
    and the specifications of the product filled in and the reviews up to
    the faulty one appended. *)
Theorem openProductModal_stays_closed_on_bad_review `{Host} `{ModalHost}
  (this : ProductSearch) (m : Modal) (product : ProductDetails)
  (good rest : list Review) (bad : Review) (r : number) :
  wellFormedProduct (d_product product) ->
  d_reviews product = Some (good ++ bad :: rest) ->
  Forall reviewInRange good ->
  r_rating bad = Some r ->
  negativeOrInfinite r ->
  let after := fst (openProductModal this m product) in
  (exists card, createProductCard this (d_product product) = inl card
                /\ card_click card = d_product product)
  /\ snd (openProductModal this m product)
     = Throw (RangeError_message (Math_floor r))
  /\ productModal_hidden after = productModal_hidden m
  /\ body_overflow after = body_overflow m
  /\ modalProductTitle (modalHeading after) = p_title (d_product product)
  /\ modalReviewCount (modalStatus after)
     = decimal (N.of_nat (length (good ++ bad :: rest)))
  /\ modalImages after = populateImages (d_product product)
  /\ modalSpecifications after = populateSpecifications product
  /\ modalReviews_innerHTML (modalReviews after) = []
  /\ length (modalReviews_children (modalReviews after)) = length good.
Proof.
  intros Hp Hreviews Hgood Hrating Hr after.
  split; [exact (createProductCard_wellFormed this (d_product product) Hp)|].
  subst after. unfold openProductModal, populateModal.
  destruct (generateStars_in_range _ (ratingOrZero_in_range _ Hp)) as (_ & _ & ->).
  assert (Hrev : exists items,
             populateReviews product
             = ({| modalReviews_innerHTML := [];
                   modalReviews_children := items |},
                Throw (RangeError_message (Math_floor r)))
             /\ length items = length good).
  { unfold populateReviews. rewrite Hreviews.
    assert (Hlen : (length (good ++ bad :: rest) =? 0)%nat = false)
      by (destruct good; reflexivity).
    rewrite Hlen.
    destruct (appendReviews_stops good bad rest _ Hgood
                (reviewItemOf_rejected bad r Hrating Hr)
                {| modalReviews_innerHTML := []; modalReviews_children := [] |})
      as (items & -> & Hitems).
    exists items. split; [reflexivity | exact Hitems]. }
  destruct Hrev as (items & -> & Hitems).
  rewrite Hreviews. cbn. repeat split; try reflexivity. exact Hitems.
Qed.

Lemma openProductModal_stays_closed_on_bad_review_witness :
  wellFormedProduct (d_product badlyReviewedDetails)
  /\ negativeOrInfinite (ofZ (-1))
  /\ snd (@openProductModal sampleHost sampleModalHost (snd freshWorld) closedModal
            badlyReviewedDetails) = Throw (lit "Invalid count value")
  /\ productModal_hidden
       (fst (@openProductModal sampleHost sampleModalHost (snd freshWorld)
               closedModal badlyReviewedDetails)) = true
  /\ length (modalReviews_children
               (modalReviews
                  (fst (@openProductModal sampleHost sampleModalHost
                          (snd freshWorld) closedModal badlyReviewedDetails))))
     = 1%nat.
Proof.
  assert (Hp : wellFormedProduct (d_product badlyReviewedDetails))
    by (vm_compute; repeat split; reflexivity).
  assert (Hn : negativeOrInfinite (ofZ (-1)))
    by (split; [reflexivity | left; reflexivity]).
  set (good := [ {| r_reviewerName := Some (lit "Eve");
                    r_rating := Some (ofZ 5);
                    r_comment := None; r_date := None |} ]).
  set (bad := {| r_reviewerName := None; r_rating := Some (ofZ (-1));
                 r_comment := None; r_date := None |}).
  assert (Hgood : Forall reviewInRange good)
    by (repeat constructor; vm_compute; repeat split; reflexivity).
  destruct (@openProductModal_stays_closed_on_bad_review sampleHost sampleModalHost
              (snd freshWorld) closedModal badlyReviewedDetails good [] bad
              (ofZ (-1)) Hp eq_refl Hgood eq_refl Hn)
    as (_ & Hc & Hh & _ & _ & _ & _ & _ & _ & Hlen).
  split; [exact Hp|]. split; [exact Hn|].
  split; [exact Hc|]. split; [exact Hh | exact Hlen].
Defined.

(** Escape closes a modal that was opened and gives the page its scrolling
    back; what the modal was filled with stays in it, and no key changes a
    closed modal. *)
Theorem escape_closes_opened_modal `{Host} `{ModalHost} (this : ProductSearch)
  (m opened : Modal) (product : ProductDetails) :
  openProductModal this m product = (opened, Normal) ->
  let closed := handleKeydown (lit "Escape") opened in
  productModal_hidden closed = true
  /\ body_overflow closed = []
  /\ closed = closeModal opened
  /\ modalHeading closed = modalHeading opened
  /\ modalStatus closed = modalStatus opened
  /\ modalReviews closed = modalReviews opened
  /\ forall key, handleKeydown key closed = closed.
Proof.
  intros Ho closed.
  assert (Hopen : productModal_hidden opened = false).
  { unfold openProductModal in Ho.
    destruct (populateModal this m product) as [m1 [|e]]; [|discriminate].
    injection Ho as <-. reflexivity. }
  assert (Hc : closed = closeModal opened).
  { subst closed. unfold handleKeydown. rewrite Hopen.
    rewrite bool_decide_eq_true_2 by reflexivity. reflexivity. }
  rewrite Hc. repeat split.
  intros key. unfold handleKeydown. cbn [closeModal productModal_hidden
    set_body_overflow set_productModal_hidden negb].
  rewrite andb_false_r. reflexivity.
Qed.

Lemma escape_closes_opened_modal_witness :
  let opened := fst (@openProductModal sampleHost sampleModalHost (snd freshWorld)
                       closedModal reviewedDetails) in
  productModal_hidden opened = false
  /\ productModal_hidden (handleKeydown (lit "Escape") opened) = true
  /\ modalHeading (handleKeydown (lit "Escape") opened) = modalHeading opened.
Proof.
  intros opened.
  assert (Ho : @openProductModal sampleHost sampleModalHost (snd freshWorld)
                 closedModal reviewedDetails = (opened, Normal))
    by (vm_compute; reflexivity).
  destruct (@escape_closes_opened_modal sampleHost sampleModalHost (snd freshWorld)
              closedModal opened reviewedDetails Ho)
    as (Hh & _ & _ & Hhead & _).
  split; [vm_compute; reflexivity|]. split; [exact Hh | exact Hhead].
Defined.
